(** * Spreadsheet-to-database synchronisation of leonard-home-decor

    Shallow embedding of [src/app/api/sync/route.ts] (the HTTP endpoint) and
    of the [processProducts] function of the command-line script, together
    with the part of the JavaScript runtime these functions rely on.

    - [JS]: strings as sequences of UTF-16 code units, the Number values the
      code can observe, [trim], [parseInt], [parseFloat], [String(...)];
    - [Route]: [readSheetData], [processProducts], [deleteAllProducts],
      [insertProducts] and the [POST] handler, over an explicit world
      (spreadsheet service, database table, call trace);
    - [Script]: the script's own copy of [processProducts]. *)

From Stdlib Require Import ZArith NArith Lia List Sorted Ascii String DecimalString.
From Stdlib Require DecimalN.
From stdpp Require Import base option list gmap.

Local Open Scope N_scope.

(** ** The JavaScript runtime *)

Module JS.

(** A JavaScript string is a sequence of UTF-16 code units. *)
Definition jsstring := list N.

(** Literals: the code units of an ASCII text. *)
Definition js (s : string) : jsstring :=
  map N_of_ascii (list_ascii_of_string s).

Definition code_eqb (a b : N) : bool := N.eqb a b.

Fixpoint str_eqb (a b : jsstring) : bool :=
  match a, b with
  | [], [] => true
  | x :: a', y :: b' => code_eqb x y && str_eqb a' b'
  | _, _ => false
  end.

(** [s.startsWith(p)] *)
Fixpoint startsWith (p s : jsstring) : bool :=
  match p, s with
  | [], _ => true
  | x :: p', y :: s' => code_eqb x y && startsWith p' s'
  | _ :: _, [] => false
  end.

(** [s.substring(n)] for [0 <= n] *)
Definition substring (n : nat) (s : jsstring) : jsstring := drop n s.

(** WhiteSpace and LineTerminator code points: the set used by [trim], by the
    regular-expression class [\s] and by the prefix stripping of [parseInt]
    and [parseFloat]. *)
Definition is_ws (c : N) : bool :=
  (9 <=? c) && (c <=? 13)
  || (c =? 32) || (c =? 160) || (c =? 5760)
  || (8192 <=? c) && (c <=? 8202)
  || (c =? 8232) || (c =? 8233) || (c =? 8239) || (c =? 8287)
  || (c =? 12288) || (c =? 65279).

Fixpoint dropWhile (f : N -> bool) (s : jsstring) : jsstring :=
  match s with
  | [] => []
  | c :: s' => if f c then dropWhile f s' else s
  end.

Fixpoint takeWhile (f : N -> bool) (s : jsstring) : jsstring :=
  match s with
  | [] => []
  | c :: s' => if f c then c :: takeWhile f s' else []
  end.

Definition trimStart (s : jsstring) : jsstring := dropWhile is_ws s.
Definition trimEnd (s : jsstring) : jsstring :=
  rev (dropWhile is_ws (rev s)).
Definition trim (s : jsstring) : jsstring := trimEnd (trimStart s).

(** [s.replace(/[...]/g, '')] for a character class: the code units of the
    class are deleted, the others keep their order. *)
Definition remove_all (cls : N -> bool) (s : jsstring) : jsstring :=
  List.filter (fun c => negb (cls c)) s.

(** *** Numbers

    A Number is NaN, an infinity, or a finite value [(-1)^neg * m * 10^e].
    Finite values are kept as the decimal they denote: the rounding of the
    significand to 53 bits is not modelled, the range of binary64 is
    (overflow to an infinity, underflow to a signed zero), and so are the
    sign and the two zeros. *)
Inductive number : Type :=
  | NaN
  | Infinity (neg : bool)
  | Finite (neg : bool) (m : N) (e : Z).

(** Decimal normal form: a non-zero significand has no trailing zero. *)
Fixpoint strip10 (fuel : nat) (m : N) (e : Z) : N * Z :=
  match fuel with
  | O => (m, e)
  | S fuel' =>
      if (m mod 10 =? 0) then strip10 fuel' (m / 10) (e + 1)%Z else (m, e)
  end.

Definition normal (m : N) (e : Z) : N * Z := strip10 (N.size_nat m) m e.

(** Half-way point between the largest binary64 value and [2^1024]: decimals
    from there on round to an infinity. *)
Definition overflow_bound : Z := (2 ^ 1024 - 2 ^ 970)%Z.

(** [m * 10^e >= overflow_bound] *)
Definition overflows (m : N) (e : Z) : bool :=
  if (0 <=? e)%Z then (overflow_bound <=? Z.of_N m * 10 ^ e)%Z
  else (overflow_bound * 10 ^ (- e) <=? Z.of_N m)%Z.

(** [m * 10^e <= 2^-1075]: half the smallest subnormal rounds to zero. *)
Definition underflows (m : N) (e : Z) : bool :=
  if (0 <=? e)%Z then false
  else (Z.of_N m * 2 ^ 1075 <=? 10 ^ (- e))%Z.

(** The Number value of the real [(-1)^neg * m * 10^e]. *)
Definition to_number (neg : bool) (m : N) (e : Z) : number :=
  if m =? 0 then Finite neg 0 0
  else if overflows m e then Infinity neg
  else if underflows m e then Finite neg 0 0
  else let '(m', e') := normal m e in Finite neg m' e'.

(** The Number value of a natural number. *)
Definition of_N (n : N) : number := to_number false n 0.

Definition isNaN (x : number) : bool :=
  match x with NaN => true | _ => false end.

Definition isFinite (x : number) : bool :=
  match x with Finite _ _ _ => true | _ => false end.

(** ToBoolean on a Number: NaN, [+0] and [-0] are falsy. *)
Definition number_truthy (x : number) : bool :=
  match x with
  | NaN => false
  | Infinity _ => true
  | Finite _ m _ => negb (m =? 0)
  end.

(** [x <= 0] *)
Definition le_zero (x : number) : bool :=
  match x with
  | NaN => false
  | Infinity neg => neg
  | Finite neg m _ => (m =? 0) || neg
  end.

(** [x > 0] *)
Definition gt_zero (x : number) : bool :=
  match x with
  | NaN => false
  | Infinity neg => negb neg
  | Finite neg m _ => negb (m =? 0) && negb neg
  end.

(** [x >= 0] *)
Definition ge_zero (x : number) : bool :=
  match x with
  | NaN => false
  | Infinity neg => negb neg
  | Finite neg m _ => (m =? 0) || negb neg
  end.

(** *** Digits *)

Definition is_digit (c : N) : bool := (48 <=? c) && (c <=? 57).

Definition is_hex_digit (c : N) : bool :=
  is_digit c || (65 <=? c) && (c <=? 70) || (97 <=? c) && (c <=? 102).

Definition digit_value (c : N) : N :=
  if is_digit c then c - 48
  else if (65 <=? c) && (c <=? 70) then c - 55
  else c - 87.

(** Value of a digit string in the given radix, most significant first. *)
Definition digits_value (radix : N) (ds : jsstring) : N :=
  fold_left (fun acc c => acc * radix + digit_value c) ds 0.

(** Decimal digits of a natural number, as code units. *)
Definition digits_of_N (n : N) : jsstring :=
  js (NilZero.string_of_uint (N.to_uint n)).

Definition digits_of_nat (n : nat) : jsstring := digits_of_N (N.of_nat n).

(** *** [Number::toString] (radix 10) *)

Definition zeros (n : nat) : jsstring := repeat 48 n.

Definition exponent_suffix (x : Z) : jsstring :=
  [101] ++ (if (0 <=? x)%Z then [43] else [45]) ++ digits_of_N (Z.abs_N x).

Definition number_to_string (x : number) : jsstring :=
  match x with
  | NaN => js "NaN"
  | Infinity neg => (if neg then [45] else []) ++ js "Infinity"
  | Finite neg m e =>
      if m =? 0 then [48]
      else
        let '(s, e') := normal m e in
        let ds := digits_of_N s in
        let k := Z.of_nat (length ds) in
        let n := (e' + k)%Z in
        (if neg then [45] else []) ++
        (if (k <=? n)%Z && (n <=? 21)%Z then ds ++ zeros (Z.to_nat (n - k))
         else if (0 <? n)%Z && (n <=? 21)%Z then
           take (Z.to_nat n) ds ++ [46] ++ drop (Z.to_nat n) ds
         else if (-6 <? n)%Z && (n <=? 0)%Z then
           [48; 46] ++ zeros (Z.to_nat (- n)) ++ ds
         else if (k =? 1)%Z then ds ++ exponent_suffix (n - 1)
         else take 1 ds ++ [46] ++ drop 1 ds ++ exponent_suffix (n - 1))
  end.

(** *** [parseInt(string)] with the radix left undefined *)

(** A leading minus or plus sign is read and removed. *)
Definition split_sign (s : jsstring) : bool * jsstring :=
  match s with
  | c :: r =>
      if c =? 45 then (true, r)
      else if c =? 43 then (false, r)
      else (false, s)
  | [] => (false, s)
  end.

(** A leading [0x] or [0X] selects radix 16 and is removed. *)
Definition radix_prefix (s : jsstring) : N * jsstring :=
  match s with
  | 48 :: 120 :: r => (16, r)
  | 48 :: 88 :: r => (16, r)
  | _ => (10, s)
  end.

Definition parseInt (input : jsstring) : number :=
  let '(neg, s) := split_sign (trimStart input) in
  let '(radix, s) := radix_prefix s in
  let ds := takeWhile (if radix =? 16 then is_hex_digit else is_digit) s in
  match ds with
  | [] => NaN
  | _ => to_number neg (digits_value radix ds) 0
  end.

(** *** [parseFloat(string)]

    The longest prefix of the trimmed input that is a StrDecimalLiteral:
    an optional sign, then [Infinity], or digits with an optional fraction
    and an optional exponent part. *)

Definition exponent_part (s : jsstring) : Z :=
  match s with
  | c :: r =>
      if (c =? 101) || (c =? 69) then
        let '(neg, r') := split_sign r in
        match takeWhile is_digit r' with
        | [] => 0%Z
        | ds => let v := Z.of_N (digits_value 10 ds) in
                if neg then (- v)%Z else v
        end
      else 0%Z
  | [] => 0%Z
  end.

Definition parseFloat (input : jsstring) : number :=
  let '(neg, s) := split_sign (trimStart input) in
  if startsWith (js "Infinity") s then Infinity neg
  else
    let ip := takeWhile is_digit s in
    let r1 := dropWhile is_digit s in
    let '(fp, r2) :=
      match r1 with
      | c :: r =>
          if c =? 46 then (takeWhile is_digit r, dropWhile is_digit r)
          else ([], r1)
      | [] => ([], r1)
      end in
    match ip ++ fp with
    | [] => NaN
    | ds => to_number neg (digits_value 10 ds)
              (exponent_part r2 - Z.of_nat (length fp))
    end.

(** *** Values of spreadsheet cells

    The rows are typed [any[][]]: a cell read as [row[i]] is [undefined]
    (past the end of the row), [null], a boolean, a number or a string. *)
Inductive value : Type :=
  | Undefined
  | Null
  | Bool (b : bool)
  | Num (x : number)
  | Str (s : jsstring).

(** [String(v)] *)
Definition ToString (v : value) : jsstring :=
  match v with
  | Undefined => js "undefined"
  | Null => js "null"
  | Bool true => js "true"
  | Bool false => js "false"
  | Num x => number_to_string x
  | Str s => s
  end.

(** ToBoolean *)
Definition truthy (v : value) : bool :=
  match v with
  | Undefined | Null => false
  | Bool b => b
  | Num x => number_truthy x
  | Str s => match s with [] => false | _ => true end
  end.

(** Thrown values: every exception of the modelled code is an [Error] (or a
    [TypeError], which is one) carrying a message. *)
Inductive exn : Type :=
  | Error (message : jsstring)
  | TypeError (message : jsstring).

Definition exn_message (e : exn) : jsstring :=
  match e with Error m | TypeError m => m end.

(** Outcome of an evaluation that may throw. *)
Inductive result (A : Type) : Type :=
  | Ok (a : A)
  | Throw (e : exn).
Arguments Ok {A} a.
Arguments Throw {A} e.

End JS.

Import JS.

(** ** Data model shared by the endpoint and the script *)

(** A raw spreadsheet row: the cells present, column A first. *)
Definition row := list value.

(** [row[i]]: reading past the end of the array gives [undefined]. *)
Definition cell (r : row) (i : nat) : value := default Undefined (r !! i).

(** The hyperlink overlay: a plain object used as a map from the key
    [`${rowIndex}_${colIndex}`] to the link target. *)
Abbreviation overlay := (gmap jsstring jsstring).

Definition hyperlinkKey (rowIndex colIndex : nat) : jsstring :=
  digits_of_nat rowIndex ++ [95] ++ digits_of_nat colIndex.

(** The object literal returned by the [map] callback. *)
Record product : Type := mkProduct {
  name : jsstring;
  brand : option jsstring;
  stock : number;
  price : option number;
  image_url_1 : option jsstring;
  image_url_2 : option jsstring
}.

(** The class [[₽рубRUB]] under the [i] flag: the ruble sign, and both
    cases of the Cyrillic letters r, u, b and of the Latin letters R, U, B. *)
Definition is_currency (c : N) : bool :=
  (c =? 8381)
  || (c =? 1088) || (c =? 1056)
  || (c =? 1091) || (c =? 1059)
  || (c =? 1073) || (c =? 1041)
  || (c =? 82) || (c =? 114)
  || (c =? 85) || (c =? 117)
  || (c =? 66) || (c =? 98).

Definition is_comma (c : N) : bool := c =? 44.

(** The code units on which the URL pattern stops: white space, the double
    quote, the single quote and the closing parenthesis. *)
Definition is_url_stop (c : N) : bool :=
  is_ws c || (c =? 34) || (c =? 39) || (c =? 41).

Definition HTTP : jsstring := Eval cbv in js "http://".
Definition HTTPS : jsstring := Eval cbv in js "https://".

(** A match of the URL pattern ([http], an optional [s], [://], then one or
    more code units that are not stops) starting at the first code unit of
    [s]: the scheme and the longest non-empty run of admissible code units. *)
Definition url_at (s : jsstring) : option jsstring :=
  let scheme :=
    if startsWith HTTPS s then Some HTTPS
    else if startsWith HTTP s then Some HTTP
    else None in
  match scheme with
  | None => None
  | Some p =>
      match takeWhile (fun c => negb (is_url_stop c)) (drop (length p) s) with
      | [] => None
      | body => Some (p ++ body)
      end
  end.

(** [str.match(pattern)] for the URL pattern: group 1 of the leftmost
    match. *)
Fixpoint url_match (s : jsstring) : option jsstring :=
  match s with
  | [] => None
  | _ :: s' =>
      match url_at s with
      | Some u => Some u
      | None => url_match s'
      end
  end.

(** [v?.trim() || null]: [undefined] and [null] short-circuit, a string is
    trimmed and the empty result replaced by [null]; any other value has no
    [trim] method and the call throws. *)
Definition trim_or_null (what : string) (v : value) : result (option jsstring) :=
  match v with
  | Undefined | Null => Ok None
  | Str s => match trim s with [] => Ok None | t => Ok (Some t) end
  | Bool _ | Num _ => Throw (TypeError (js what ++ js " is not a function"))
  end.

Definition bind {A B} (r : result A) (k : A -> result B) : result B :=
  match r with
  | Ok a => k a
  | Throw e => Throw e
  end.

Notation "x <- r ;; k" := (bind r (fun x => k))
  (at level 100, r at next level, right associativity).

(** [rows.map(callback)], the callback receiving the element and its index. *)
Fixpoint map_indexed {A B} (f : A -> nat -> result B) (index : nat) (l : list A)
  : result (list B) :=
  match l with
  | [] => Ok []
  | a :: l' =>
      b <- f a index ;;
      bs <- map_indexed f (S index) l' ;;
      Ok (b :: bs)
  end.

(** [.filter((product) => product !== null)] *)
Definition filter_non_null {A} (l : list (option A)) : list A := omap id l.

(** Console lines of [processProducts]. *)
Definition LINE_PROCESSING : jsstring :=
  [55357; 56580] ++ js " Processing products...".

Definition line_filtered (n : nat) : jsstring :=
  js "   Filtered to " ++ digits_of_nat n ++ js " products with stock > 0".

(** ** The world of the endpoint

    What the handler reads and changes outside its own variables: the
    configuration of the process, the libraries it calls, the spreadsheet
    service and the database table. *)

(** [process.env]: a variable is a string or [undefined]. *)
Record environment : Type := mkEnv {
  SYNC_SECRET_KEY : option jsstring;
  GOOGLE_SHEET_ID : option jsstring;
  NEXT_PUBLIC_SUPABASE_URL : option jsstring;
  SUPABASE_SERVICE_ROLE_KEY : option jsstring;
  GOOGLE_CREDENTIALS_JSON : option jsstring;
  GOOGLE_CREDENTIALS_PATH : option jsstring
}.

(** A variable is usable when it is set and not the empty string. *)
Definition env_truthy (v : option jsstring) : bool :=
  match v with
  | Some (_ :: _) => true
  | _ => false
  end.

(** Library calls around the credentials and the two clients; each is a
    function of its arguments and may throw. *)
Record platform : Type := mkPlatform {
  credentials : Type;
  (** [JSON.parse(Buffer.from(text, 'base64').toString('utf8'))] *)
  base64_json_parse : jsstring -> result credentials;
  (** [path.resolve] *)
  path_resolve : jsstring -> jsstring;
  (** [fs.existsSync] *)
  existsSync : jsstring -> bool;
  (** [JSON.parse(fs.readFileSync(path, 'utf8'))] *)
  read_json_file : jsstring -> result credentials;
  (** [new GoogleAuth(...).getClient()] and [google.sheets(...)] *)
  getClient : credentials -> result unit;
  (** [createClient(url, key, options)] of the database library *)
  createClient : jsstring -> jsstring -> result unit
}.

(** The grid data of [spreadsheets.get], as far as the reader looks at it. *)
Record CellData : Type := mkCell { hyperlink : option jsstring }.
Record RowData : Type := mkRow { values : option (list CellData) }.
Record GridData : Type := mkGrid { rowData : option (list RowData) }.
Record Sheet : Type := mkSheet { data : option (list GridData) }.
Record Spreadsheet : Type := mkSpreadsheet { sheets : option (list Sheet) }.

(** Calls that leave the process. *)
Inductive call : Type :=
  | SheetsValuesGet
  | SheetsGet
  | DbSelect
  | DbDelete (ids : list N)
  | DbInsert (batch : list product).

(** The spreadsheet service answers the two reads with fixed outcomes
    ([valuesResponse.data.values] and [spreadsheetResponse.data]). The
    database is one table of products under storage-generated identifiers:
    a select returns every identifier, a delete removes the rows whose
    identifier is listed, an insert appends the batch. [db_errors] gives
    the error of each coming database call, first call first ([None], or
    the end of the list: the call succeeds). [trace] records the calls. *)
Record world : Type := mkWorld {
  sheet_values : result (option (list row));
  sheet_grid : result Spreadsheet;
  table : list (N * product);
  next_id : N;
  db_errors : list (option jsstring);
  trace : list call
}.

Definition log (c : call) (w : world) : world :=
  mkWorld (sheet_values w) (sheet_grid w) (table w) (next_id w)
          (db_errors w) (trace w ++ [c]).

Definition set_table (t : list (N * product)) (nxt : N) (w : world) : world :=
  mkWorld (sheet_values w) (sheet_grid w) t nxt (db_errors w) (trace w).

(** The error of the database call now made, and the world with it used. *)
Definition next_error (w : world) : option jsstring * world :=
  match db_errors w with
  | [] => (None, w)
  | e :: es =>
      (e, mkWorld (sheet_values w) (sheet_grid w) (table w) (next_id w)
                  es (trace w))
  end.

(** Computations that act on the world and may throw. *)
Definition M (A : Type) : Type := world -> result A * world.

Definition ret {A} (a : A) : M A := fun w => (Ok a, w).
Definition throw {A} (e : exn) : M A := fun w => (Throw e, w).
Definition lift {A} (r : result A) : M A := fun w => (r, w).

Definition bindM {A B} (m : M A) (k : A -> M B) : M B :=
  fun w =>
    match m w with
    | (Ok a, w') => k a w'
    | (Throw e, w') => (Throw e, w')
    end.

Notation "x <<- m ;; k" := (bindM m (fun x => k))
  (at level 100, m at next level, right associativity).
Notation "m ;;; k" := (bindM m (fun _ => k))
  (at level 100, right associativity).

(** [sheets.spreadsheets.values.get(...)] *)
Definition values_get : M (option (list row)) :=
  fun w => (sheet_values w, log SheetsValuesGet w).

(** [sheets.spreadsheets.get({..., includeGridData: true})] *)
Definition spreadsheets_get : M Spreadsheet :=
  fun w => (sheet_grid w, log SheetsGet w).

(** [supabase.from('products').select('id')]: the pair [{data, error}]. *)
Definition db_select : M (option (list N) * option jsstring) :=
  fun w =>
    let '(err, w1) := next_error (log DbSelect w) in
    match err with
    | Some m => (Ok (None, Some m), w1)
    | None => (Ok (Some (map fst (table w1)), None), w1)
    end.

(** [supabase.from('products').delete().in('id', ids)] *)
Definition db_delete (ids : list N) : M (option jsstring) :=
  fun w =>
    let '(err, w1) := next_error (log (DbDelete ids) w) in
    match err with
    | Some m => (Ok (Some m), w1)
    | None =>
        let kept :=
          List.filter (fun r => negb (existsb (N.eqb (fst r)) ids)) (table w1) in
        (Ok None, set_table kept (next_id w1) w1)
    end.

(** Fresh identifiers for an inserted batch. *)
Fixpoint with_ids (nxt : N) (batch : list product) : list (N * product) :=
  match batch with
  | [] => []
  | p :: ps => (nxt, p) :: with_ids (N.succ nxt) ps
  end.

(** [supabase.from('products').insert(batch)] *)
Definition db_insert (batch : list product) : M (option jsstring) :=
  fun w =>
    let '(err, w1) := next_error (log (DbInsert batch) w) in
    match err with
    | Some m => (Ok (Some m), w1)
    | None =>
        (Ok None,
         set_table (table w1 ++ with_ids (next_id w1) batch)
                   (next_id w1 + N.of_nat (length batch)) w1)
    end.

(** The request, as far as the handler reads it:
    [request.headers.get('authorization')]. *)
Record request : Type := mkRequest { authorization : option jsstring }.

(** [NextResponse.json(body, { status })] *)
Inductive body : Type :=
  | Success (count : nat)
  | Failure (error : jsstring).

Record response : Type := mkResponse { status : nat; json : body }.

(** ** The HTTP endpoint, [src/app/api/sync/route.ts] *)

Module Route.

(** [extractUrl], a closure over [hyperlinks]. An entry that is the empty
    string is falsy and therefore skipped by [if (hyperlinks[hyperlinkKey])]. *)
Definition extractUrl (hyperlinks : overlay)
    (rowIndex colIndex : nat) (cellValue : value) : option jsstring :=
  match hyperlinks !! hyperlinkKey rowIndex colIndex with
  | Some (c :: link) => Some (c :: link)
  | _ =>
      if negb (truthy cellValue) then None
      else
        let str := trim (ToString cellValue) in
        match str with
        | [] => None
        | _ =>
            if startsWith HTTP str || startsWith HTTPS str then Some str
            else url_match str
        end
  end.

(** The price block of the callback, on the cell [row[5]]. *)
Definition parsePrice (priceValue : value) : option number :=
  match priceValue with
  | Undefined | Null | Str [] => None
  | Num x => Some x
  | _ =>
      let priceStr := trim (ToString priceValue) in
      match priceStr with
      | [] => None
      | _ =>
          let cleanedPrice :=
            trim (remove_all is_comma
                    (remove_all is_ws (remove_all is_currency priceStr))) in
          let parsedPrice := parseFloat cleanedPrice in
          if negb (isNaN parsedPrice) && isFinite parsedPrice
          then Some parsedPrice
          else None
      end
  end.

(** [parseInt(row[4]) || 0] *)
Definition parseStock (v : value) : number :=
  let n := parseInt (ToString v) in
  if number_truthy n then n else Finite false 0 0.

(** The callback of [rows.map]: [Ok None] is the [null] of a discarded
    row. *)
Definition map_callback (hyperlinks : overlay) (r : row) (index : nat)
  : result (option product) :=
  name <- trim_or_null "row[0]?.trim" (cell r 0) ;;
  brand <- trim_or_null "row[1]?.trim" (cell r 1) ;;
  let stock := parseStock (cell r 4) in
  let price := parsePrice (cell r 5) in
  let image_url_1 := extractUrl hyperlinks index 6 (cell r 6) in
  let image_url_2 := extractUrl hyperlinks index 7 (cell r 7) in
  match name with
  | None => Ok None
  | Some name =>
      if le_zero stock then Ok None
      else Ok (Some (mkProduct name brand stock price image_url_1 image_url_2))
  end.

(** [processProducts]: the console lines written and the returned array,
    or the exception that left the function. *)
Definition processProducts (rows : list row) (hyperlinks : overlay)
  : list jsstring * result (list product) :=
  match map_indexed (map_callback hyperlinks) 0 rows with
  | Throw e => ([LINE_PROCESSING], Throw e)
  | Ok mapped =>
      let products := filter_non_null mapped in
      ([LINE_PROCESSING; line_filtered (length products)], Ok products)
  end.

(** [initializeSheetsAPI]: the credentials come from the inline variable
    when it is set, else from the file; the client is then requested. *)
Definition initializeSheetsAPI (pf : platform) (env : environment)
  : result unit :=
  credentials <-
    match GOOGLE_CREDENTIALS_JSON env, GOOGLE_CREDENTIALS_PATH env with
    | Some (c :: s), _ =>
        match base64_json_parse pf (c :: s) with
        | Ok cred => Ok cred
        | Throw e =>
            Throw (Error (js "Failed to parse GOOGLE_CREDENTIALS_JSON: "
                            ++ exn_message e))
        end
    | _, Some (c :: s) =>
        let credentialsPath := path_resolve pf (c :: s) in
        if negb (existsSync pf credentialsPath) then
          Throw (Error (js "Credentials file not found at: "
                          ++ credentialsPath))
        else read_json_file pf credentialsPath
    | _, _ =>
        Throw (Error (js "No credentials provided. Set either GOOGLE_CREDENTIALS_JSON or GOOGLE_CREDENTIALS_PATH"))
    end ;;
  getClient pf credentials.

(** The two [forEach] loops over the grid: a link found in column 6 or 7
    is stored under the key of its row and column. *)
Fixpoint scan_cells (rowIndex colIndex : nat) (cells : list CellData)
    (hyperlinks : overlay) : overlay :=
  match cells with
  | [] => hyperlinks
  | c :: cells' =>
      scan_cells rowIndex (S colIndex) cells'
        (match hyperlink c with
         | Some (x :: link) =>
             if (colIndex =? 6)%nat || (colIndex =? 7)%nat
             then <[hyperlinkKey rowIndex colIndex := x :: link]> hyperlinks
             else hyperlinks
         | _ => hyperlinks
         end)
  end.

Fixpoint scan_rows (rowIndex : nat) (rws : list RowData)
    (hyperlinks : overlay) : overlay :=
  match rws with
  | [] => hyperlinks
  | r :: rws' =>
      scan_rows (S rowIndex) rws'
        (match values r with
         | Some cells => scan_cells rowIndex 0 cells hyperlinks
         | None => hyperlinks
         end)
  end.

Definition grid_hyperlinks (sp : Spreadsheet) : overlay :=
  match sheets sp with
  | Some (sheet0 :: _) =>
      match data sheet0 with
      | Some (gridData :: _) =>
          match rowData gridData with
          | Some rws => scan_rows 0 rws ∅
          | None => ∅
          end
      | _ => ∅
      end
  | _ => ∅
  end.

(** [readSheetData]: both reads are made before either answer is used. *)
Definition readSheetData : M (list row * overlay) :=
  valuesResponse <<- values_get ;;
  spreadsheetResponse <<- spreadsheets_get ;;
  let rows := default [] valuesResponse in
  ret (rows, grid_hyperlinks spreadsheetResponse).

(** [deleteAllProducts] *)
Definition deleteAllProducts : M unit :=
  fetched <<- db_select ;;
  match fetched with
  | (_, Some fetchError) =>
      throw (Error (js "Failed to fetch products: " ++ fetchError))
  | (None, None) => ret tt
  | (Some [], None) => ret tt
  | (Some products, None) =>
      error <<- db_delete products ;;
      match error with
      | Some m => throw (Error (js "Failed to delete products: " ++ m))
      | None => ret tt
      end
  end.

Definition batchSize : nat := 100.

(** Number of times the body of
    [for (let i = 0; i < length; i += batchSize)] runs. *)
Definition iterations (len : nat) : nat := (len + (batchSize - 1)) / batchSize.

(** The loop of [insertProducts], [n] iterations from index [i] on. *)
Fixpoint insert_from (n i : nat) (products : list product) : M unit :=
  match n with
  | O => ret tt
  | S n' =>
      let batch := take batchSize (drop i products) in
      error <<- db_insert batch ;;
      match error with
      | Some m =>
          throw (Error (js "Failed to insert products batch "
                          ++ digits_of_nat (i / batchSize + 1)
                          ++ js ": " ++ m))
      | None => insert_from n' (i + batchSize) products
      end
  end.

(** [insertProducts] *)
Definition insertProducts (products : list product) : M unit :=
  match products with
  | [] => ret tt
  | _ => insert_from (iterations (length products)) 0 products
  end.

Definition UNAUTHORIZED : response :=
  mkResponse 401 (Failure (js "Unauthorized")).

Definition BEARER : jsstring := Eval cbv in js "Bearer ".

(** [throw new Error(...)] of a required variable that is missing. *)
Definition required (var : string) (v : option jsstring) : M jsstring :=
  match v with
  | Some (c :: s) => ret (c :: s)
  | _ => throw (Error (js var ++ js " environment variable is required"))
  end.

(** The block of [POST] under [try]. *)
Definition POST_try (pf : platform) (env : environment) (req : request)
  : M response :=
  match SYNC_SECRET_KEY env with
  | Some (k :: key) =>
      match authorization req with
      | Some (a :: auth) =>
          let authHeader := a :: auth in
          if negb (startsWith BEARER authHeader) then ret UNAUTHORIZED
          else
            let token := substring 7 authHeader in
            if negb (str_eqb token (k :: key)) then ret UNAUTHORIZED
            else
              sheetId <<- required "GOOGLE_SHEET_ID" (GOOGLE_SHEET_ID env) ;;
              url <<- required "NEXT_PUBLIC_SUPABASE_URL"
                        (NEXT_PUBLIC_SUPABASE_URL env) ;;
              key <<- required "SUPABASE_SERVICE_ROLE_KEY"
                        (SUPABASE_SERVICE_ROLE_KEY env) ;;
              lift (createClient pf url key) ;;;
              lift (initializeSheetsAPI pf env) ;;;
              read <<- readSheetData ;;
              let '(rows, hyperlinks) := read in
              products <<- lift (snd (processProducts rows hyperlinks)) ;;
              deleteAllProducts ;;;
              insertProducts products ;;;
              ret (mkResponse 200 (Success (length products)))
      | _ => ret UNAUTHORIZED
      end
  | _ => ret (mkResponse 500 (Failure (js "Server configuration error")))
  end.

(** [POST]: the [catch] clause turns an exception into a 500 answer. *)
Definition POST (pf : platform) (env : environment) (req : request)
    (w : world) : response * world :=
  match POST_try pf env req w with
  | (Ok r, w') => (r, w')
  | (Throw e, w') => (mkResponse 500 (Failure (exn_message e)), w')
  end.

End Route.

(** ** The command-line script: its own [processProducts] *)

Module Script.

Definition extractUrl (hyperlinks : overlay)
    (rowIndex colIndex : nat) (cellValue : value) : option jsstring :=
  let hyperlinkKey := hyperlinkKey rowIndex colIndex in
  match hyperlinks !! hyperlinkKey with
  | Some (c :: link) => Some (c :: link)
  | _ =>
      match truthy cellValue with
      | false => None
      | true =>
          let str := trim (ToString cellValue) in
          match str with
          | [] => None
          | _ =>
              if startsWith HTTP str || startsWith HTTPS str then Some str
              else
                match url_match str with
                | Some urlMatch => Some urlMatch
                | None => None
                end
          end
      end
  end.

Definition parsePrice (priceValue : value) : option number :=
  match priceValue with
  | Undefined | Null | Str [] => None
  | Num x => Some x
  | _ =>
      let priceStr := trim (ToString priceValue) in
      match priceStr with
      | [] => None
      | _ =>
          let cleanedPrice :=
            trim (remove_all is_comma
                    (remove_all is_ws (remove_all is_currency priceStr))) in
          let parsedPrice := parseFloat cleanedPrice in
          if negb (isNaN parsedPrice) && isFinite parsedPrice
          then Some parsedPrice
          else None
      end
  end.

Definition parseStock (v : value) : number :=
  let n := parseInt (ToString v) in
  if number_truthy n then n else Finite false 0 0.

Definition map_callback (hyperlinks : overlay) (r : row) (index : nat)
  : result (option product) :=
  name <- trim_or_null "row[0]?.trim" (cell r 0) ;;
  brand <- trim_or_null "row[1]?.trim" (cell r 1) ;;
  let stock := parseStock (cell r 4) in
  let price := parsePrice (cell r 5) in
  let image_url_1 := extractUrl hyperlinks index 6 (cell r 6) in
  let image_url_2 := extractUrl hyperlinks index 7 (cell r 7) in
  match name with
  | None => Ok None
  | Some name =>
      if le_zero stock then Ok None
      else Ok (Some (mkProduct name brand stock price image_url_1 image_url_2))
  end.

(** [x || text] inside a template literal. *)
Definition or_text (x : option jsstring) (text : string) : jsstring :=
  match x with
  | Some (c :: s) => c :: s
  | _ => js text
  end.

(** The debugging block: the first product and the raw image cells of the
    first row. *)
Definition sample_lines (rows : list row) (products : list product)
  : list jsstring :=
  match products with
  | [] => []
  | sample :: _ =>
      [ [10] ++ js "   Sample parsed product (first one):";
        js "   - Name: " ++ name sample;
        js "   - Brand: " ++ or_text (brand sample) "(null)";
        js "   - Stock: " ++ number_to_string (stock sample);
        js "   - Price: " ++
          match price sample with
          | Some p => number_to_string p
          | None => js "(null)"
          end;
        js "   - Image 1: " ++ or_text (image_url_1 sample) "(null)";
        js "   - Image 2: " ++ or_text (image_url_2 sample) "(null)" ]
      ++
      match rows with
      | [] => []
      | first :: _ =>
          let raw (i : nat) :=
            if truthy (cell first i) then ToString (cell first i)
            else js "(empty)" in
          [ js "   - Raw column G (index 6): " ++ raw 6%nat;
            js "   - Raw column H (index 7): " ++ raw 7%nat ]
      end
  end.

Definition processProducts (rows : list row) (hyperlinks : overlay)
  : list jsstring * result (list product) :=
  match map_indexed (map_callback hyperlinks) 0 rows with
  | Throw e => ([LINE_PROCESSING], Throw e)
  | Ok mapped =>
      let products := filter_non_null mapped in
      ([LINE_PROCESSING; line_filtered (length products)]
         ++ sample_lines rows products,
       Ok products)
  end.

(** The rest of the script. Its functions are textual copies of the
    endpoint's, reading the configuration from module-level constants. *)

Definition initializeSheetsAPI (pf : platform) (env : environment)
  : result unit :=
  credentials <-
    match GOOGLE_CREDENTIALS_JSON env, GOOGLE_CREDENTIALS_PATH env with
    | Some (c :: s), _ =>
        match base64_json_parse pf (c :: s) with
        | Ok cred => Ok cred
        | Throw e =>
            Throw (Error (js "Failed to parse GOOGLE_CREDENTIALS_JSON: "
                            ++ exn_message e))
        end
    | _, Some (c :: s) =>
        let credentialsPath := path_resolve pf (c :: s) in
        if negb (existsSync pf credentialsPath) then
          Throw (Error (js "Credentials file not found at: "
                          ++ credentialsPath))
        else read_json_file pf credentialsPath
    | _, _ =>
        Throw (Error (js "No credentials provided. Set either GOOGLE_CREDENTIALS_JSON or GOOGLE_CREDENTIALS_PATH"))
    end ;;
  getClient pf credentials.

Fixpoint scan_cells (rowIndex colIndex : nat) (cells : list CellData)
    (hyperlinks : overlay) : overlay :=
  match cells with
  | [] => hyperlinks
  | c :: cells' =>
      scan_cells rowIndex (S colIndex) cells'
        (match hyperlink c with
         | Some (x :: link) =>
             if (colIndex =? 6)%nat || (colIndex =? 7)%nat
             then <[hyperlinkKey rowIndex colIndex := x :: link]> hyperlinks
             else hyperlinks
         | _ => hyperlinks
         end)
  end.

Fixpoint scan_rows (rowIndex : nat) (rws : list RowData)
    (hyperlinks : overlay) : overlay :=
  match rws with
  | [] => hyperlinks
  | r :: rws' =>
      scan_rows (S rowIndex) rws'
        (match values r with
         | Some cells => scan_cells rowIndex 0 cells hyperlinks
         | None => hyperlinks
         end)
  end.

Definition grid_hyperlinks (sp : Spreadsheet) : overlay :=
  match sheets sp with
  | Some (sheet0 :: _) =>
      match data sheet0 with
      | Some (gridData :: _) =>
          match rowData gridData with
          | Some rws => scan_rows 0 rws ∅
          | None => ∅
          end
      | _ => ∅
      end
  | _ => ∅
  end.

Definition readSheetData : M (list row * overlay) :=
  valuesResponse <<- values_get ;;
  spreadsheetResponse <<- spreadsheets_get ;;
  let rows := default [] valuesResponse in
  ret (rows, grid_hyperlinks spreadsheetResponse).

Definition deleteAllProducts : M unit :=
  fetched <<- db_select ;;
  match fetched with
  | (_, Some fetchError) =>
      throw (Error (js "Failed to fetch products: " ++ fetchError))
  | (None, None) => ret tt
  | (Some [], None) => ret tt
  | (Some products, None) =>
      error <<- db_delete products ;;
      match error with
      | Some m => throw (Error (js "Failed to delete products: " ++ m))
      | None => ret tt
      end
  end.

Definition batchSize : nat := 100.

Definition iterations (len : nat) : nat := (len + (batchSize - 1)) / batchSize.

(** The script chains [.select()] to the insert; the rows it returns are
    not used. *)
Fixpoint insert_from (n i : nat) (products : list product) : M unit :=
  match n with
  | O => ret tt
  | S n' =>
      let batch := take batchSize (drop i products) in
      error <<- db_insert batch ;;
      match error with
      | Some m =>
          throw (Error (js "Failed to insert products batch "
                          ++ digits_of_nat (i / batchSize + 1)
                          ++ js ": " ++ m))
      | None => insert_from n' (i + batchSize) products
      end
  end.

Definition insertProducts (products : list product) : M unit :=
  match products with
  | [] => ret tt
  | _ => insert_from (iterations (length products)) 0 products
  end.

(** The body of [sync] under [try]. *)
Definition sync_try (pf : platform) (env : environment) : M unit :=
  lift (initializeSheetsAPI pf env) ;;;
  read <<- readSheetData ;;
  let '(rows, hyperlinks) := read in
  products <<- lift (snd (processProducts rows hyperlinks)) ;;
  deleteAllProducts ;;;
  insertProducts products.

(** [sync]: the [catch] clause ends the process with [process.exit(1)];
    otherwise the process ends with exit code 0 once [sync] is done. *)
Definition sync (pf : platform) (env : environment) (w : world)
  : nat * world :=
  match sync_try pf env w with
  | (Ok _, w') => (0%nat, w')
  | (Throw _, w') => (1%nat, w')
  end.

(** The checks at the top of the module, then the creation of the database
    client. *)
Definition module_init (pf : platform) (env : environment) : result unit :=
  if negb (env_truthy (GOOGLE_SHEET_ID env)) then
    Throw (Error (js "GOOGLE_SHEET_ID environment variable is required"))
  else if negb (env_truthy (GOOGLE_CREDENTIALS_JSON env))
          && negb (env_truthy (GOOGLE_CREDENTIALS_PATH env)) then
    Throw (Error (js "Either GOOGLE_CREDENTIALS_JSON or GOOGLE_CREDENTIALS_PATH environment variable is required"))
  else
    match NEXT_PUBLIC_SUPABASE_URL env, SUPABASE_SERVICE_ROLE_KEY env with
    | Some (u :: url), Some (k :: key) => createClient pf (u :: url) (k :: key)
    | Some (_ :: _), _ =>
        Throw (Error (js "SUPABASE_SERVICE_ROLE_KEY environment variable is required"))
    | _, _ =>
        Throw (Error (js "NEXT_PUBLIC_SUPABASE_URL environment variable is required"))
    end.

(** Running the script: an exception that leaves the module uncaught ends
    the process with exit code 1 before [sync] is called. *)
Definition main (pf : platform) (env : environment) (w : world)
  : nat * world :=
  match module_init pf env with
  | Throw _ => (1%nat, w)
  | Ok _ => sync pf env w
  end.

End Script.

(** ** Vocabulary of the statements *)

(** A name cell that yields no name: absent, [null], or a string of white
    space only (the empty string included). *)
Definition blank (v : value) : Prop :=
  v = Undefined \/ v = Null
  \/ exists s, v = Str s /\ Forall (fun c => is_ws c = true) s.

(** The records kept from [rows], the first row having index [index]. *)
Definition kept (hyperlinks : overlay) (index : nat) (rows : list row)
  : result (list product) :=
  mapped <- map_indexed (Route.map_callback hyperlinks) index rows ;;
  Ok (filter_non_null mapped).

(** [u] starts with the http or the https scheme. *)
Definition has_http_scheme (u : jsstring) : bool :=
  startsWith HTTP u || startsWith HTTPS u.

(** ** Sample inputs *)

Definition text (s : string) : value := Str (js s).

(** Three rows: a vase in stock, a row without a name, a plate out of
    stock. *)
Definition sample_rows : list row :=
  [ [text "Vase A"; text ""; text ""; text ""; text "5";
     Str ([8381] ++ js "1,200.00")];
    [text ""; text ""; text ""; text ""; text "3"];
    [text "Plate B"; text ""; text ""; text ""; text "0"] ].

Definition vase_a : product :=
  mkProduct (js "Vase A") None (Finite false 5 0) (Some (Finite false 12 2))
            None None.

(** The three deletions of the price block, without its [trim] calls. *)
Definition strip_price (s : jsstring) : jsstring :=
  remove_all is_comma (remove_all is_ws (remove_all is_currency s)).

(** A parsed number is a price only when it is finite. *)
Definition finite_or_absent (x : number) : option number :=
  if isFinite x then Some x else None.

(** The ruble-formatted price of the documentation. *)
Definition RUBLE_27000 : jsstring := [8381] ++ js "27,000.00".

(** A row whose price text carries a minus sign. *)
Definition negative_rows : list row :=
  [ [text "Vase A"; text ""; text ""; text ""; text "5"; text "-5"] ].

Definition negative_vase : product :=
  mkProduct (js "Vase A") None (Finite false 5 0) (Some (Finite true 5 0))
            None None.

(** [u] is a scheme, [http://] or [https://], followed by at least one code
    unit, none of which is a stop. *)
Definition url_text (u : jsstring) : Prop :=
  exists scheme body,
    (scheme = HTTP \/ scheme = HTTPS)
    /\ u = scheme ++ body
    /\ body <> []
    /\ Forall (fun c => is_url_stop c = false) body.

(** The text ends, or goes on with a stop. *)
Definition stops (post : jsstring) : Prop :=
  head post = None \/ exists c, head post = Some c /\ is_url_stop c = true.

(** A URL text begins at the first code unit of [t]. *)
Definition starts_url (t : jsstring) : Prop :=
  exists v rest, t = v ++ rest /\ url_text v.

(** [u] is the first URL embedded in [s]: it sits in [s], runs up to the
    next stop, and no URL text begins before it. *)
Definition first_embedded_url (s u : jsstring) : Prop :=
  exists pre post,
    s = pre ++ u ++ post
    /\ url_text u
    /\ stops post
    /\ forall k, (k < length pre)%nat -> ~ starts_url (drop k s).

(** An overlay whose entry for row 0, column 6 is the empty string. *)
Definition empty_link_overlay : overlay := <[hyperlinkKey 0 6 := []]> ∅.

(** An overlay whose entry for row 0, column 6 is a mail link. *)
Definition mail_link_overlay : overlay :=
  <[hyperlinkKey 0 6 := js "mailto:shop@example.com"]> ∅.

Definition image_rows : list row :=
  [ [text "Vase A"; text ""; text ""; text ""; text "5"; text "";
     text "https://example.com/a.jpg"] ].

(** ** Vocabulary of the statements about the handler *)

(** The request carries the configured secret as a bearer token. *)
Definition authorized (env : environment) (req : request) : Prop :=
  exists secret,
    SYNC_SECRET_KEY env = Some secret /\ secret <> []
    /\ authorization req = Some (Route.BEARER ++ secret).

(** The header is missing, is not a bearer header, or carries another
    token than [secret]. *)
Definition unauthorized (secret : jsstring) (req : request) : Prop :=
  authorization req = None
  \/ exists header,
       authorization req = Some header
       /\ (startsWith Route.BEARER header = false
           \/ substring 7 header <> secret).

(** The configuration is complete and the two clients can be made. *)
Definition configured (pf : platform) (env : environment) : Prop :=
  exists sheetId url key,
    GOOGLE_SHEET_ID env = Some sheetId /\ sheetId <> []
    /\ NEXT_PUBLIC_SUPABASE_URL env = Some url /\ url <> []
    /\ SUPABASE_SERVICE_ROLE_KEY env = Some key /\ key <> []
    /\ createClient pf url key = Ok tt
    /\ Route.initializeSheetsAPI pf env = Ok tt.

(** The rows and the overlay that [readSheetData] returns in [w]. *)
Definition sheet_rows (w : world) : list row :=
  match sheet_values w with
  | Ok vs => default [] vs
  | Throw _ => []
  end.

Definition sheet_hyperlinks (w : world) : overlay :=
  match sheet_grid w with
  | Ok sp => Route.grid_hyperlinks sp
  | Throw _ => ∅
  end.

Definition readable (w : world) : Prop :=
  (exists vs, sheet_values w = Ok vs) /\ (exists sp, sheet_grid w = Ok sp).

(** The next [n] database calls succeed. *)
Definition database_accepts (n : nat) (w : world) : Prop :=
  Forall (fun e => e = None) (take n (db_errors w)).

(** The batches of [insertProducts], in the order of their insertion. *)
Definition batches (products : list product) : list (list product) :=
  map (fun k => take Route.batchSize (drop (k * Route.batchSize) products))
      (seq 0 (Route.iterations (length products))).

(** The calls of a complete run, given the table found and the records
    written. *)
Definition run_calls (found : list (N * product)) (products : list product)
  : list call :=
  [SheetsValuesGet; SheetsGet; DbSelect]
  ++ match found with
     | [] => []
     | _ => [DbDelete (map fst found)]
     end
  ++ map DbInsert (batches products).

(** ** A sample deployment *)

Definition sample_platform : platform :=
  mkPlatform unit (fun _ => Ok tt) (fun p => p) (fun _ => true)
             (fun _ => Ok tt) (fun _ => Ok tt) (fun _ _ => Ok tt).

Definition sample_env : environment :=
  mkEnv (Some (js "s3cret")) (Some (js "sheet-1"))
        (Some (js "https://db.example.com")) (Some (js "service-key"))
        (Some (js "e30=")) None.

Definition sample_request : request :=
  mkRequest (Some (js "Bearer s3cret")).

Definition wrong_request : request :=
  mkRequest (Some (js "Bearer guess")).

Definition old_plate : product :=
  mkProduct (js "Old plate") None (Finite false 1 0) None None None.

(** A grid whose first row links column G to an image. *)
Definition sample_grid : Spreadsheet :=
  mkSpreadsheet
    (Some [mkSheet (Some [mkGrid (Some
       [mkRow (Some (repeat (mkCell None) 6
                       ++ [mkCell (Some (js "https://cdn.example.com/a.jpg"))]))])])]).

(** The sheet holds the three sample rows, the table one old record. *)
Definition sample_world : world :=
  mkWorld (Ok (Some sample_rows)) (Ok sample_grid)
          [(7, old_plate)] 8 [] [].

Definition linked_vase : product :=
  mkProduct (js "Vase A") None (Finite false 5 0) (Some (Finite false 12 2))
            (Some (js "https://cdn.example.com/a.jpg")) None.

(** The sheet holds no row at all. *)
Definition empty_sheet_world : world :=
  mkWorld (Ok None) (Ok (mkSpreadsheet None)) [(7, old_plate)] 8 [] [].

(** No entry of the overlay is the empty string. *)
Definition entries_nonempty (h : overlay) : Prop :=
  forall k link, h !! k = Some link -> link <> [].

(** A cell on which [?.trim()] can be called: absent, [null] or a string.
    The spreadsheet service returns such cells under its default
    rendering. *)
Definition trimmable (v : value) : Prop :=
  match v with
  | Undefined | Null | Str _ => True
  | Bool _ | Num _ => False
  end.

(** ** Vocabulary of the further properties *)

(** The rows of the grid that the reader scans: the [rowData] of the first
    grid of the first sheet, when all three are there. *)
Definition scanned_rows (sp : Spreadsheet) : list RowData :=
  match sheets sp with
  | Some (sheet0 :: _) =>
      match data sheet0 with
      | Some (gridData :: _) => default [] (rowData gridData)
      | _ => []
      end
  | _ => []
  end.

(** The non-empty link of the cell in column [c] of a grid row, if any. *)
Definition cell_link (cells : list CellData) (c : nat) : option jsstring :=
  match cells !! c with
  | Some cl =>
      match hyperlink cl with
      | Some (x :: link) => Some (x :: link)
      | _ => None
      end
  | None => None
  end.

(** The non-empty link of the grid cell in row [i], column [c], if any. *)
Definition grid_link (rws : list RowData) (i c : nat) : option jsstring :=
  match rws !! i with
  | Some r =>
      match values r with
      | Some cells => cell_link cells c
      | None => None
      end
  | None => None
  end.

Definition image_column (c : nat) : bool := (c =? 6)%nat || (c =? 7)%nat.

(** Every entry of the overlay is the link of a cell of [rws] in an image
    column, stored under the key of that cell. *)
Definition entries_from (rws : list RowData) (h : overlay) : Prop :=
  forall k link, h !! k = Some link ->
    exists i c, k = hyperlinkKey i c /\ image_column c = true
                /\ grid_link rws i c = Some link.

(** Every key of the overlay is the key of some cell. *)
Definition keys_shaped (h : overlay) : Prop :=
  forall k link, h !! k = Some link -> exists i c, k = hyperlinkKey i c.

(** No database call of the run will fail. *)
Definition database_healthy (w : world) : Prop :=
  Forall (fun e => e = None) (db_errors w).

(** A call is an insert. *)
Definition is_insert (c : call) : bool :=
  match c with
  | DbInsert _ => true
  | _ => false
  end.

(** A batch larger than one chunk: 150 copies of a record. *)
Definition many_vases : list product := repeat vase_a 150.

(** A world whose database refuses the second call. *)
Definition second_call_fails : world :=
  mkWorld (Ok None) (Ok (mkSpreadsheet None)) [] 1
          [None; Some (js "payload too large")] [].

(** The answer to a run that failed with [e]. *)
Definition failed (e : exn) : response :=
  mkResponse 500 (Failure (exn_message e)).

(** The world once both reads are made. *)
Definition after_reads (w : world) : world :=
  log SheetsGet (log SheetsValuesGet w).

(** An environment without the sheet identifier. *)
Definition no_sheet_env : environment :=
  mkEnv (Some (js "s3cret")) None
        (Some (js "https://db.example.com")) (Some (js "service-key"))
        (Some (js "e30=")) None.

(** A world whose sheet holds a number in the name column. *)
Definition numeric_name_world : world :=
  mkWorld (Ok (Some [[Num (Finite false 42 0)]])) (Ok (mkSpreadsheet None))
          [(7, old_plate)] 8 [] [].

(** The fields of a record that are read from the cell values alone. *)
Definition core (p : product)
  : jsstring * option jsstring * number * option number :=
  (name p, brand p, stock p, price p).

(** The outcome of a computation, with its value mapped. *)
Definition result_map {A B} (f : A -> B) (r : result A) : result B :=
  match r with
  | Ok a => Ok (f a)
  | Throw e => Throw e
  end.

(** A whole number greater than zero, or the positive infinity that
    [parseInt] gives for a digit string beyond the range of numbers. *)
Definition positive_whole (x : number) : Prop :=
  x = Infinity false
  \/ exists m e, x = Finite false m e /\ 0 < m /\ (0 <= e)%Z.

(** A row with a padded brand and a fractional stock text. *)
Definition branded_rows : list row :=
  [ [text " Vase A "; text "  Lalique "; text ""; text ""; text "12.9"] ].

(** A platform whose credentials file exists and whose inline value cannot
    be parsed. *)
Definition file_platform : platform :=
  mkPlatform unit (fun _ => Throw (Error (js "Unexpected token")))
             (fun p => js "/app/" ++ p) (fun _ => true)
             (fun _ => Ok tt) (fun _ => Ok tt) (fun _ _ => Ok tt).

(** An environment that names the credentials file only. *)
Definition file_env : environment :=
  mkEnv (Some (js "s3cret")) (Some (js "sheet-1"))
        (Some (js "https://db.example.com")) (Some (js "service-key"))
        None (Some (js "credentials.json")).

(** An environment with both sources of credentials. *)
Definition both_env : environment :=
  mkEnv (Some (js "s3cret")) (Some (js "sheet-1"))
        (Some (js "https://db.example.com")) (Some (js "service-key"))
        (Some (js "not base64")) (Some (js "credentials.json")).

(** Three rows with image cells; the second has no name. The overlay has a
    link for each row, none of them an http link. *)
Definition gallery_rows : list row :=
  [ [text "Vase A"; text ""; text ""; text ""; text "5"; text "";
     text "https://example.com/a.jpg"];
    [text ""; text ""; text ""; text ""; text "3"; text "";
     text "https://example.com/none.jpg"];
    [text "Plate B"; text ""; text ""; text ""; text "2"; text "";
     text "see https://example.com/b.jpg"; text "no picture"] ].

Definition gallery_overlay : overlay :=
  <[hyperlinkKey 0 6 := js "mailto:shop@example.com"]>
    (<[hyperlinkKey 1 6 := js "ftp://files.example.com/none.jpg"]>
       (<[hyperlinkKey 2 7 := js "ftp://files.example.com/b.jpg"]> ∅)).

Definition gallery_products : list product :=
  [ mkProduct (js "Vase A") None (Finite false 5 0) None
      (Some (js "mailto:shop@example.com")) None;
    mkProduct (js "Plate B") None (Finite false 2 0) None
      (Some (js "https://example.com/b.jpg"))
      (Some (js "ftp://files.example.com/b.jpg")) ].

(** * Properties *)

(** ** The runtime on examples *)

Section RuntimeExamples.

Example parseInt_plain : parseInt (js "5") = Finite false 5 0.
Proof. reflexivity. Qed.

Example parseInt_prefix : parseInt (js " 12px") = Finite false 12 0.
Proof. reflexivity. Qed.

Example parseInt_hex : parseInt (js "0x1F") = Finite false 31 0.
Proof. reflexivity. Qed.

Example parseInt_nan : parseInt (js "abc") = NaN.
Proof. reflexivity. Qed.

Example parseInt_neg_zero : parseInt (js "-0") = Finite true 0 0.
Proof. reflexivity. Qed.

Example parseFloat_fraction : parseFloat (js "27000.00") = Finite false 27 3.
Proof. reflexivity. Qed.

Example parseFloat_exponent : parseFloat (js "1.5e3x") = Finite false 15 2.
Proof. reflexivity. Qed.

Example parseFloat_dot : parseFloat (js ".") = NaN.
Proof. reflexivity. Qed.

Example parseFloat_overflow : parseFloat (js "1e309") = Infinity false.
Proof. vm_compute. reflexivity. Qed.

Example parseFloat_largest :
  parseFloat (js "1.7976931348623157e308")
  = Finite false 17976931348623157 292.
Proof. vm_compute. reflexivity. Qed.

Example parseFloat_underflow : parseFloat (js "-1e-400") = Finite true 0 0.
Proof. vm_compute. reflexivity. Qed.

Example toString_int :
  number_to_string (Finite false 27 3) = js "27000".
Proof. reflexivity. Qed.

Example toString_fraction :
  number_to_string (Finite true 125 (-2)) = js "-1.25".
Proof. reflexivity. Qed.

Example toString_small :
  number_to_string (Finite false 5 (-7)) = js "5e-7".
Proof. reflexivity. Qed.

Example toString_large :
  number_to_string (Finite false 12 20) = js "1.2e+21".
Proof. reflexivity. Qed.

Example trim_both : trim (js "  Vase A ") = js "Vase A".
Proof. reflexivity. Qed.

End RuntimeExamples.

(** ** Facts about the runtime functions *)

Section StringFacts.

Variable f : N -> bool.

Lemma takeWhile_dropWhile (s : jsstring) :
  takeWhile f s ++ dropWhile f s = s.
Proof.
  induction s as [|c s IH]; simpl; [reflexivity|].
  destruct (f c); simpl; [now rewrite IH | reflexivity].
Qed.

Lemma takeWhile_all (s : jsstring) :
  Forall (fun c => f c = true) (takeWhile f s).
Proof.
  induction s as [|c s IH]; simpl; [constructor|].
  destruct (f c) eqn:E; constructor; assumption.
Qed.

Lemma dropWhile_all (s : jsstring) :
  Forall (fun c => f c = true) s -> dropWhile f s = [].
Proof.
  induction 1 as [|c s Hc _ IH]; simpl; [reflexivity|].
  now rewrite Hc.
Qed.

Lemma dropWhile_nil_all (s : jsstring) :
  dropWhile f s = [] -> Forall (fun c => f c = true) s.
Proof.
  induction s as [|c s IH]; simpl; [constructor|].
  destruct (f c) eqn:E; [|discriminate].
  intros H. constructor; auto.
Qed.

Lemma dropWhile_head (s : jsstring) (c : N) (t : jsstring) :
  dropWhile f s = c :: t -> f c = false.
Proof.
  induction s as [|d s IH]; simpl; [discriminate|].
  destruct (f d) eqn:E; [exact IH|].
  intros H; injection H as -> _. exact E.
Qed.

Lemma dropWhile_stable (s : jsstring) :
  head s = None \/ (exists c, head s = Some c /\ f c = false) ->
  dropWhile f s = s.
Proof.
  destruct s as [|d s]; simpl; [reflexivity|].
  intros [H|(c & H & Hc)]; [discriminate|].
  injection H as ->. now rewrite Hc.
Qed.

Lemma dropWhile_none (s : jsstring) :
  Forall (fun c => f c = false) s -> dropWhile f s = s.
Proof.
  destruct 1 as [|c s Hc _]; simpl; [reflexivity|]. now rewrite Hc.
Qed.

End StringFacts.

Lemma trimStart_head (s : jsstring) :
  head (trimStart s) = None
  \/ exists c, head (trimStart s) = Some c /\ is_ws c = false.
Proof.
  unfold trimStart. destruct (dropWhile is_ws s) as [|c t] eqn:E.
  - now left.
  - right. exists c. split; [reflexivity|]. eapply dropWhile_head; eauto.
Qed.

(** [trim] leaves no white space at either end. *)
Lemma trim_ends (s : jsstring) :
  trim s = []
  \/ exists c d, head (trim s) = Some c /\ head (rev (trim s)) = Some d
                 /\ is_ws c = false /\ is_ws d = false.
Proof.
  unfold trim, trimEnd.
  set (t := trimStart s).
  destruct (dropWhile is_ws (rev t)) as [|d u] eqn:E; [now left|].
  right.
  assert (Hd : is_ws d = false) by (eapply dropWhile_head; eauto).
  pose proof (takeWhile_dropWhile is_ws (rev t)) as Hsplit.
  rewrite E in Hsplit.
  assert (Ht : t = rev (d :: u) ++ rev (takeWhile is_ws (rev t))).
  { rewrite <- rev_app_distr, Hsplit. now rewrite rev_involutive. }
  destruct (rev (d :: u)) as [|c v] eqn:Ev.
  { apply (f_equal (@length N)) in Ev. rewrite length_rev in Ev. discriminate. }
  exists c, d. repeat split.
  - rewrite <- Ev, rev_involutive. reflexivity.
  - destruct (trimStart_head s) as [H|(c' & H & Hc')]; fold t in H;
      rewrite Ht in H; simpl in H; [discriminate|].
    injection H as ->. exact Hc'.
  - exact Hd.
Qed.

Lemma trim_idempotent (s : jsstring) : trim (trim s) = trim s.
Proof.
  destruct (trim_ends s) as [H|(c & d & Hc & Hd & Wc & Wd)].
  - rewrite H. reflexivity.
  - set (u := trim s) in *.
    unfold trim at 1, trimEnd, trimStart.
    rewrite (dropWhile_stable is_ws u) by (right; eauto).
    rewrite (dropWhile_stable is_ws (rev u)) by (right; eauto).
    apply rev_involutive.
Qed.

Lemma trim_blank (s : jsstring) :
  Forall (fun c => is_ws c = true) s -> trim s = [].
Proof.
  intros H. unfold trim, trimStart. now rewrite dropWhile_all.
Qed.

Lemma trim_nil_blank (s : jsstring) :
  trim s = [] -> Forall (fun c => is_ws c = true) s.
Proof.
  unfold trim, trimEnd. intros H.
  apply (f_equal (@rev N)) in H. rewrite rev_involutive in H. simpl in H.
  apply dropWhile_nil_all in H.
  apply dropWhile_nil_all.
  destruct (trimStart_head s) as [E|(c & E & Hc)].
  - unfold trimStart in E.
    destruct (dropWhile is_ws s); [reflexivity | discriminate].
  - exfalso. unfold trimStart in *.
    destruct (dropWhile is_ws s) as [|x t]; [discriminate|].
    injection E as ->.
    rewrite Forall_forall in H. specialize (H c).
    rewrite Hc in H. assert (false = true); [|discriminate].
    apply H. apply list_elem_of_In. apply (proj1 (in_rev _ _)). now left.
Qed.

(** ** The row callback and [map] *)

Section MapIndexed.

Context {A B : Type} (f : A -> nat -> result B).

Lemma map_indexed_app (i : nat) (l1 l2 : list A) :
  map_indexed f i (l1 ++ l2) =
  (bs1 <- map_indexed f i l1 ;;
   bs2 <- map_indexed f (i + length l1) l2 ;;
   Ok (bs1 ++ bs2)).
Proof.
  revert i. induction l1 as [|a l1 IH]; intros i; simpl.
  - rewrite Nat.add_0_r. destruct (map_indexed f i l2); reflexivity.
  - destruct (f a i) as [b|e]; simpl; [|reflexivity].
    rewrite IH. replace (S i + length l1)%nat with (i + S (length l1))%nat by lia.
    destruct (map_indexed f (S i) l1) as [bs1|e]; simpl; [|reflexivity].
    destruct (map_indexed f (i + S (length l1)) l2); reflexivity.
Qed.

Lemma map_indexed_lookup (i : nat) (l : list A) (bs : list B) :
  map_indexed f i l = Ok bs ->
  length bs = length l
  /\ forall k a, l !! k = Some a ->
       exists b, bs !! k = Some b /\ f a (i + k)%nat = Ok b.
Proof.
  revert i bs. induction l as [|a l IH]; intros i bs; simpl.
  - intros [= <-]. split; [reflexivity|]. intros k a H. discriminate.
  - destruct (f a i) as [b|e] eqn:Ea; simpl; [|discriminate].
    destruct (map_indexed f (S i) l) as [bs'|e] eqn:El; simpl; [|discriminate].
    intros [= <-]. destruct (IH _ _ El) as [Hlen Hk].
    split; [simpl; now rewrite Hlen|].
    intros [|k] a' H; simpl in *.
    + injection H as <-. exists b. now rewrite Nat.add_0_r.
    + destruct (Hk k a' H) as (b' & Hb & Hf). exists b'. split; [exact Hb|].
      now replace (i + S k)%nat with (S i + k)%nat by lia.
Qed.

End MapIndexed.

Lemma parseStock_sign (v : value) :
  gt_zero (Route.parseStock v) = negb (le_zero (Route.parseStock v)).
Proof.
  unfold Route.parseStock.
  destruct (parseInt (ToString v)) as [|neg|neg m e]; simpl; try reflexivity.
  destruct (m =? 0) eqn:E; simpl; [reflexivity|]. rewrite E. simpl.
  now destruct neg.
Qed.

(** What a kept row looks like. *)
Lemma map_callback_some (h : overlay) (r : row) (i : nat) (p : product) :
  Route.map_callback h r i = Ok (Some p) ->
  exists s,
    cell r 0 = Str s /\ name p = trim s /\ name p <> []
    /\ stock p = Route.parseStock (cell r 4)
    /\ gt_zero (stock p) = true
    /\ price p = Route.parsePrice (cell r 5)
    /\ image_url_1 p = Route.extractUrl h i 6 (cell r 6)
    /\ image_url_2 p = Route.extractUrl h i 7 (cell r 7).
Proof.
  unfold Route.map_callback.
  destruct (cell r 0) as [| |b|x|s]; simpl; try discriminate.
  - destruct (trim_or_null _ (cell r 1)); simpl; discriminate.
  - destruct (trim_or_null _ (cell r 1)); simpl; discriminate.
  - destruct (trim s) as [|c t] eqn:Et; simpl.
    + destruct (trim_or_null _ (cell r 1)); simpl; discriminate.
    + destruct (trim_or_null _ (cell r 1)) as [br|e]; simpl; [|discriminate].
      destruct (le_zero (Route.parseStock (cell r 4))) eqn:Es; [discriminate|].
      intros [= <-]. exists s. simpl. rewrite Et.
      repeat split; try reflexivity; try discriminate.
      rewrite parseStock_sign, Es. reflexivity.
Qed.

(** A row without a name, or without stock, is mapped to [null]. *)
Lemma map_callback_none (h : overlay) (r : row) (i : nat) (o : option product) :
  blank (cell r 0) \/ le_zero (Route.parseStock (cell r 4)) = true ->
  Route.map_callback h r i = Ok o -> o = None.
Proof.
  unfold Route.map_callback. intros Hbad.
  destruct (trim_or_null _ (cell r 0)) as [nm|e] eqn:En; simpl; [|discriminate].
  destruct (trim_or_null _ (cell r 1)) as [br|e]; simpl; [|discriminate].
  destruct nm as [nm|]; [|now intros [= <-]].
  destruct (le_zero (Route.parseStock (cell r 4))) eqn:Es; [now intros [= <-]|].
  exfalso. destruct Hbad as [Hb|Hb]; [|discriminate].
  destruct Hb as [Hb|[Hb|(s & Hb & Hws)]]; rewrite Hb in En; simpl in En;
    try discriminate.
  rewrite (trim_blank s Hws) in En. discriminate.
Qed.

Lemma filter_non_null_app {A} (l1 l2 : list (option A)) :
  filter_non_null (l1 ++ l2) = filter_non_null l1 ++ filter_non_null l2.
Proof. unfold filter_non_null. apply omap_app. Qed.

(** Every returned record is the callback's result for some row. *)
Lemma kept_origin (h : overlay) (i : nat) (rows : list row)
    (products : list product) (p : product) :
  kept h i rows = Ok products -> p ∈ products ->
  exists k r, rows !! k = Some r
              /\ Route.map_callback h r (i + k)%nat = Ok (Some p).
Proof.
  unfold kept. destruct (map_indexed _ i rows) as [mapped|e] eqn:E; simpl;
    [|discriminate].
  intros [= <-] Hp. unfold filter_non_null in Hp.
  apply list_elem_of_omap in Hp. destruct Hp as (o & Ho & Hid). simpl in Hid.
  subst o. apply list_elem_of_lookup in Ho. destruct Ho as [k Hk].
  destruct (map_indexed_lookup _ _ _ _ E) as [Hlen Hrows].
  assert (Hlt : (k < length rows)%nat).
  { rewrite <- Hlen. eapply lookup_lt_Some; eauto. }
  destruct (lookup_lt_is_Some_2 rows k Hlt) as [r Hr].
  exists k, r. split; [exact Hr|].
  destruct (Hrows k r Hr) as (b & Hb & Hf). congruence.
Qed.

Lemma processProducts_kept (rows : list row) (h : overlay) :
  snd (Route.processProducts rows h) = kept h 0 rows.
Proof.
  unfold Route.processProducts, kept.
  destruct (map_indexed _ 0%nat rows); reflexivity.
Qed.

Lemma radix_prefix_decimal (c : N) (t : jsstring) :
  c <> 48 -> radix_prefix (c :: t) = (10, c :: t).
Proof.
  intros Hc. unfold radix_prefix.
  destruct c as [|p]; [reflexivity|].
  do 6 (destruct p as [p|p|]; try reflexivity). congruence.
Qed.

Lemma parseInt_non_numeric (s : jsstring) :
  head (snd (split_sign (trimStart s))) = None
  \/ (exists c, head (snd (split_sign (trimStart s))) = Some c
                /\ is_digit c = false) ->
  parseInt s = NaN.
Proof.
  unfold parseInt. destruct (split_sign (trimStart s)) as [neg t]. simpl.
  intros [H|(c & H & Hc)].
  - destruct t; [reflexivity | discriminate].
  - destruct t as [|d t]; [discriminate|]. injection H as ->.
    rewrite radix_prefix_decimal by (intros ->; discriminate).
    simpl. rewrite Hc. reflexivity.
Qed.

(** C1. Every record returned by the normalizer has a non-empty, trimmed
    name and a stock greater than zero; a row whose column A is absent,
    empty or white space only, or whose column E coerces to a number less
    than or equal to zero, contributes nothing to the output (the output is
    what the rows before it and the rows after it contribute); an absent
    column E and a non-numeric one coerce to zero. *)
Theorem normalizer_keeps_named_stocked_rows
    (rows : list row) (h : overlay) (products : list product) :
  snd (Route.processProducts rows h) = Ok products ->
  Forall (fun p => name p <> [] /\ trim (name p) = name p
                   /\ gt_zero (stock p) = true) products
  /\ (forall pre r post,
        rows = pre ++ r :: post ->
        blank (cell r 0) \/ le_zero (Route.parseStock (cell r 4)) = true ->
        exists before after,
          kept h 0 pre = Ok before
          /\ kept h (S (length pre)) post = Ok after
          /\ products = before ++ after)
  /\ Route.parseStock Undefined = Finite false 0 0
  /\ (forall s,
        head (snd (split_sign (trimStart s))) = None
        \/ (exists c, head (snd (split_sign (trimStart s))) = Some c
                      /\ is_digit c = false) ->
        Route.parseStock (Str s) = Finite false 0 0).
Proof.
  rewrite processProducts_kept. intros Hk. repeat split.
  - apply Forall_forall. intros p Hp.
    destruct (kept_origin _ _ _ _ _ Hk Hp) as (k & r & _ & Hcb).
    destruct (map_callback_some _ _ _ _ Hcb) as (s & _ & Hn & Hne & _ & Hs & _).
    repeat split; try assumption. rewrite Hn. apply trim_idempotent.
  - intros pre r post -> Hbad. revert Hk. unfold kept.
    rewrite map_indexed_app. simpl.
    destruct (map_indexed _ 0%nat pre) as [m1|e]; simpl; [|discriminate].
    destruct (Route.map_callback h r (length pre)) as [o|e] eqn:Er; simpl;
      [|discriminate].
    destruct (map_indexed _ (S (length pre)) post) as [m2|e]; simpl;
      [|discriminate].
    intros [= <-]. exists (filter_non_null m1), (filter_non_null m2).
    repeat split. rewrite filter_non_null_app.
    rewrite (map_callback_none _ _ _ _ Hbad Er). reflexivity.
  - intros s Hs. unfold Route.parseStock. simpl ToString.
    rewrite (parseInt_non_numeric s Hs). reflexivity.
Qed.

Lemma normalizer_keeps_named_stocked_rows_witness :
  snd (Route.processProducts sample_rows ∅) = Ok [vase_a]
  /\ Forall (fun p => name p <> [] /\ trim (name p) = name p
                      /\ gt_zero (stock p) = true) [vase_a].
Proof.
  split; [vm_compute; reflexivity|].
  apply (normalizer_keeps_named_stocked_rows sample_rows ∅ [vase_a]).
  vm_compute; reflexivity.
Defined.

Lemma kept_cons (h : overlay) (i : nat) (r : row) (rows : list row)
    (products : list product) :
  kept h i (r :: rows) = Ok products ->
  exists o rest,
    Route.map_callback h r i = Ok o
    /\ kept h (S i) rows = Ok rest
    /\ products = match o with Some p => p :: rest | None => rest end.
Proof.
  unfold kept. simpl.
  destruct (Route.map_callback h r i) as [o|e]; simpl; [|discriminate].
  destruct (map_indexed _ (S i) rows) as [m|e]; simpl; [|discriminate].
  intros [= <-]. exists o, (filter_non_null m). split_and!; reflexivity.
Qed.

(** The positions of the kept rows, in increasing order. *)
Lemma kept_positions (h : overlay) (rows : list row) :
  forall (i : nat) (products : list product),
  kept h i rows = Ok products ->
  exists idx : list nat,
    StronglySorted lt idx
    /\ Forall (fun k => i <= k)%nat idx
    /\ length idx = length products
    /\ (forall j k, idx !! j = Some k ->
          exists r p, rows !! (k - i)%nat = Some r /\ products !! j = Some p
                      /\ Route.map_callback h r k = Ok (Some p))
    /\ (forall k r, rows !! k = Some r -> (i + k)%nat ∉ idx ->
          Route.map_callback h r (i + k)%nat = Ok None).
Proof.
  induction rows as [|r rows IH]; intros i products Hk.
  - injection Hk as <-. exists []. split_and!.
    + constructor.
    + constructor.
    + reflexivity.
    + intros j k H. discriminate.
    + intros k r H. discriminate.
  - destruct (kept_cons _ _ _ _ _ Hk) as (o & rest & Hr & Hrest & ->).
    destruct (IH _ _ Hrest) as (idx & Hsort & Hlow & Hlen & Hsome & Hnone).
    assert (Hstep : forall k r', (r :: rows) !! k = Some r' -> k <> 0%nat ->
                      rows !! (k - 1)%nat = Some r'
                      /\ (i + k = S i + (k - 1))%nat).
    { intros [|k] r' H Hne; [congruence|]. simpl in *.
      rewrite Nat.sub_0_r. split; [exact H | lia]. }
    destruct o as [p|].
    + exists (i :: idx). split_and!.
      * constructor; [exact Hsort|].
        eapply Forall_impl; [exact Hlow|]. simpl. intros; lia.
      * constructor; [lia|]. eapply Forall_impl; [exact Hlow|].
        simpl. intros; lia.
      * simpl. now rewrite Hlen.
      * intros [|j] k H; simpl in H.
        -- injection H as <-. exists r, p. rewrite Nat.sub_diag. now repeat split.
        -- destruct (Hsome j k H) as (r' & p' & Hr' & Hp' & Hcb).
           assert (S i <= k)%nat.
           { rewrite Forall_forall in Hlow. apply Hlow.
             eapply list_elem_of_lookup_2; eauto. }
           exists r', p'. repeat split; try assumption.
           replace (k - i)%nat with (S (k - S i)) by lia. exact Hr'.
      * intros k r' H Hnot. destruct (decide (k = 0%nat)) as [->|Hne].
        -- exfalso. apply Hnot. rewrite Nat.add_0_r. now left.
        -- destruct (Hstep k r' H Hne) as [H' Heq]. rewrite Heq.
           apply Hnone; [exact H'|]. rewrite <- Heq. intros Hin. apply Hnot.
           now right.
    + exists idx. split_and!.
      * exact Hsort.
      * eapply Forall_impl; [exact Hlow|]. simpl. intros; lia.
      * exact Hlen.
      * intros j k H. destruct (Hsome j k H) as (r' & p' & Hr' & Hp' & Hcb).
        assert (S i <= k)%nat.
        { rewrite Forall_forall in Hlow. apply Hlow.
          eapply list_elem_of_lookup_2; eauto. }
        exists r', p'. repeat split; try assumption.
        replace (k - i)%nat with (S (k - S i)) by lia. exact Hr'.
      * intros k r' H Hnot. destruct (decide (k = 0%nat)) as [->|Hne].
        -- simpl in H. injection H as <-. rewrite Nat.add_0_r. exact Hr.
        -- destruct (Hstep k r' H Hne) as [H' Heq]. rewrite Heq.
           apply Hnone; [exact H'|]. now rewrite <- Heq.
Qed.

(** C8. The output of the normalizer lists the kept rows in the order of
    their source rows and nothing else: there is a strictly increasing
    sequence of row positions, one per output record, such that the record
    at each place is the callback's result for the row at that position,
    and every other row was mapped to [null] and left no entry. *)
Theorem normalizer_preserves_order
    (rows : list row) (h : overlay) (products : list product) :
  snd (Route.processProducts rows h) = Ok products ->
  exists idx : list nat,
    StronglySorted lt idx
    /\ length idx = length products
    /\ (forall j k, idx !! j = Some k ->
          exists r p, rows !! k = Some r /\ products !! j = Some p
                      /\ Route.map_callback h r k = Ok (Some p))
    /\ (forall k r, rows !! k = Some r -> k ∉ idx ->
          Route.map_callback h r k = Ok None).
Proof.
  rewrite processProducts_kept. intros Hk.
  destruct (kept_positions _ _ _ _ Hk) as (idx & Hs & _ & Hl & Hsome & Hnone).
  exists idx. split_and!; try assumption.
  - intros j k H. destruct (Hsome j k H) as (r & p & Hr & Hp & Hcb).
    rewrite Nat.sub_0_r in Hr. eauto.
Qed.

Lemma normalizer_preserves_order_witness :
  snd (Route.processProducts sample_rows ∅) = Ok [vase_a]
  /\ exists idx : list nat,
       StronglySorted lt idx
       /\ length idx = length [vase_a]
       /\ (forall j k, idx !! j = Some k ->
             exists r p, sample_rows !! k = Some r /\ [vase_a] !! j = Some p
                         /\ Route.map_callback ∅ r k = Ok (Some p))
       /\ (forall k r, sample_rows !! k = Some r -> k ∉ idx ->
             Route.map_callback ∅ r k = Ok None).
Proof.
  split; [vm_compute; reflexivity|].
  apply (normalizer_preserves_order sample_rows ∅ [vase_a]).
  vm_compute; reflexivity.
Defined.

(** ** When the normalizer returns *)

Lemma trim_or_null_returns (what : string) (v : value) :
  trimmable v -> exists o, trim_or_null what v = Ok o.
Proof.
  destruct v as [| |b|x|s]; simpl; try contradiction; eauto.
  destruct (trim s); eauto.
Qed.

Lemma map_callback_returns (h : overlay) (r : row) (i : nat) :
  trimmable (cell r 0) -> trimmable (cell r 1) ->
  exists o, Route.map_callback h r i = Ok o.
Proof.
  intros H0 H1. unfold Route.map_callback.
  destruct (trim_or_null_returns "row[0]?.trim" _ H0) as [nm ->].
  destruct (trim_or_null_returns "row[1]?.trim" _ H1) as [br ->].
  simpl. destruct nm; eauto.
  destruct (le_zero (Route.parseStock (cell r 4))); eauto.
Qed.

(** On rows whose name and brand cells are absent, [null] or strings the
    normalizer returns an array. *)
Lemma processProducts_returns (rows : list row) (h : overlay) :
  Forall (fun r => trimmable (cell r 0) /\ trimmable (cell r 1)) rows ->
  exists products, snd (Route.processProducts rows h) = Ok products.
Proof.
  intros H. rewrite processProducts_kept. unfold kept. generalize 0%nat.
  induction H as [|r rows [H0 H1] _ IH]; intros i; simpl; eauto.
  destruct (map_callback_returns h r i H0 H1) as [o ->]. simpl.
  destruct (IH (S i)) as [ps Hps].
  destruct (map_indexed _ (S i) rows) as [m|e]; simpl in *; eauto.
Qed.

(** A number in the name column makes the callback, and with it the
    normalizer, throw. *)
Example processProducts_throws :
  snd (Route.processProducts [[Num (Finite false 42 0)]] ∅)
  = Throw (TypeError (js "row[0]?.trim is not a function")).
Proof. reflexivity. Qed.

(** ** The script's copy *)

Lemma script_extractUrl (h : overlay) (i col : nat) (v : value) :
  Script.extractUrl h i col v = Route.extractUrl h i col v.
Proof.
  unfold Script.extractUrl, Route.extractUrl.
  destruct (h !! hyperlinkKey i col) as [[|c link]|];
    destruct (truthy v); simpl; try reflexivity;
    destruct (trim (ToString v)); try reflexivity;
    match goal with |- (if ?b then _ else _) = _ => destruct b end;
    try reflexivity;
    match goal with |- match ?m with _ => _ end = _ => destruct m end;
    reflexivity.
Qed.

Lemma script_map_callback (h : overlay) (r : row) (i : nat) :
  Script.map_callback h r i = Route.map_callback h r i.
Proof.
  unfold Script.map_callback, Route.map_callback.
  now rewrite !script_extractUrl.
Qed.

Lemma map_indexed_ext {A B} (f g : A -> nat -> result B) (l : list A) :
  (forall a i, f a i = g a i) ->
  forall i, map_indexed f i l = map_indexed g i l.
Proof.
  intros Hfg. induction l as [|a l IH]; intros i; simpl; [reflexivity|].
  now rewrite Hfg, IH.
Qed.

(** C9. The [processProducts] of the script and the one of the endpoint
    return the same thing for every row sequence and every hyperlink
    overlay: the same array of records, or the same exception. *)
Theorem script_and_route_normalize_alike (rows : list row) (h : overlay) :
  snd (Script.processProducts rows h) = snd (Route.processProducts rows h).
Proof.
  unfold Script.processProducts, Route.processProducts.
  rewrite (map_indexed_ext _ _ rows (script_map_callback h)).
  destruct (map_indexed _ 0%nat rows); reflexivity.
Qed.

(** The two copies differ in what they print. *)
Example script_prints_a_sample :
  length (fst (Script.processProducts sample_rows ∅)) = 11%nat
  /\ length (fst (Route.processProducts sample_rows ∅)) = 2%nat.
Proof. split; vm_compute; reflexivity. Qed.

(** ** Prices *)

Lemma trim_decompose (s : jsstring) :
  exists lead trail,
    s = lead ++ trim s ++ trail
    /\ Forall (fun c => is_ws c = true) lead
    /\ Forall (fun c => is_ws c = true) trail.
Proof.
  exists (takeWhile is_ws s), (rev (takeWhile is_ws (rev (trimStart s)))).
  split_and!.
  - unfold trim, trimEnd. rewrite <- rev_app_distr, takeWhile_dropWhile.
    rewrite rev_involutive. unfold trimStart.
    now rewrite takeWhile_dropWhile.
  - apply takeWhile_all.
  - apply Forall_forall. intros c Hc.
    apply list_elem_of_In, in_rev, list_elem_of_In in Hc.
    revert c Hc. apply Forall_forall. apply takeWhile_all.
Qed.

Lemma remove_all_app (f : N -> bool) (a b : jsstring) :
  remove_all f (a ++ b) = remove_all f a ++ remove_all f b.
Proof. unfold remove_all. apply List.filter_app. Qed.

Lemma remove_all_Forall (f : N -> bool) (P : N -> Prop) (s : jsstring) :
  Forall P s -> Forall P (remove_all f s).
Proof.
  unfold remove_all. induction 1 as [|c s Hc _ IH]; simpl; [constructor|].
  destruct (f c); simpl; [exact IH | now constructor].
Qed.

Lemma remove_all_free (f : N -> bool) (s : jsstring) :
  Forall (fun c => f c = false) (remove_all f s).
Proof.
  unfold remove_all. induction s as [|c s IH]; simpl; [constructor|].
  destruct (f c) eqn:E; simpl; [exact IH | now constructor].
Qed.

Lemma remove_all_blank (s : jsstring) :
  Forall (fun c => is_ws c = true) s -> remove_all is_ws s = [].
Proof.
  unfold remove_all. induction 1 as [|c s Hc _ IH]; simpl; [reflexivity|].
  now rewrite Hc.
Qed.

(** Deleting white space forgets a preceding [trim]. *)
Lemma remove_ws_trim (f : N -> bool) (s : jsstring) :
  remove_all is_ws (remove_all f (trim s)) = remove_all is_ws (remove_all f s).
Proof.
  destruct (trim_decompose s) as (lead & trail & Hs & Hl & Ht).
  rewrite Hs at 2. rewrite !remove_all_app.
  rewrite (remove_all_blank (remove_all f lead))
    by now apply remove_all_Forall.
  rewrite (remove_all_blank (remove_all f trail))
    by now apply remove_all_Forall.
  now rewrite app_nil_r.
Qed.

Lemma trim_clean (s : jsstring) :
  Forall (fun c => is_ws c = false) s -> trim s = s.
Proof.
  intros H. unfold trim, trimEnd, trimStart.
  rewrite (dropWhile_none is_ws s H).
  rewrite dropWhile_none; [apply rev_involutive|].
  apply Forall_forall. intros c Hc.
  apply list_elem_of_In, in_rev, list_elem_of_In in Hc.
  revert c Hc. now apply Forall_forall.
Qed.

Lemma strip_price_clean (s : jsstring) :
  Forall (fun c => is_ws c = false) (strip_price s).
Proof. unfold strip_price. apply remove_all_Forall, remove_all_free. Qed.

Lemma finite_not_nan (x : number) :
  negb (isNaN x) && isFinite x = isFinite x.
Proof. now destruct x. Qed.

(** The price of a textual cell. *)
Lemma parsePrice_text (s : jsstring) :
  Route.parsePrice (Str s) = finite_or_absent (parseFloat (strip_price s)).
Proof.
  unfold Route.parsePrice, finite_or_absent. simpl ToString.
  assert (Hblank : trim s = [] -> parseFloat (strip_price s) = NaN).
  { intros H. apply trim_nil_blank in H. unfold strip_price.
    rewrite (remove_all_blank (remove_all is_currency s))
      by now apply remove_all_Forall.
    reflexivity. }
  assert (Hmain :
    match trim s with
    | [] => None
    | _ :: _ =>
        if negb (isNaN (parseFloat (trim (remove_all is_comma
                 (remove_all is_ws (remove_all is_currency (trim s)))))))
           && isFinite (parseFloat (trim (remove_all is_comma
                 (remove_all is_ws (remove_all is_currency (trim s))))))
        then Some (parseFloat (trim (remove_all is_comma
                 (remove_all is_ws (remove_all is_currency (trim s))))))
        else None
    end
    = if isFinite (parseFloat (strip_price s))
      then Some (parseFloat (strip_price s)) else None).
  { destruct (trim s) as [|c t] eqn:Et.
    - now rewrite Hblank.
    - rewrite <- Et, remove_ws_trim. fold (strip_price s).
      rewrite (trim_clean _ (strip_price_clean s)), finite_not_nan.
      reflexivity. }
  destruct s as [|c s]; [reflexivity | exact Hmain].
Qed.

(** C3. For a textual price cell the normalizer deletes the currency
    characters, then all white space, then the commas, parses what is left
    as a decimal, and gives no price when the parsed number is not finite;
    the ruble-formatted text of 27,000.00 and the clean text 27000 both give
    27000; a numeric cell is used as it is. *)
Theorem price_of_cell :
  (forall s : jsstring,
     Route.parsePrice (Str s)
     = finite_or_absent
         (parseFloat
            (remove_all is_comma
               (remove_all is_ws (remove_all is_currency s)))))
  /\ Route.parsePrice (Str RUBLE_27000) = Some (of_N 27000)
  /\ Route.parsePrice (Str (js "27000")) = Some (of_N 27000)
  /\ (forall x : number, Route.parsePrice (Num x) = Some x).
Proof.
  split_and!.
  - exact parsePrice_text.
  - vm_compute; reflexivity.
  - vm_compute; reflexivity.
  - reflexivity.
Qed.

Lemma to_number_sign (neg : bool) (m : N) (e : Z) (n : bool) (m' : N) (e' : Z) :
  to_number neg m e = Finite n m' e' -> n = neg.
Proof.
  unfold to_number.
  destruct (m =? 0); [now intros [= <- _ _]|].
  destruct (overflows m e); [discriminate|].
  destruct (underflows m e); [now intros [= <- _ _]|].
  destruct (normal m e). now intros [= <- _ _].
Qed.

Lemma split_sign_negative (s r : jsstring) :
  split_sign s = (true, r) -> head s = Some 45.
Proof.
  unfold split_sign. destruct s as [|c s]; [discriminate|].
  destruct (c =? 45) eqn:E45.
  - apply N.eqb_eq in E45. now subst c.
  - destruct (c =? 43); discriminate.
Qed.

(** A negative result of [parseFloat] comes from a leading minus sign. *)
Lemma parseFloat_negative (t : jsstring) (m : N) (e : Z) :
  parseFloat t = Finite true m e -> head (trimStart t) = Some 45.
Proof.
  unfold parseFloat.
  destruct (split_sign (trimStart t)) as [neg s] eqn:Es.
  destruct (startsWith (js "Infinity") s); [discriminate|].
  match goal with
  | |- (let '(fp, r2) := ?frac in _) = _ -> _ => destruct frac as [fp r2]
  end.
  destruct (takeWhile is_digit s ++ fp) eqn:Ed; [discriminate|].
  intros H. apply to_number_sign in H. subst neg.
  eapply split_sign_negative; eauto.
Qed.

(** A price read from a text is finite, and it is negative only when the
    text left after the deletions starts with a minus sign. *)
Lemma parsePrice_text_sign (s : jsstring) (x : number) :
  Route.parsePrice (Str s) = Some x ->
  isFinite x = true
  /\ (ge_zero x = true \/ head (strip_price s) = Some 45).
Proof.
  rewrite parsePrice_text. unfold finite_or_absent.
  destruct (isFinite (parseFloat (strip_price s))) eqn:Ef; [|discriminate].
  intros [= <-]. split; [exact Ef|].
  destruct (parseFloat (strip_price s)) as [|neg|neg m e] eqn:Ep;
    try discriminate.
  destruct neg; [|left; simpl; apply orb_true_r].
  right. apply parseFloat_negative in Ep.
  unfold trimStart in Ep.
  now rewrite (dropWhile_none is_ws _ (strip_price_clean s)) in Ep.
Qed.

(** C6. The normalizer returns a record with a negative price. The price
    text [-5] passes the deletions unchanged: the pattern deletes the ruble
    sign, the letters of its class, white space and commas, and not the
    minus sign. [parseFloat] reads the text as [-5], which is a number, and
    the record of the row carries it as its price. The endpoint and the
    script do the same; the comment over the deletion in the script describes
    it as matching any non-digit character except the decimal point, which
    would have deleted the minus sign. *)
Lemma negative_price_is_kept :
  strip_price (js "-5") = js "-5"
  /\ Route.parsePrice (text "-5") = Some (Finite true 5 0)
  /\ Script.parsePrice (text "-5") = Some (Finite true 5 0)
  /\ snd (Route.processProducts negative_rows ∅) = Ok [negative_vase]
  /\ snd (Script.processProducts negative_rows ∅) = Ok [negative_vase]
  /\ price negative_vase = Some (Finite true 5 0)
  /\ ge_zero (Finite true 5 0) = false.
Proof. split_and!; vm_compute; reflexivity. Qed.

(** ** Image links *)

Lemma startsWith_app (p s : jsstring) : startsWith p (p ++ s) = true.
Proof.
  induction p as [|c p IH]; simpl; [reflexivity|].
  unfold code_eqb. now rewrite N.eqb_refl.
Qed.

Lemma startsWith_split (p s : jsstring) :
  startsWith p s = true -> s = p ++ drop (length p) s.
Proof.
  revert s. induction p as [|c p IH]; intros s; simpl; [reflexivity|].
  destruct s as [|d s]; [discriminate|].
  unfold code_eqb. destruct (c =? d) eqn:E; [|discriminate].
  apply N.eqb_eq in E. subst d. simpl. intros H. f_equal. now apply IH.
Qed.

Lemma takeWhile_run (f : N -> bool) (body post : jsstring) :
  Forall (fun c => f c = true) body ->
  head post = None \/ (exists c, head post = Some c /\ f c = false) ->
  takeWhile f (body ++ post) = body.
Proof.
  intros Hb Hp. induction Hb as [|c body Hc _ IH]; simpl.
  - destruct post as [|d post]; [reflexivity|].
    destruct Hp as [Hp|(c & Hp & Hc)]; [discriminate|].
    injection Hp as ->. simpl. now rewrite Hc.
  - now rewrite Hc, IH.
Qed.

Lemma url_at_scheme (scheme rest : jsstring) :
  scheme = HTTP \/ scheme = HTTPS ->
  url_at (scheme ++ rest) =
  match takeWhile (fun c => negb (is_url_stop c)) rest with
  | [] => None
  | body => Some (scheme ++ body)
  end.
Proof.
  intros [-> | ->]; unfold url_at.
  - replace (startsWith HTTPS (HTTP ++ rest)) with false by reflexivity.
    rewrite startsWith_app. now rewrite drop_app_length.
  - rewrite startsWith_app. now rewrite drop_app_length.
Qed.

Lemma url_at_some (s u : jsstring) :
  url_at s = Some u <->
  exists post, s = u ++ post /\ url_text u /\ stops post.
Proof.
  split.
  - unfold url_at.
    set (scheme := if startsWith HTTPS s then Some HTTPS
                   else if startsWith HTTP s then Some HTTP else None).
    assert (Hs : forall p, scheme = Some p ->
                   (p = HTTP \/ p = HTTPS) /\ s = p ++ drop (length p) s).
    { subst scheme. intros p.
      destruct (startsWith HTTPS s) eqn:E1.
      - intros [= <-]. split; [now right | now apply startsWith_split].
      - destruct (startsWith HTTP s) eqn:E2; [|discriminate].
        intros [= <-]. split; [now left | now apply startsWith_split]. }
    destruct scheme as [p|]; [|discriminate].
    destruct (Hs p eq_refl) as [Hp Hsplit].
    set (t := drop (length p) s) in *.
    pose proof (takeWhile_dropWhile (fun c => negb (is_url_stop c)) t) as Ht.
    pose proof (takeWhile_all (fun c => negb (is_url_stop c)) t) as Hall.
    destruct (takeWhile (fun c => negb (is_url_stop c)) t) as [|b body] eqn:Eb;
      [discriminate|].
    intros [= <-]. exists (dropWhile (fun c => negb (is_url_stop c)) t).
    split_and!.
    + rewrite <- app_assoc, Ht. exact Hsplit.
    + exists p, (b :: body). split_and!; try done.
      eapply Forall_impl; [exact Hall|]. simpl. intros c Hc.
      now apply negb_true_iff in Hc.
    + destruct (dropWhile _ t) as [|d post] eqn:Ed; [now left|].
      right. exists d. split; [reflexivity|].
      apply dropWhile_head in Ed. now apply negb_false_iff in Ed.
  - intros (post & -> & (scheme & body & Hsch & -> & Hne & Hbody) & Hstop).
    rewrite <- app_assoc, (url_at_scheme _ _ Hsch).
    rewrite takeWhile_run.
    + destruct body; [congruence | reflexivity].
    + eapply Forall_impl; [exact Hbody|]. simpl. intros c Hc. now rewrite Hc.
    + destruct Hstop as [H|(c & H & Hc)]; [now left|].
      right. exists c. split; [exact H | now rewrite Hc].
Qed.

Lemma url_at_none (s : jsstring) : url_at s = None <-> ~ starts_url s.
Proof.
  split.
  - intros Hn (v & rest & -> & scheme & body & Hsch & -> & Hne & Hbody).
    rewrite <- app_assoc, (url_at_scheme _ _ Hsch) in Hn.
    destruct body as [|b body]; [congruence|].
    apply Forall_cons in Hbody as [Hb _]. simpl in Hn. rewrite Hb in Hn.
    discriminate.
  - intros Hn. destruct (url_at s) as [u|] eqn:E; [|reflexivity].
    exfalso. apply Hn. apply url_at_some in E.
    destruct E as (post & -> & Hu & _). now exists u, post.
Qed.

Lemma url_text_nonempty (u : jsstring) : url_text u -> u <> [].
Proof.
  intros (scheme & body & _ & -> & Hne & _) H.
  apply app_eq_nil in H. tauto.
Qed.

(** The pattern match returns the first embedded URL. *)
Lemma url_match_first (s u : jsstring) :
  url_match s = Some u <-> first_embedded_url s u.
Proof.
  split.
  - induction s as [|c s IH]; simpl; [discriminate|].
    destruct (url_at (c :: s)) as [v|] eqn:E.
    + intros [= ->]. apply url_at_some in E.
      destruct E as (post & Hs & Hu & Hstop).
      exists [], post. split_and!; try assumption. simpl. intros k Hk. lia.
    + intros H. destruct (IH H) as (pre & post & -> & Hu & Hstop & Hleft).
      exists (c :: pre), post. split_and!; try assumption; [reflexivity|].
      intros [|k] Hk.
      * now apply url_at_none.
      * simpl. apply Hleft. simpl in Hk. lia.
  - intros (pre & post & -> & Hu & Hstop & Hleft).
    induction pre as [|c pre IH].
    + simpl in *. assert (E : url_at (u ++ post) = Some u).
      { apply url_at_some. now exists post. }
      pose proof (url_text_nonempty u Hu) as Hne.
      destruct u as [|b u]; [congruence|]. simpl app in *. simpl.
      now rewrite E.
    + simpl. assert (E : url_at (c :: pre ++ u ++ post) = None).
      { apply url_at_none. apply (Hleft 0%nat). simpl. lia. }
      rewrite E. apply IH. intros k Hk. apply (Hleft (S k)). simpl. lia.
Qed.

(** ** The URL pattern and white space around the text *)

Lemma startsWith_head (x c : N) (p t : jsstring) :
  startsWith (x :: p) (c :: t) = true -> x = c.
Proof.
  cbn [startsWith]. unfold code_eqb. intros H.
  apply andb_true_iff in H as [H _]. now apply N.eqb_eq in H.
Qed.

Lemma url_at_ws_head (c : N) (t : jsstring) :
  is_ws c = true -> url_at (c :: t) = None.
Proof.
  intros Hc. unfold url_at.
  destruct (startsWith HTTPS (c :: t)) eqn:E1.
  { apply startsWith_head in E1. subst c. discriminate. }
  destruct (startsWith HTTP (c :: t)) eqn:E2.
  { apply startsWith_head in E2. subst c. discriminate. }
  reflexivity.
Qed.

Lemma url_match_lead (lead x : jsstring) :
  Forall (fun c => is_ws c = true) lead ->
  url_match (lead ++ x) = url_match x.
Proof.
  induction 1 as [|c lead Hc _ IH]; [reflexivity|].
  simpl app. cbn [url_match]. now rewrite (url_at_ws_head c _ Hc).
Qed.

Lemma startsWith_trail (p a trail : jsstring) :
  Forall (fun c => is_ws c = false) p ->
  Forall (fun c => is_ws c = true) trail ->
  startsWith p (a ++ trail) = startsWith p a.
Proof.
  intros Hp Ht. revert a. induction Hp as [|x p Hx _ IH]; intros a.
  - reflexivity.
  - destruct a as [|y a]; simpl.
    + destruct Ht as [|w trail Hw _]; [reflexivity|]. simpl.
      unfold code_eqb. destruct (x =? w) eqn:E; [|reflexivity].
      apply N.eqb_eq in E. subst w. congruence.
    + now rewrite IH.
Qed.

Lemma takeWhile_trail (f : N -> bool) (b trail : jsstring) :
  Forall (fun c => f c = false) trail ->
  takeWhile f (b ++ trail) = takeWhile f b.
Proof.
  intros Ht. induction b as [|c b IH]; simpl.
  - destruct Ht as [|w trail Hw _]; [reflexivity|]. simpl. now rewrite Hw.
  - destruct (f c); [now rewrite IH | reflexivity].
Qed.

Lemma url_at_trail (a trail : jsstring) :
  Forall (fun c => is_ws c = true) trail ->
  url_at (a ++ trail) = url_at a.
Proof.
  intros Ht. unfold url_at.
  rewrite (startsWith_trail HTTPS a trail), (startsWith_trail HTTP a trail);
    try assumption; try (repeat constructor).
  assert (Hstop : Forall (fun c => negb (is_url_stop c) = false) trail).
  { eapply Forall_impl; [exact Ht|]. simpl. intros c Hc.
    unfold is_url_stop. now rewrite Hc. }
  assert (Hdrop : forall p, startsWith p a = true ->
            takeWhile (fun c => negb (is_url_stop c))
              (drop (length p) (a ++ trail))
            = takeWhile (fun c => negb (is_url_stop c)) (drop (length p) a)).
  { intros p Hp. apply startsWith_split in Hp.
    rewrite drop_app_le.
    - now apply takeWhile_trail.
    - rewrite Hp at 1. rewrite length_app. lia. }
  destruct (startsWith HTTPS a) eqn:E1; [now rewrite Hdrop|].
  destruct (startsWith HTTP a) eqn:E2; [now rewrite Hdrop|].
  reflexivity.
Qed.

Lemma url_match_trail (a trail : jsstring) :
  Forall (fun c => is_ws c = true) trail ->
  url_match (a ++ trail) = url_match a.
Proof.
  intros Ht. induction a as [|c a IH].
  - simpl app. rewrite <- (app_nil_r trail). now rewrite url_match_lead.
  - simpl app. cbn [url_match].
    change (c :: a ++ trail) with ((c :: a) ++ trail).
    now rewrite url_at_trail, IH.
Qed.

(** The pattern finds the same in a text and in the trimmed text. *)
Lemma url_match_trim (s : jsstring) : url_match (trim s) = url_match s.
Proof.
  destruct (trim_decompose s) as (lead & trail & Hs & Hl & Ht).
  rewrite Hs at 2. now rewrite url_match_lead, url_match_trail.
Qed.

(** The steps of [extractUrl] when no overlay entry is used. *)
Lemma extractUrl_by_cases
    (h : overlay) (rowIndex colIndex : nat) (s : jsstring) :
  match h !! hyperlinkKey rowIndex colIndex with
  | Some (c :: link) =>
      forall v : value, Route.extractUrl h rowIndex colIndex v = Some (c :: link)
  | _ =>
      if has_http_scheme (trim s)
      then Route.extractUrl h rowIndex colIndex (Str s) = Some (trim s)
      else forall u,
             Route.extractUrl h rowIndex colIndex (Str s) = Some u
             <-> first_embedded_url s u
  end.
Proof.
  assert (Hfall :
    if has_http_scheme (trim s)
    then (if negb (truthy (Str s)) then None
          else match trim s with
               | [] => None
               | _ => if startsWith HTTP (trim s) || startsWith HTTPS (trim s)
                      then Some (trim s) else url_match (trim s)
               end) = Some (trim s)
    else forall u,
           (if negb (truthy (Str s)) then None
            else match trim s with
                 | [] => None
                 | _ => if startsWith HTTP (trim s) || startsWith HTTPS (trim s)
                        then Some (trim s) else url_match (trim s)
                 end) = Some u
           <-> first_embedded_url s u).
  { destruct s as [|c s].
    - simpl. intros u. rewrite <- url_match_first. reflexivity.
    - simpl truthy. simpl negb. cbv iota. unfold has_http_scheme.
      pose proof (url_match_trim (c :: s)) as Htrim.
      destruct (trim (c :: s)) as [|d t] eqn:Et.
      + intros u. rewrite <- url_match_first, <- Htrim. reflexivity.
      + destruct (startsWith HTTP (d :: t) || startsWith HTTPS (d :: t));
          [reflexivity|].
        intros u. now rewrite <- url_match_first, <- Htrim. }
  unfold Route.extractUrl.
  destruct (h !! hyperlinkKey rowIndex colIndex) as [[|c link]|];
    [exact Hfall | reflexivity | exact Hfall].
Qed.

(** The test on the overlay entry is a truthiness test: an entry that is the
    empty string would be passed over. [readSheetData] stores no such entry
    (see [grid_hyperlinks_nonempty] below). *)
Lemma empty_overlay_entry_is_skipped :
  empty_link_overlay !! hyperlinkKey 0 6 = Some []
  /\ Route.extractUrl empty_link_overlay 0 6 (text "https://example.com/a.jpg")
     = Some (js "https://example.com/a.jpg").
Proof. split; vm_compute; reflexivity. Qed.

Lemma url_text_scheme (u : jsstring) : url_text u -> has_http_scheme u = true.
Proof.
  intros (scheme & body & [-> | ->] & -> & _). 
  - unfold has_http_scheme. now rewrite startsWith_app.
  - unfold has_http_scheme. rewrite (startsWith_app HTTPS). apply orb_true_r.
Qed.

(** A link is the overlay's entry or carries the http or https scheme. *)
Lemma extractUrl_origin (h : overlay) (i col : nat) (v : value) (u : jsstring) :
  Route.extractUrl h i col v = Some u ->
  has_http_scheme u = true \/ h !! hyperlinkKey i col = Some u.
Proof.
  unfold Route.extractUrl.
  assert (Hfall :
    (if negb (truthy v) then None
     else match trim (ToString v) with
          | [] => None
          | _ => if startsWith HTTP (trim (ToString v))
                    || startsWith HTTPS (trim (ToString v))
                 then Some (trim (ToString v))
                 else url_match (trim (ToString v))
          end) = Some u -> has_http_scheme u = true).
  { destruct (negb (truthy v)); [discriminate|].
    destruct (trim (ToString v)) as [|d t]; [discriminate|].
    destruct (startsWith HTTP (d :: t) || startsWith HTTPS (d :: t)) eqn:E.
    - now intros [= <-].
    - intros H. apply url_match_first in H.
      destruct H as (_ & _ & _ & Hu & _). now apply url_text_scheme. }
  destruct (h !! hyperlinkKey i col) as [[|c link]|].
  - intros H. left. now apply Hfall.
  - intros [= <-]. now right.
  - intros H. left. now apply Hfall.
Qed.

(** C7, as the code has it. The records of the output stand for a strictly
    increasing sequence of row positions, one per record, and for the record
    [p] at each place and its own row position [k]: an image link of [p],
    when present, starts with [http://] or [https://], or else it is the
    overlay's entry for row [k] and the image column (6 for the first link,
    7 for the second), which is passed on as it is. *)
Theorem image_links_have_scheme_or_come_from_overlay
    (rows : list row) (h : overlay) (products : list product) :
  snd (Route.processProducts rows h) = Ok products ->
  exists idx : list nat,
    StronglySorted lt idx
    /\ length idx = length products
    /\ forall j k, idx !! j = Some k ->
         exists r p,
           rows !! k = Some r /\ products !! j = Some p
           /\ Route.map_callback h r k = Ok (Some p)
           /\ image_url_1 p = Route.extractUrl h k 6 (cell r 6)
           /\ image_url_2 p = Route.extractUrl h k 7 (cell r 7)
           /\ (forall u, image_url_1 p = Some u ->
                 has_http_scheme u = true
                 \/ h !! hyperlinkKey k 6 = Some u)
           /\ (forall u, image_url_2 p = Some u ->
                 has_http_scheme u = true
                 \/ h !! hyperlinkKey k 7 = Some u).
Proof.
  rewrite processProducts_kept. intros Hk.
  destruct (kept_positions _ _ _ _ Hk) as (idx & Hs & _ & Hl & Hsome & _).
  exists idx. split_and!; try assumption.
  intros j k H. destruct (Hsome j k H) as (r & p & Hr & Hp & Hcb).
  rewrite Nat.sub_0_r in Hr.
  destruct (map_callback_some _ _ _ _ Hcb)
    as (_ & _ & _ & _ & _ & _ & _ & H1 & H2).
  exists r, p. split_and!; try assumption.
  - intros u Hu. rewrite H1 in Hu. now apply extractUrl_origin in Hu.
  - intros u Hu. rewrite H2 in Hu. now apply extractUrl_origin in Hu.
Qed.

Lemma image_links_have_scheme_or_come_from_overlay_witness :
  snd (Route.processProducts gallery_rows gallery_overlay)
  = Ok gallery_products
  /\ exists idx : list nat,
       StronglySorted lt idx
       /\ length idx = length gallery_products
       /\ forall j k, idx !! j = Some k ->
            exists r p,
              gallery_rows !! k = Some r /\ gallery_products !! j = Some p
              /\ Route.map_callback gallery_overlay r k = Ok (Some p)
              /\ image_url_1 p = Route.extractUrl gallery_overlay k 6 (cell r 6)
              /\ image_url_2 p = Route.extractUrl gallery_overlay k 7 (cell r 7)
              /\ (forall u, image_url_1 p = Some u ->
                    has_http_scheme u = true
                    \/ gallery_overlay !! hyperlinkKey k 6 = Some u)
              /\ (forall u, image_url_2 p = Some u ->
                    has_http_scheme u = true
                    \/ gallery_overlay !! hyperlinkKey k 7 = Some u).
Proof.
  split; [vm_compute; reflexivity|].
  apply (image_links_have_scheme_or_come_from_overlay
           gallery_rows gallery_overlay gallery_products).
  vm_compute; reflexivity.
Defined.

(** C7, as stated, fails: a mail link in the overlay becomes the first
    image link of the record, and it has neither scheme. *)
Lemma overlay_link_is_not_validated :
  snd (Route.processProducts image_rows mail_link_overlay)
  = Ok [mkProduct (js "Vase A") None (Finite false 5 0) None
          (Some (js "mailto:shop@example.com")) None]
  /\ has_http_scheme (js "mailto:shop@example.com") = false.
Proof. split; vm_compute; reflexivity. Qed.

(** ** The database calls *)

Lemma filter_listed (ids : list N) (l : list (N * product)) :
  (forall r, In r l -> In (fst r) ids) ->
  List.filter (fun r => negb (existsb (N.eqb (fst r)) ids)) l = [].
Proof.
  induction l as [|r l IH]; intros H; simpl; [reflexivity|].
  assert (E : existsb (N.eqb (fst r)) ids = true).
  { apply existsb_exists. exists (fst r). split; [apply H; now left|].
    apply N.eqb_refl. }
  rewrite E. simpl. apply IH. intros r' Hr'. apply H. now right.
Qed.

(** A [deleteAllProducts] that returns has emptied the table, with one
    select and, unless the table was empty, one delete of every identifier. *)
Lemma deleteAllProducts_ok (w w' : world) :
  Route.deleteAllProducts w = (Ok tt, w') ->
  table w' = []
  /\ next_id w' = next_id w
  /\ trace w' = trace w ++ DbSelect ::
                  match table w with
                  | [] => []
                  | _ => [DbDelete (map fst (table w))]
                  end.
Proof.
  destruct w as [sv sg tb nx errs tr].
  unfold Route.deleteAllProducts, bindM, db_select, db_delete, next_error,
    log, set_table, throw, ret. simpl.
  destruct errs as [|[m|] errs]; simpl; try discriminate.
  - destruct tb as [|r tb]; simpl.
    + intros [= <-]. simpl. split_and!; reflexivity.
    + destruct (fst r =? fst r) eqn:E;
        [|rewrite N.eqb_refl in E; discriminate].
      simpl. intros [= <-]. simpl. split_and!; try reflexivity.
      * apply (filter_listed (fst r :: map fst tb) tb).
        intros r' Hr'. right. now apply in_map.
      * now rewrite <- app_assoc.
  - destruct tb as [|r tb]; simpl.
    + intros [= <-]. simpl. split_and!; reflexivity.
    + destruct errs as [|[m|] errs]; simpl; try discriminate.
      * destruct (fst r =? fst r) eqn:E;
          [|rewrite N.eqb_refl in E; discriminate].
        simpl. intros [= <-]. simpl. split_and!; try reflexivity.
        -- apply (filter_listed (fst r :: map fst tb) tb).
           intros r' Hr'. right. now apply in_map.
        -- now rewrite <- app_assoc.
      * destruct (fst r =? fst r) eqn:E;
          [|rewrite N.eqb_refl in E; discriminate].
        simpl. intros [= <-]. simpl. split_and!; try reflexivity.
        -- apply (filter_listed (fst r :: map fst tb) tb).
           intros r' Hr'. right. now apply in_map.
        -- now rewrite <- app_assoc.
Qed.

(** With the select and the delete accepted, [deleteAllProducts] returns. *)
Lemma deleteAllProducts_returns (w : world) :
  database_accepts 2 w -> exists w', Route.deleteAllProducts w = (Ok tt, w').
Proof.
  destruct w as [sv sg tb nx errs tr]. unfold database_accepts. simpl.
  unfold Route.deleteAllProducts, bindM, db_select, db_delete, next_error,
    log, set_table, throw, ret. simpl.
  intros H.
  destruct errs as [|e1 errs]; simpl.
  - destruct tb; simpl; eauto.
  - apply Forall_cons in H as [-> H]. simpl.
    destruct tb as [|r tb]; simpl; eauto.
    destruct errs as [|e2 errs]; simpl; eauto.
    apply Forall_cons in H as [-> H]. simpl. eauto.
Qed.

Lemma with_ids_app (nxt : N) (a b : list product) :
  with_ids nxt (a ++ b)
  = with_ids nxt a ++ with_ids (nxt + N.of_nat (length a)) b.
Proof.
  revert nxt. induction a as [|p a IH]; intros nxt; simpl.
  - now rewrite N.add_0_r.
  - rewrite IH. do 3 f_equal. lia.
Qed.

Lemma with_ids_records (nxt : N) (l : list product) :
  map snd (with_ids nxt l) = l.
Proof.
  revert nxt. induction l as [|p l IH]; intros nxt; simpl; [reflexivity|].
  now rewrite IH.
Qed.

Lemma db_insert_ok (batch : list product) (w w1 : world) :
  db_insert batch w = (Ok None, w1) ->
  table w1 = table w ++ with_ids (next_id w) batch
  /\ next_id w1 = next_id w + N.of_nat (length batch)
  /\ trace w1 = trace w ++ [DbInsert batch].
Proof.
  destruct w as [sv sg tb nx errs tr].
  unfold db_insert, next_error, log, set_table. simpl.
  destruct errs as [|[m|] errs]; simpl; try discriminate;
    intros [= <-]; simpl; split_and!; reflexivity.
Qed.

(** The loop of [insertProducts], when it runs to its end. *)
Lemma insert_from_ok (products : list product) (n : nat) :
  forall (i : nat) (w w' : world),
  Route.insert_from n i products w = (Ok tt, w') ->
  table w' = table w
             ++ with_ids (next_id w)
                  (take (n * Route.batchSize) (drop i products))
  /\ trace w' = trace w
                ++ map (fun k => DbInsert (take Route.batchSize
                                   (drop (i + k * Route.batchSize) products)))
                     (seq 0 n).
Proof.
  induction n as [|n IH]; intros i w w'.
  - simpl. intros [= <-]. now rewrite !app_nil_r.
  - cbn [Route.insert_from]. unfold bindM at 1.
    destruct (db_insert _ w) as [[[m|]|e] w1] eqn:E; try discriminate.
    apply db_insert_ok in E. destruct E as (Ht & Hn & Htr).
    intros H. apply IH in H. destruct H as (Ht' & Htr').
    split.
    + rewrite Ht', Ht, Hn, <- app_assoc. f_equal.
      rewrite <- with_ids_app. f_equal.
      rewrite <- (drop_drop products Route.batchSize i).
      change (S n * Route.batchSize)%nat
        with (Route.batchSize + n * Route.batchSize)%nat.
      apply take_take_drop.
    + rewrite Htr', Htr, <- app_assoc. f_equal. simpl. f_equal.
      * now rewrite Nat.add_0_r.
      * rewrite <- seq_shift, map_map. apply map_ext. intros k.
        now replace (i + S k * Route.batchSize)%nat
          with (i + Route.batchSize + k * Route.batchSize)%nat by lia.
Qed.

Lemma iterations_cover (len : nat) :
  (len <= Route.iterations len * Route.batchSize)%nat.
Proof.
  unfold Route.iterations, Route.batchSize.
  pose proof (Nat.div_mod_eq (len + (100 - 1)) 100) as H.
  assert (Hm : ((len + (100 - 1)) `mod` 100 < 100)%nat)
    by (apply Nat.mod_upper_bound; discriminate).
  set (q := ((len + (100 - 1)) `div` 100)%nat) in *.
  set (r := ((len + (100 - 1)) `mod` 100)%nat) in *.
  lia.
Qed.

(** The loop count is the loop's: the [k]-th iteration starts below the
    length. *)
Lemma iterations_exact (len k : nat) :
  (k < Route.iterations len)%nat -> (k * Route.batchSize < len)%nat.
Proof.
  unfold Route.iterations, Route.batchSize.
  pose proof (Nat.div_mod_eq (len + (100 - 1)) 100) as H.
  assert (Hm : ((len + (100 - 1)) `mod` 100 < 100)%nat)
    by (apply Nat.mod_upper_bound; discriminate).
  set (q := ((len + (100 - 1)) `div` 100)%nat) in *.
  set (r := ((len + (100 - 1)) `mod` 100)%nat) in *.
  lia.
Qed.

(** An [insertProducts] that returns has appended every record, batch by
    batch. *)
Lemma insertProducts_ok (products : list product) (w w' : world) :
  Route.insertProducts products w = (Ok tt, w') ->
  table w' = table w ++ with_ids (next_id w) products
  /\ trace w' = trace w ++ map DbInsert (batches products).
Proof.
  unfold Route.insertProducts. destruct products as [|p products].
  - intros [= <-]. simpl. now rewrite !app_nil_r.
  - set (l := p :: products). intros H. apply insert_from_ok in H.
    destruct H as (Ht & Htr). split.
    + rewrite Ht. do 2 f_equal. rewrite drop_0. apply take_ge.
      apply iterations_cover.
    + rewrite Htr. f_equal. unfold batches. rewrite map_map. reflexivity.
Qed.

(** ** The handler *)

Lemma str_eqb_eq (a b : jsstring) : str_eqb a b = true <-> a = b.
Proof.
  revert b. induction a as [|x a IH]; intros [|y b]; simpl;
    try (split; [discriminate | congruence]); [tauto|].
  unfold code_eqb. rewrite andb_true_iff, N.eqb_eq, IH.
  split; [intros [-> ->]; reflexivity | intros [= -> ->]; tauto].
Qed.

(** What is left of the [try] block once the token is accepted. *)
Lemma POST_try_authorized (pf : platform) (env : environment) (req : request)
    (w : world) :
  authorized env req ->
  Route.POST_try pf env req w =
  (sheetId <<- Route.required "GOOGLE_SHEET_ID" (GOOGLE_SHEET_ID env) ;;
   url <<- Route.required "NEXT_PUBLIC_SUPABASE_URL"
             (NEXT_PUBLIC_SUPABASE_URL env) ;;
   key <<- Route.required "SUPABASE_SERVICE_ROLE_KEY"
             (SUPABASE_SERVICE_ROLE_KEY env) ;;
   lift (createClient pf url key) ;;;
   lift (Route.initializeSheetsAPI pf env) ;;;
   read <<- Route.readSheetData ;;
   let '(rows, hyperlinks) := read in
   products <<- lift (snd (Route.processProducts rows hyperlinks)) ;;
   Route.deleteAllProducts ;;;
   Route.insertProducts products ;;;
   ret (mkResponse 200 (Success (length products)))) w.
Proof.
  intros (secret & Hkey & Hne & Hauth). unfold Route.POST_try.
  rewrite Hkey, Hauth. destruct secret as [|k key]; [congruence|].
  set (hd := Route.BEARER ++ k :: key).
  assert (Hs : startsWith Route.BEARER hd = true) by apply startsWith_app.
  assert (Hd : substring 7 hd = k :: key) by reflexivity.
  clearbody hd. destruct hd as [|a auth]; [discriminate|].
  rewrite Hs, Hd. simpl negb. cbv iota.
  now rewrite (proj2 (str_eqb_eq (k :: key) (k :: key)) eq_refl).
Qed.

(** A 200 answer is given to an authorized request only. *)
Lemma POST_ok_authorized (pf : platform) (env : environment) (req : request)
    (w w' : world) (b : body) :
  Route.POST pf env req w = (mkResponse 200 b, w') ->
  authorized env req
  /\ Route.POST_try pf env req w = (Ok (mkResponse 200 b), w').
Proof.
  unfold Route.POST.
  destruct (Route.POST_try pf env req w) as [[r|e] w1] eqn:E;
    [|discriminate].
  intros [= -> ->]. split; [|reflexivity].
  unfold Route.POST_try in E.
  destruct (SYNC_SECRET_KEY env) as [[|k key]|] eqn:Ek; try discriminate.
  destruct (authorization req) as [[|a auth]|] eqn:Ea; try discriminate.
  destruct (startsWith Route.BEARER (a :: auth)) eqn:Es; [|discriminate].
  simpl negb in E. cbv iota in E.
  destruct (str_eqb (substring 7 (a :: auth)) (k :: key)) eqn:Et;
    [|discriminate].
  apply str_eqb_eq in Et. apply startsWith_split in Es.
  exists (k :: key). split_and!; [exact Ek | discriminate |].
  rewrite Ea, <- Et. f_equal. exact Es.
Qed.

Lemma required_ok (var : string) (v : option jsstring) (x : jsstring)
    (w w' : world) :
  Route.required var v w = (Ok x, w') -> v = Some x /\ x <> [] /\ w' = w.
Proof.
  unfold Route.required. destruct v as [[|c s]|]; try discriminate.
  intros [= <- <-]. split_and!; [reflexivity | discriminate | reflexivity].
Qed.

(** [readSheetData] makes the first read, and the second one when the first
    has answered. *)
Lemma readSheetData_run (w : world) :
  Route.readSheetData w =
  match sheet_values w with
  | Throw e => (Throw e, log SheetsValuesGet w)
  | Ok vs =>
      (match sheet_grid w with
       | Throw e => Throw e
       | Ok sp => Ok (default [] vs, Route.grid_hyperlinks sp)
       end,
       log SheetsGet (log SheetsValuesGet w))
  end.
Proof.
  unfold Route.readSheetData, bindM, values_get, spreadsheets_get, ret.
  destruct (sheet_values w) as [vs|e]; [|reflexivity].
  simpl sheet_grid. destruct (sheet_grid w); reflexivity.
Qed.

(** The steps of a [try] block that returns. *)
Lemma POST_try_ok (pf : platform) (env : environment) (req : request)
    (w w' : world) (r : response) :
  authorized env req ->
  Route.POST_try pf env req w = (Ok r, w') ->
  exists products w1,
    configured pf env
    /\ readable w
    /\ snd (Route.processProducts (sheet_rows w) (sheet_hyperlinks w))
       = Ok products
    /\ Route.deleteAllProducts (log SheetsGet (log SheetsValuesGet w))
       = (Ok tt, w1)
    /\ Route.insertProducts products w1 = (Ok tt, w')
    /\ r = mkResponse 200 (Success (length products)).
Proof.
  intros Hauth. rewrite (POST_try_authorized pf env req w Hauth).
  unfold bindM at 1.
  destruct (Route.required _ (GOOGLE_SHEET_ID env) w) as [[sheetId|e] w0] eqn:E1;
    [|discriminate].
  apply required_ok in E1. destruct E1 as (H1 & N1 & ->).
  unfold bindM at 1.
  destruct (Route.required _ (NEXT_PUBLIC_SUPABASE_URL env) w)
    as [[url|e] w0] eqn:E2; [|discriminate].
  apply required_ok in E2. destruct E2 as (H2 & N2 & ->).
  unfold bindM at 1.
  destruct (Route.required _ (SUPABASE_SERVICE_ROLE_KEY env) w)
    as [[key|e] w0] eqn:E3; [|discriminate].
  apply required_ok in E3. destruct E3 as (H3 & N3 & ->).
  unfold bindM at 1. unfold lift at 1.
  destruct (createClient pf url key) as [[]|e] eqn:E4; [|discriminate].
  unfold bindM at 1. unfold lift at 1.
  destruct (Route.initializeSheetsAPI pf env) as [[]|e] eqn:E5; [|discriminate].
  unfold bindM at 1. rewrite readSheetData_run.
  destruct (sheet_values w) as [vs|e] eqn:E6; [|discriminate].
  destruct (sheet_grid w) as [sp|e] eqn:E7; [|discriminate].
  unfold bindM at 1. unfold lift at 1.
  assert (Hrows : sheet_rows w = default [] vs)
    by (unfold sheet_rows; now rewrite E6).
  assert (Hlinks : sheet_hyperlinks w = Route.grid_hyperlinks sp)
    by (unfold sheet_hyperlinks; now rewrite E7).
  rewrite <- Hrows, <- Hlinks.
  destruct (snd (Route.processProducts (sheet_rows w) (sheet_hyperlinks w)))
    as [products|e] eqn:E8; [|discriminate].
  unfold bindM at 1.
  destruct (Route.deleteAllProducts _) as [[[]|e] w1] eqn:E9; [|discriminate].
  unfold bindM at 1.
  destruct (Route.insertProducts products w1) as [[[]|e] w2] eqn:E10;
    [|discriminate].
  unfold ret. intros [= <- <-].
  exists products, w1. split_and!; try reflexivity; try assumption.
  - exists sheetId, url, key. split_and!; assumption.
  - split; eauto.
Qed.

(** The steps, taken the other way round. *)
Lemma POST_try_runs (pf : platform) (env : environment) (req : request)
    (w w1 w' : world) (products : list product) :
  authorized env req -> configured pf env -> readable w ->
  snd (Route.processProducts (sheet_rows w) (sheet_hyperlinks w))
  = Ok products ->
  Route.deleteAllProducts (log SheetsGet (log SheetsValuesGet w))
  = (Ok tt, w1) ->
  Route.insertProducts products w1 = (Ok tt, w') ->
  Route.POST_try pf env req w
  = (Ok (mkResponse 200 (Success (length products))), w').
Proof.
  intros Hauth (sheetId & url & key & H1 & N1 & H2 & N2 & H3 & N3 & H4 & H5)
    [[vs Hv] [sp Hg]] Hp Hd Hi.
  rewrite (POST_try_authorized pf env req w Hauth).
  rewrite H1, H2, H3.
  destruct sheetId as [|c1 s1]; [congruence|].
  destruct url as [|c2 s2]; [congruence|].
  destruct key as [|c3 s3]; [congruence|].
  unfold Route.required, bindM at 1, ret at 1.
  unfold bindM at 1, ret at 1. unfold bindM at 1, ret at 1.
  unfold bindM at 1, lift at 1. rewrite H4.
  unfold bindM at 1, lift at 1. rewrite H5.
  unfold bindM at 1. rewrite readSheetData_run, Hv, Hg.
  unfold bindM at 1, lift at 1.
  unfold sheet_rows, sheet_hyperlinks in Hp. rewrite Hv, Hg in Hp.
  rewrite Hp. unfold bindM at 1. rewrite Hd. unfold bindM at 1. rewrite Hi.
  reflexivity.
Qed.

(** Without a configured secret every request is answered 500, before the
    header is looked at, and nothing is read or written. *)
Lemma POST_without_secret (pf : platform) (env : environment) (req : request)
    (w : world) :
  env_truthy (SYNC_SECRET_KEY env) = false ->
  Route.POST pf env req w
  = (mkResponse 500 (Failure (js "Server configuration error")), w).
Proof.
  unfold Route.POST, Route.POST_try.
  destruct (SYNC_SECRET_KEY env) as [[|k key]|]; simpl;
    [reflexivity | discriminate | reflexivity].
Qed.

(** C5. With the secret configured: a request without an Authorization
    header, with a header that does not start with [Bearer ], or with a
    token different from the secret is answered 401 with the error
    [Unauthorized], and the world is left as it was, so no read, delete or
    insert is made; a request carrying the secret, whose [try] block
    returns, is answered 200 with the number of records the normalizer
    returned for the sheet. *)
Theorem POST_checks_the_bearer_token
    (pf : platform) (env : environment) (req : request) (w : world)
    (secret : jsstring) :
  SYNC_SECRET_KEY env = Some secret -> secret <> [] ->
  (unauthorized secret req ->
     Route.POST pf env req w
     = (mkResponse 401 (Failure (js "Unauthorized")), w))
  /\ (authorization req = Some (Route.BEARER ++ secret) ->
      forall r w', Route.POST_try pf env req w = (Ok r, w') ->
        exists products,
          snd (Route.processProducts (sheet_rows w) (sheet_hyperlinks w))
          = Ok products
          /\ Route.POST pf env req w
             = (mkResponse 200 (Success (length products)), w')).
Proof.
  intros Hkey Hne. split.
  - intros Hbad. unfold Route.POST, Route.POST_try. rewrite Hkey.
    destruct secret as [|k key]; [congruence|].
    destruct Hbad as [Hnone|(header & Hh & Hbad)].
    + rewrite Hnone. reflexivity.
    + rewrite Hh. destruct header as [|a auth]; [reflexivity|].
      destruct (startsWith Route.BEARER (a :: auth)) eqn:Es; [|reflexivity].
      destruct Hbad as [Hbad|Hbad]; [discriminate|].
      simpl negb. cbv iota.
      destruct (str_eqb (substring 7 (a :: auth)) (k :: key)) eqn:Et;
        [|reflexivity].
      apply str_eqb_eq in Et. congruence.
  - intros Hauth r w' Hrun.
    assert (Ha : authorized env req) by (exists secret; auto).
    destruct (POST_try_ok pf env req w w' r Ha Hrun)
      as (products & w1 & _ & _ & Hp & _ & _ & ->).
    exists products. split; [exact Hp|]. unfold Route.POST. now rewrite Hrun.
Qed.

Lemma POST_checks_the_bearer_token_witness :
  (SYNC_SECRET_KEY sample_env = Some (js "s3cret") /\ js "s3cret" <> [])
  /\ unauthorized (js "s3cret") wrong_request
  /\ Route.POST sample_platform sample_env wrong_request sample_world
     = (mkResponse 401 (Failure (js "Unauthorized")), sample_world)
  /\ authorization sample_request = Some (Route.BEARER ++ js "s3cret")
  /\ exists products,
       snd (Route.processProducts (sheet_rows sample_world)
              (sheet_hyperlinks sample_world)) = Ok products
       /\ Route.POST sample_platform sample_env sample_request sample_world
          = (mkResponse 200 (Success (length products)),
             snd (Route.POST sample_platform sample_env sample_request
                    sample_world)).
Proof.
  assert (Hbad : unauthorized (js "s3cret") wrong_request).
  { right. exists (js "Bearer guess").
    split; [reflexivity|]. right. vm_compute. discriminate. }
  split_and!.
  - reflexivity.
  - discriminate.
  - exact Hbad.
  - apply (POST_checks_the_bearer_token sample_platform sample_env
             wrong_request sample_world (js "s3cret"));
      [reflexivity | discriminate | exact Hbad].
  - reflexivity.
  - apply (proj2 (POST_checks_the_bearer_token sample_platform sample_env
                    sample_request sample_world (js "s3cret")
                    eq_refl ltac:(discriminate)) eq_refl
             (mkResponse 200 (Success 1))).
    vm_compute; reflexivity.
Defined.

(** C2. After a run that is answered 200, whatever the table held before:
    the table holds exactly the records the normalizer returned for the
    sheet, in their order, and as many rows as that; the count reported is
    that number; and the calls made are the two reads, one select, then no
    delete when the table was empty and otherwise one delete naming every
    identifier of the table, then the inserts, batch by batch. *)
Theorem complete_run_replaces_table
    (pf : platform) (env : environment) (req : request) (w w' : world)
    (n : nat) :
  Route.POST pf env req w = (mkResponse 200 (Success n), w') ->
  exists products,
    snd (Route.processProducts (sheet_rows w) (sheet_hyperlinks w))
    = Ok products
    /\ map snd (table w') = products
    /\ length (table w') = length products
    /\ n = length products
    /\ trace w' = trace w ++ run_calls (table w) products.
Proof.
  intros Hpost. destruct (POST_ok_authorized _ _ _ _ _ _ Hpost) as [Ha Hrun].
  destruct (POST_try_ok pf env req w w' _ Ha Hrun)
    as (products & w1 & _ & _ & Hp & Hd & Hi & Hr).
  injection Hr as ->.
  apply deleteAllProducts_ok in Hd. destruct Hd as (Ht1 & Hn1 & Htr1).
  apply insertProducts_ok in Hi. destruct Hi as (Ht & Htr).
  rewrite Ht1 in Ht. simpl in Ht.
  assert (Hrec : map snd (table w') = products)
    by (rewrite Ht; apply with_ids_records).
  exists products. split_and!; try reflexivity; try assumption.
  - rewrite <- Hrec. now rewrite length_map.
  - rewrite Htr, Htr1. simpl trace. unfold run_calls.
    rewrite <- !app_assoc. simpl. rewrite <- ?app_assoc. reflexivity.
Qed.

Lemma complete_run_replaces_table_witness :
  Route.POST sample_platform sample_env sample_request sample_world
  = (mkResponse 200 (Success 1),
     snd (Route.POST sample_platform sample_env sample_request sample_world))
  /\ exists products,
       snd (Route.processProducts (sheet_rows sample_world)
              (sheet_hyperlinks sample_world)) = Ok products
       /\ map snd (table (snd (Route.POST sample_platform sample_env
                                 sample_request sample_world))) = products
       /\ length (table (snd (Route.POST sample_platform sample_env
                                sample_request sample_world)))
          = length products
       /\ 1%nat = length products
       /\ trace (snd (Route.POST sample_platform sample_env sample_request
                        sample_world))
          = trace sample_world ++ run_calls (table sample_world) products.
Proof.
  split; [vm_compute; reflexivity|].
  apply (complete_run_replaces_table sample_platform sample_env
           sample_request sample_world).
  vm_compute; reflexivity.
Defined.

(** C10. When the normalizer returns no record (no row in the sheet, or
    every row discarded), the request being authorized, the configuration
    complete, the sheet readable and the select and the delete accepted by
    the database: the run is answered 200 with count 0, the table is left
    empty, and the calls made are the two reads, the select and, when the
    table was not empty, the delete of every identifier; no insert. *)
Theorem empty_output_empties_table
    (pf : platform) (env : environment) (req : request) (w : world) :
  authorized env req -> configured pf env -> readable w ->
  snd (Route.processProducts (sheet_rows w) (sheet_hyperlinks w)) = Ok [] ->
  database_accepts 2 w ->
  exists w',
    Route.POST pf env req w = (mkResponse 200 (Success 0), w')
    /\ table w' = []
    /\ trace w' = trace w
                  ++ [SheetsValuesGet; SheetsGet; DbSelect]
                  ++ match table w with
                     | [] => []
                     | _ => [DbDelete (map fst (table w))]
                     end.
Proof.
  intros Ha Hc Hr Hp Hdb.
  destruct (deleteAllProducts_returns (log SheetsGet (log SheetsValuesGet w)))
    as [w' Hd]; [exact Hdb|].
  exists w'.
  assert (Hrun := POST_try_runs pf env req w w' w' [] Ha Hc Hr Hp Hd eq_refl).
  apply deleteAllProducts_ok in Hd. destruct Hd as (Ht & _ & Htr).
  split_and!.
  - unfold Route.POST. now rewrite Hrun.
  - exact Ht.
  - rewrite Htr. simpl. rewrite <- ?app_assoc. reflexivity.
Qed.

Lemma empty_output_empties_table_witness :
  authorized sample_env sample_request
  /\ configured sample_platform sample_env
  /\ readable empty_sheet_world
  /\ snd (Route.processProducts (sheet_rows empty_sheet_world)
            (sheet_hyperlinks empty_sheet_world)) = Ok []
  /\ database_accepts 2 empty_sheet_world
  /\ exists w',
       Route.POST sample_platform sample_env sample_request empty_sheet_world
       = (mkResponse 200 (Success 0), w')
       /\ table w' = []
       /\ trace w' = trace empty_sheet_world
                     ++ [SheetsValuesGet; SheetsGet; DbSelect]
                     ++ match table empty_sheet_world with
                        | [] => []
                        | _ => [DbDelete (map fst (table empty_sheet_world))]
                        end.
Proof.
  assert (Ha : authorized sample_env sample_request).
  { exists (js "s3cret"). split_and!; [reflexivity | discriminate | reflexivity]. }
  assert (Hc : configured sample_platform sample_env).
  { exists (js "sheet-1"), (js "https://db.example.com"), (js "service-key").
    split_and!; try reflexivity; discriminate. }
  assert (Hr : readable empty_sheet_world).
  { split; eexists; reflexivity. }
  assert (Hp : snd (Route.processProducts (sheet_rows empty_sheet_world)
                      (sheet_hyperlinks empty_sheet_world)) = Ok [])
    by (vm_compute; reflexivity).
  assert (Hd : database_accepts 2 empty_sheet_world) by constructor.
  split_and!; try assumption.
  exact (empty_output_empties_table sample_platform sample_env sample_request
           empty_sheet_world Ha Hc Hr Hp Hd).
Defined.

(** ** The overlay built by the reader *)

Lemma scan_cells_nonempty (rowIndex : nat) (cells : list CellData) :
  forall (colIndex : nat) (h : overlay),
  entries_nonempty h ->
  entries_nonempty (Route.scan_cells rowIndex colIndex cells h).
Proof.
  induction cells as [|c cells IH]; intros colIndex h Hh; simpl; [exact Hh|].
  apply IH.
  destruct (hyperlink c) as [[|x link]|]; try exact Hh.
  destruct ((colIndex =? 6)%nat || (colIndex =? 7)%nat); [|exact Hh].
  intros k l. rewrite lookup_insert. case_decide.
  - intros [= <-]. discriminate.
  - apply Hh.
Qed.

Lemma scan_rows_nonempty (rws : list RowData) :
  forall (rowIndex : nat) (h : overlay),
  entries_nonempty h -> entries_nonempty (Route.scan_rows rowIndex rws h).
Proof.
  induction rws as [|r rws IH]; intros rowIndex h Hh; simpl; [exact Hh|].
  apply IH. destruct (values r); [|exact Hh].
  now apply scan_cells_nonempty.
Qed.

(** Every entry of the overlay that [readSheetData] builds is a non-empty
    link, so that in a run of the handler an entry always wins over the
    cell text. *)
Lemma grid_hyperlinks_nonempty (sp : Spreadsheet) :
  entries_nonempty (Route.grid_hyperlinks sp).
Proof.
  assert (H0 : entries_nonempty (∅ : overlay)).
  { intros k link H. rewrite lookup_empty in H. discriminate. }
  unfold Route.grid_hyperlinks.
  destruct (sheets sp) as [[|sheet0 ?]|]; try exact H0.
  destruct (data sheet0) as [[|gridData ?]|]; try exact H0.
  destruct (rowData gridData); try exact H0.
  now apply scan_rows_nonempty.
Qed.

(** ** The resolution order of an image link *)

(** C4. For every row index, column index, cell text and overlay of
    non-empty links (such is every overlay that [readSheetData] builds): if
    the overlay has an entry for the row and column, the result is that
    entry, whatever the cell holds; otherwise, if the trimmed cell text
    starts with [http://] or [https://], the result is the trimmed text;
    otherwise the result is the first URL embedded in the cell text, and
    there is no result when no URL is embedded in it. *)
Theorem extractUrl_resolution
    (h : overlay) (rowIndex colIndex : nat) (s : jsstring) :
  entries_nonempty h ->
  match h !! hyperlinkKey rowIndex colIndex with
  | Some link =>
      forall v : value, Route.extractUrl h rowIndex colIndex v = Some link
  | None =>
      if has_http_scheme (trim s)
      then Route.extractUrl h rowIndex colIndex (Str s) = Some (trim s)
      else (forall u,
              Route.extractUrl h rowIndex colIndex (Str s) = Some u
              <-> first_embedded_url s u)
           /\ ((forall u, ~ first_embedded_url s u) ->
               Route.extractUrl h rowIndex colIndex (Str s) = None)
  end.
Proof.
  intros Hh. pose proof (extractUrl_by_cases h rowIndex colIndex s) as H.
  destruct (h !! hyperlinkKey rowIndex colIndex) as [link|] eqn:E.
  - destruct link as [|c link]; [|exact H].
    now destruct (Hh _ _ E).
  - destruct (has_http_scheme (trim s)); [exact H|].
    split; [exact H|].
    intros Hno.
    destruct (Route.extractUrl h rowIndex colIndex (Str s)) as [u|] eqn:Eu;
      [|reflexivity].
    destruct (Hno u). now apply H.
Qed.

Lemma extractUrl_resolution_witness :
  entries_nonempty (Route.grid_hyperlinks sample_grid)
  /\ (forall v : value,
        Route.extractUrl (Route.grid_hyperlinks sample_grid) 0 6 v
        = Some (js "https://cdn.example.com/a.jpg"))
  /\ Route.extractUrl (Route.grid_hyperlinks sample_grid) 0 7
       (text "  https://example.com/b.jpg ")
     = Some (js "https://example.com/b.jpg")
  /\ first_embedded_url (js "see https://example.com/c.jpg) now")
       (js "https://example.com/c.jpg")
  /\ Route.extractUrl (Route.grid_hyperlinks sample_grid) 1 6
       (text "no picture") = None.
Proof.
  pose proof (grid_hyperlinks_nonempty sample_grid) as Hh.
  split_and!.
  - exact Hh.
  - exact (extractUrl_resolution
             (Route.grid_hyperlinks sample_grid) 0 6 [] Hh).
  - exact (extractUrl_resolution
             (Route.grid_hyperlinks sample_grid) 0 7
             (js "  https://example.com/b.jpg ") Hh).
  - apply (proj1 (extractUrl_resolution
                    (Route.grid_hyperlinks sample_grid) 1 6
                    (js "see https://example.com/c.jpg) now") Hh)).
    vm_compute. reflexivity.
  - apply (proj2 (extractUrl_resolution
                    (Route.grid_hyperlinks sample_grid) 1 6
                    (js "no picture") Hh)).
    intros u Hu.
    apply (proj1 (extractUrl_resolution
                    (Route.grid_hyperlinks sample_grid) 1 6
                    (js "no picture") Hh)) in Hu.
    vm_compute in Hu. discriminate.
Defined.

(** * Further properties *)

(** ** Keys of the overlay *)

Lemma string_of_uint_digits (d : Decimal.uint) :
  Forall (fun c => is_digit c = true) (js (NilEmpty.string_of_uint d)).
Proof.
  induction d; simpl; try constructor; try reflexivity; assumption.
Qed.

Lemma digits_of_N_digits (n : N) :
  Forall (fun c => is_digit c = true) (digits_of_N n).
Proof.
  unfold digits_of_N, NilZero.string_of_uint.
  destruct (N.to_uint n); try apply string_of_uint_digits.
  repeat constructor.
Qed.

Lemma js_inj (s t : string) : js s = js t -> s = t.
Proof.
  unfold js. intros H.
  rewrite <- (string_of_list_ascii_of_string s),
          <- (string_of_list_ascii_of_string t).
  f_equal. revert H.
  generalize (list_ascii_of_string s) (list_ascii_of_string t).
  induction l as [|a l IH]; intros [|b l']; simpl; try discriminate;
    [reflexivity|].
  intros [= Hab Hl]. f_equal; [|now apply IH].
  rewrite <- (ascii_N_embedding a), <- (ascii_N_embedding b). now rewrite Hab.
Qed.

Lemma digits_of_N_inj (a b : N) : digits_of_N a = digits_of_N b -> a = b.
Proof.
  unfold digits_of_N. intros H. apply js_inj in H.
  apply DecimalN.Unsigned.to_uint_inj.
  assert (Hnn : forall n, N.to_uint n <> Decimal.Nil).
  { intros n Hn. pose proof (DecimalN.Unsigned.of_to n) as E.
    rewrite Hn in E. simpl in E. subst n. discriminate. }
  pose proof (NilZero.usu _ (Hnn a)) as Ha.
  pose proof (NilZero.usu _ (Hnn b)) as Hb.
  rewrite H in Ha. congruence.
Qed.

Lemma split_at_separator (sep : N) (a a' b b' : jsstring) :
  Forall (fun c => c <> sep) a -> Forall (fun c => c <> sep) a' ->
  a ++ sep :: b = a' ++ sep :: b' -> a = a' /\ b = b'.
Proof.
  intros Ha. revert a'. induction Ha as [|x a Hx _ IH]; intros a' Ha' H.
  - destruct Ha' as [|y a' Hy _]; simpl in H.
    + now injection H as ->.
    + injection H as -> _. congruence.
  - destruct Ha' as [|y a' Hy Ha']; simpl in H.
    + injection H as -> _. congruence.
    + injection H as -> H. destruct (IH _ Ha' H) as [-> ->]. auto.
Qed.

Lemma digits_no_underscore (n : nat) :
  Forall (fun c => c <> 95) (digits_of_nat n).
Proof.
  eapply Forall_impl; [apply digits_of_N_digits|].
  simpl. intros c Hc ->. discriminate.
Qed.

Lemma hyperlinkKey_inj (i c i' c' : nat) :
  hyperlinkKey i c = hyperlinkKey i' c' -> i = i' /\ c = c'.
Proof.
  unfold hyperlinkKey. simpl. intros H.
  apply split_at_separator in H; try apply digits_no_underscore.
  destruct H as [Hi Hc]. apply digits_of_N_inj in Hi, Hc. lia.
Qed.

(** X1. Two cells share a key of the overlay only when they are the same
    cell: the key determines the row index and the column index. *)
Theorem overlay_keys_do_not_collide (i c i' c' : nat) :
  hyperlinkKey i c = hyperlinkKey i' c' <-> i = i' /\ c = c'.
Proof.
  split; [apply hyperlinkKey_inj | now intros [-> ->]].
Qed.

(** ** The overlay as a function of the grid *)

Lemma scan_step_lookup (i c0 : nat) (cl : CellData) (h : overlay)
    (i' c' : nat) :
  (match hyperlink cl with
   | Some (x :: link) =>
       if (c0 =? 6)%nat || (c0 =? 7)%nat
       then <[hyperlinkKey i c0 := x :: link]> h
       else h
   | _ => h
   end) !! hyperlinkKey i' c'
  = match (if decide (i = i' /\ c0 = c' /\ image_column c' = true)
           then cell_link [cl] 0 else None) with
    | Some l => Some l
    | None => h !! hyperlinkKey i' c'
    end.
Proof.
  unfold cell_link. simpl. case_decide as Hd.
  - destruct Hd as (-> & -> & Himg). unfold image_column in Himg.
    destruct (hyperlink cl) as [[|x link]|]; try reflexivity.
    rewrite Himg. now rewrite lookup_insert_eq.
  - destruct (hyperlink cl) as [[|x link]|]; try reflexivity.
    destruct ((c0 =? 6)%nat || (c0 =? 7)%nat) eqn:Himg; [|reflexivity].
    rewrite lookup_insert_ne; [reflexivity|].
    intros Hk. apply hyperlinkKey_inj in Hk. destruct Hk as [-> ->].
    apply Hd. auto.
Qed.

Lemma scan_cells_lookup (i : nat) (cells : list CellData) :
  forall (c0 : nat) (h : overlay) (i' c' : nat),
  Route.scan_cells i c0 cells h !! hyperlinkKey i' c'
  = match (if decide (i = i' /\ (c0 <= c')%nat /\ image_column c' = true)
           then cell_link cells (c' - c0) else None) with
    | Some l => Some l
    | None => h !! hyperlinkKey i' c'
    end.
Proof.
  induction cells as [|cl cells IH]; intros c0 h i' c'; simpl.
  - case_decide; reflexivity.
  - rewrite IH, scan_step_lookup.
    destruct (decide (i = i' /\ (c0 <= c')%nat /\ image_column c' = true))
      as [(-> & Hle & Himg)|Hn].
    + destruct (decide (c0 = c')) as [->|Hne].
      * rewrite Nat.sub_diag.
        rewrite (decide_False (P := _ /\ (S c' <= c')%nat /\ _)) by lia.
        rewrite (decide_True (P := _ /\ c' = c' /\ _)) by auto.
        reflexivity.
      * rewrite (decide_True (P := _ /\ (S c0 <= c')%nat /\ _))
          by (split_and!; [reflexivity | lia | assumption]).
        rewrite (decide_False (P := _ /\ c0 = c' /\ _)) by tauto.
        replace (c' - c0)%nat with (S (c' - S c0)) by lia. reflexivity.
    + rewrite (decide_False (P := _ /\ (S c0 <= c')%nat /\ _))
        by (intros (? & ? & ?); apply Hn; split_and!; [assumption | lia | assumption]).
      rewrite (decide_False (P := _ /\ c0 = c' /\ _))
        by (intros (? & ? & ?); apply Hn; split_and!; [assumption | lia | assumption]).
      reflexivity.
Qed.

Lemma scan_rows_lookup (rws : list RowData) :
  forall (i0 : nat) (h : overlay) (i' c' : nat),
  Route.scan_rows i0 rws h !! hyperlinkKey i' c'
  = match (if decide ((i0 <= i')%nat /\ image_column c' = true)
           then grid_link rws (i' - i0) c' else None) with
    | Some l => Some l
    | None => h !! hyperlinkKey i' c'
    end.
Proof.
  induction rws as [|r rws IH]; intros i0 h i' c'; simpl.
  - case_decide; reflexivity.
  - rewrite IH.
    assert (Hrow :
      (match values r with
       | Some cells => Route.scan_cells i0 0 cells h
       | None => h
       end) !! hyperlinkKey i' c'
      = match (if decide (i0 = i' /\ image_column c' = true)
               then grid_link [r] 0 c' else None) with
        | Some l => Some l
        | None => h !! hyperlinkKey i' c'
        end).
    { unfold grid_link. simpl. destruct (values r) as [cells|].
      - rewrite scan_cells_lookup, Nat.sub_0_r.
        destruct (decide (i0 = i' /\ image_column c' = true)) as [[-> Hi]|Hn].
        + rewrite decide_True by (split_and!; [reflexivity | lia | assumption]).
          reflexivity.
        + rewrite decide_False by (intros (? & ? & ?); apply Hn; auto).
          reflexivity.
      - case_decide; reflexivity. }
    rewrite Hrow.
    destruct (decide ((i0 <= i')%nat /\ image_column c' = true))
      as [[Hle Himg]|Hn].
    + destruct (decide (i0 = i')) as [->|Hne].
      * rewrite Nat.sub_diag.
        rewrite (decide_False (P := (S i' <= i')%nat /\ _)) by lia.
        rewrite (decide_True (P := i' = i' /\ _)) by auto.
        reflexivity.
      * rewrite (decide_True (P := (S i0 <= i')%nat /\ _))
          by (split; [lia | assumption]).
        rewrite (decide_False (P := i0 = i' /\ _)) by tauto.
        replace (i' - i0)%nat with (S (i' - S i0)) by lia.
        unfold grid_link at 2. simpl. fold (grid_link rws (i' - S i0) c').
        reflexivity.
    + rewrite (decide_False (P := (S i0 <= i')%nat /\ _))
        by (intros (? & ?); apply Hn; split; [lia | assumption]).
      rewrite (decide_False (P := i0 = i' /\ _))
        by (intros (? & ?); apply Hn; split; [lia | assumption]).
      reflexivity.
Qed.

Lemma grid_lookup (sp : Spreadsheet) (i c : nat) :
  Route.grid_hyperlinks sp !! hyperlinkKey i c
  = if image_column c then grid_link (scanned_rows sp) i c else None.
Proof.
  assert (Hnil : forall j d, grid_link [] j d = None) by reflexivity.
  unfold Route.grid_hyperlinks, scanned_rows.
  destruct (sheets sp) as [[|sheet0 ?]|];
    try (rewrite lookup_empty, Hnil; now destruct (image_column c)).
  destruct (data sheet0) as [[|gridData ?]|];
    try (rewrite lookup_empty, Hnil; now destruct (image_column c)).
  destruct (rowData gridData) as [rws|]; simpl;
    try (rewrite lookup_empty, Hnil; now destruct (image_column c)).
  rewrite scan_rows_lookup, lookup_empty, Nat.sub_0_r.
  destruct (image_column c) eqn:Himg.
  - rewrite decide_True by (split; [lia | reflexivity]).
    now destruct (grid_link rws i c).
  - rewrite decide_False by (intros [_ ?]; discriminate). reflexivity.
Qed.

(** X2. Looking the reader's overlay up under the key of a cell gives the
    link of that cell of the scanned grid when the column is 6 or 7 and the
    link is not empty, and nothing otherwise. *)
Theorem reader_overlay_lookup (sp : Spreadsheet) (i c : nat) :
  Route.grid_hyperlinks sp !! hyperlinkKey i c
  = if image_column c then grid_link (scanned_rows sp) i c else None.
Proof. apply grid_lookup. Qed.

Lemma scan_cells_keys (i : nat) (cells : list CellData) :
  forall (c0 : nat) (h : overlay),
  keys_shaped h -> keys_shaped (Route.scan_cells i c0 cells h).
Proof.
  induction cells as [|cl cells IH]; intros c0 h Hh; simpl; [exact Hh|].
  apply IH. destruct (hyperlink cl) as [[|x link]|]; try exact Hh.
  destruct ((c0 =? 6)%nat || (c0 =? 7)%nat); [|exact Hh].
  intros k l. rewrite lookup_insert. case_decide as Hk.
  - intros _. subst k. eauto.
  - apply Hh.
Qed.

Lemma scan_rows_keys (rws : list RowData) :
  forall (i0 : nat) (h : overlay),
  keys_shaped h -> keys_shaped (Route.scan_rows i0 rws h).
Proof.
  induction rws as [|r rws IH]; intros i0 h Hh; simpl; [exact Hh|].
  apply IH. destruct (values r); [|exact Hh]. now apply scan_cells_keys.
Qed.

(** X3. The reader's overlay holds nothing else: every entry is the non-empty link
    of a grid cell in column 6 or 7, stored under the key of that cell. *)
Theorem reader_overlay_entries (sp : Spreadsheet) :
  entries_from (scanned_rows sp) (Route.grid_hyperlinks sp).
Proof.
  assert (Hk : keys_shaped (Route.grid_hyperlinks sp)).
  { assert (H0 : keys_shaped (∅ : overlay)).
    { intros k link H. rewrite lookup_empty in H. discriminate. }
    unfold Route.grid_hyperlinks.
    destruct (sheets sp) as [[|sheet0 ?]|]; try exact H0.
    destruct (data sheet0) as [[|gridData ?]|]; try exact H0.
    destruct (rowData gridData); try exact H0.
    now apply scan_rows_keys. }
  intros k link H. destruct (Hk k link H) as (i & c & ->).
  rewrite grid_lookup in H.
  destruct (image_column c) eqn:Himg; [|discriminate].
  exists i, c. auto.
Qed.

(** X4. In a run the overlay is the reader's, and there an entry always
    wins: whatever the cell holds, [extractUrl] returns the link that the
    reader stored for the row and column. *)
Theorem reader_link_wins (sp : Spreadsheet) (i c : nat) (link : jsstring)
    (v : value) :
  Route.grid_hyperlinks sp !! hyperlinkKey i c = Some link ->
  Route.extractUrl (Route.grid_hyperlinks sp) i c v = Some link.
Proof.
  intros H. pose proof (grid_hyperlinks_nonempty sp _ _ H) as Hne.
  unfold Route.extractUrl. unfold jsstring in *. rewrite H.
  destruct link; [congruence|reflexivity].
Qed.

Lemma reader_link_wins_witness :
  Route.grid_hyperlinks sample_grid !! hyperlinkKey 0 6
  = Some (js "https://cdn.example.com/a.jpg")
  /\ Route.extractUrl (Route.grid_hyperlinks sample_grid) 0 6
       (text "see the picture")
     = Some (js "https://cdn.example.com/a.jpg").
Proof.
  split; [vm_compute; reflexivity|].
  apply (reader_link_wins sample_grid 0 6). vm_compute; reflexivity.
Defined.

(** ** Failures of the writer *)

Lemma deleteAllProducts_throws (w w' : world) (e : exn) :
  Route.deleteAllProducts w = (Throw e, w') ->
  table w' = table w
  /\ ((exists m, e = Error (js "Failed to fetch products: " ++ m)
                 /\ trace w' = trace w ++ [DbSelect])
      \/ (exists m, e = Error (js "Failed to delete products: " ++ m)
                    /\ table w <> []
                    /\ trace w' = trace w
                                  ++ [DbSelect; DbDelete (map fst (table w))])).
Proof.
  destruct w as [sv sg tb nx errs tr].
  unfold Route.deleteAllProducts, bindM, db_select, db_delete, next_error,
    log, set_table, throw, ret. simpl.
  destruct errs as [|[m|] errs]; simpl.
  - destruct tb as [|r tb]; simpl; discriminate.
  - intros [= <- <-]. simpl. split; [reflexivity|]. left. eauto.
  - destruct tb as [|r tb]; simpl; [discriminate|].
    destruct errs as [|[m|] errs]; simpl; try discriminate.
    intros [= <- <-]. simpl. split; [reflexivity|]. right.
    exists m. split_and!; [reflexivity | discriminate |].
    now rewrite <- app_assoc.
Qed.

(** X5. When [deleteAllProducts] throws, the table is as it was. Either the
    select failed, the message names the fetch and no delete was sent; or
    the one delete of every identifier failed and the message names the
    delete. *)
Theorem deleteAllProducts_failure (w w' : world) (e : exn) :
  Route.deleteAllProducts w = (Throw e, w') ->
  table w' = table w
  /\ ((exists m, e = Error (js "Failed to fetch products: " ++ m)
                 /\ trace w' = trace w ++ [DbSelect])
      \/ (exists m, e = Error (js "Failed to delete products: " ++ m)
                    /\ table w <> []
                    /\ trace w' = trace w
                                  ++ [DbSelect; DbDelete (map fst (table w))])).
Proof. apply deleteAllProducts_throws. Qed.

Lemma deleteAllProducts_failure_witness :
  Route.deleteAllProducts
    (mkWorld (Ok None) (Ok (mkSpreadsheet None)) [(7, old_plate)] 8
             [None; Some (js "timeout")] [])
  = (Throw (Error (js "Failed to delete products: timeout")),
     mkWorld (Ok None) (Ok (mkSpreadsheet None)) [(7, old_plate)] 8 []
             [DbSelect; DbDelete [7]])
  /\ table (mkWorld (Ok None) (Ok (mkSpreadsheet None)) [(7, old_plate)] 8 []
              [DbSelect; DbDelete [7]]) = [(7, old_plate)].
Proof.
  split; [vm_compute; reflexivity|].
  apply (deleteAllProducts_failure
           (mkWorld (Ok None) (Ok (mkSpreadsheet None)) [(7, old_plate)] 8
                    [None; Some (js "timeout")] [])
           _ (Error (js "Failed to delete products: timeout"))).
  vm_compute; reflexivity.
Defined.

Lemma db_insert_any (batch : list product) (w : world) :
  exists err w1,
    db_insert batch w = (Ok err, w1)
    /\ trace w1 = trace w ++ [DbInsert batch]
    /\ db_errors w1 = tail (db_errors w)
    /\ sheet_values w1 = sheet_values w /\ sheet_grid w1 = sheet_grid w
    /\ match err with
       | Some m => head (db_errors w) = Some (Some m)
                   /\ table w1 = table w /\ next_id w1 = next_id w
       | None => (head (db_errors w) = None \/ head (db_errors w) = Some None)
                 /\ table w1 = table w ++ with_ids (next_id w) batch
                 /\ next_id w1 = next_id w + N.of_nat (length batch)
       end.
Proof.
  destruct w as [sv sg tb nx errs tr].
  unfold db_insert, next_error, log, set_table. simpl.
  destruct errs as [|[m|] errs]; simpl; eexists _, _;
    (split; [reflexivity|]); simpl; split_and!; auto.
Qed.

(** The loop of [insertProducts], when it throws. *)
Lemma insert_from_failure (products : list product) (n : nat) :
  forall (i : nat) (w w' : world) (e : exn),
  Route.insert_from n i products w = (Throw e, w') ->
  exists k m,
    (k < n)%nat
    /\ e = Error (js "Failed to insert products batch "
                    ++ digits_of_nat ((i + k * Route.batchSize)
                                        / Route.batchSize + 1)
                    ++ js ": " ++ m)
    /\ table w' = table w
                  ++ with_ids (next_id w)
                       (take (k * Route.batchSize) (drop i products))
    /\ trace w' = trace w
                  ++ map (fun j => DbInsert (take Route.batchSize
                                     (drop (i + j * Route.batchSize) products)))
                       (seq 0 (S k)).
Proof.
  induction n as [|n IH]; intros i w w' e.
  - simpl. discriminate.
  - cbn [Route.insert_from]. unfold bindM at 1.
    destruct (db_insert_any (take Route.batchSize (drop i products)) w)
      as (err & w1 & -> & Htr & _ & _ & _ & Herr).
    destruct err as [m|].
    + destruct Herr as (_ & Ht & Hn). unfold throw. intros [= <- <-].
      exists 0%nat, m. split_and!; [lia | | |].
      * now rewrite Nat.add_0_r.
      * simpl. now rewrite Ht, app_nil_r.
      * simpl. now rewrite Htr, Nat.add_0_r.
    + destruct Herr as (_ & Ht & Hn). intros H.
      apply IH in H. destruct H as (k & m & Hk & -> & Ht' & Htr').
      exists (S k), m. split_and!; [lia | | |].
      * now replace (i + S k * Route.batchSize)%nat
          with (i + Route.batchSize + k * Route.batchSize)%nat by lia.
      * rewrite Ht', Ht, Hn, <- app_assoc. f_equal.
        rewrite <- with_ids_app. f_equal.
        rewrite <- (drop_drop products Route.batchSize i).
        change (S k * Route.batchSize)%nat
          with (Route.batchSize + k * Route.batchSize)%nat.
        apply take_take_drop.
      * rewrite Htr', Htr, <- app_assoc. f_equal.
        change (seq 0 (S (S k))) with (0%nat :: seq 1 (S k)).
        cbn [map app]. f_equal; [now rewrite Nat.add_0_r|].
        rewrite <- seq_shift, map_map. apply map_ext. intros j.
        now replace (i + S j * Route.batchSize)%nat
          with (i + Route.batchSize + j * Route.batchSize)%nat by lia.
Qed.

Lemma insertProducts_throws
    (products : list product) (w w' : world) (e : exn) :
  Route.insertProducts products w = (Throw e, w') ->
  exists k m,
    (k < length (batches products))%nat
    /\ e = Error (js "Failed to insert products batch "
                    ++ digits_of_nat (k + 1) ++ js ": " ++ m)
    /\ table w' = table w
                  ++ with_ids (next_id w) (take (k * Route.batchSize) products)
    /\ trace w' = trace w ++ map DbInsert (take (S k) (batches products)).
Proof.
  unfold Route.insertProducts. destruct products as [|p products];
    [discriminate|].
  set (l := p :: products). intros H. apply insert_from_failure in H.
  destruct H as (k & m & Hk & -> & Ht & Htr).
  exists k, m. split_and!.
  - unfold batches. now rewrite length_map, length_seq.
  - simpl (0 + _)%nat. now rewrite Nat.div_mul by discriminate.
  - rewrite Ht. now rewrite drop_0.
  - rewrite Htr. f_equal. unfold batches.
    rewrite firstn_map, map_map, take_seq, Nat.min_l by lia. reflexivity.
Qed.

(** X6. When [insertProducts] throws, some batch was refused: the message
    carries its number, counted from 1; the batches before it stay in the
    table, nothing of the refused batch or of the later ones is written,
    and no insert is sent after the refused one. *)
Theorem insertProducts_failure
    (products : list product) (w w' : world) (e : exn) :
  Route.insertProducts products w = (Throw e, w') ->
  exists k m,
    (k < length (batches products))%nat
    /\ e = Error (js "Failed to insert products batch "
                    ++ digits_of_nat (k + 1) ++ js ": " ++ m)
    /\ table w' = table w
                  ++ with_ids (next_id w) (take (k * Route.batchSize) products)
    /\ trace w' = trace w ++ map DbInsert (take (S k) (batches products)).
Proof. apply insertProducts_throws. Qed.

Lemma insertProducts_failure_witness :
  Route.insertProducts many_vases second_call_fails
  = (Throw (Error (js "Failed to insert products batch 2: payload too large")),
     snd (Route.insertProducts many_vases second_call_fails))
  /\ exists k m,
       (k < length (batches many_vases))%nat
       /\ Error (js "Failed to insert products batch 2: payload too large")
          = Error (js "Failed to insert products batch "
                     ++ digits_of_nat (k + 1) ++ js ": " ++ m)
       /\ table (snd (Route.insertProducts many_vases second_call_fails))
          = table second_call_fails
            ++ with_ids (next_id second_call_fails)
                 (take (k * Route.batchSize) many_vases)
       /\ trace (snd (Route.insertProducts many_vases second_call_fails))
          = trace second_call_fails
            ++ map DbInsert (take (S k) (batches many_vases)).
Proof.
  split; [vm_compute; reflexivity|].
  apply (insertProducts_failure many_vases second_call_fails).
  vm_compute; reflexivity.
Defined.

(** ** The batches *)

Lemma concat_chunks {A} (b : nat) (l : list A) (n : nat) :
  concat (map (fun k => take b (drop (k * b) l)) (seq 0 n)) = take (n * b) l.
Proof.
  induction n as [|n IH]; [reflexivity|].
  rewrite seq_S, map_app, concat_app, IH. simpl.
  rewrite app_nil_r, take_take_drop. f_equal. lia.
Qed.

(** X7. The batches cut the products into consecutive pieces: put end to
    end they give the products back; there are as many as the loop has
    iterations; each holds at least one record and at most 100, and every
    batch but the last holds exactly 100. *)
Theorem batches_partition (products : list product) :
  concat (batches products) = products
  /\ length (batches products) = Route.iterations (length products)
  /\ Forall (fun b => (1 <= length b <= Route.batchSize)%nat)
            (batches products)
  /\ (forall k b, batches products !! k = Some b ->
        (S k < length (batches products))%nat ->
        length b = Route.batchSize).
Proof.
  assert (Hlen : length (batches products)
                 = Route.iterations (length products)).
  { unfold batches. now rewrite length_map, length_seq. }
  assert (Hat : forall k b, batches products !! k = Some b ->
            (k < Route.iterations (length products))%nat
            /\ b = take Route.batchSize (drop (k * Route.batchSize) products)).
  { unfold batches. intros k b H.
    apply list_lookup_fmap_Some in H. destruct H as (j & -> & Hj).
    apply lookup_seq in Hj. destruct Hj as [-> Hj]. split; [lia | reflexivity]. }
  split_and!.
  - unfold batches. rewrite concat_chunks. apply take_ge, iterations_cover.
  - exact Hlen.
  - apply Forall_forall. intros b Hb.
    apply list_elem_of_lookup in Hb. destruct Hb as [k Hk].
    destruct (Hat k b Hk) as [Hlt ->].
    apply iterations_exact in Hlt.
    rewrite length_take, length_drop. unfold Route.batchSize in *. lia.
  - intros k b Hk Hnext. destruct (Hat k b Hk) as [_ ->].
    rewrite Hlen in Hnext. apply iterations_exact in Hnext.
    rewrite length_take, length_drop. unfold Route.batchSize in *. lia.
Qed.

(** ** When the writer returns *)

Lemma insert_from_returns (products : list product) (n : nat) :
  forall (i : nat) (w : world),
  database_accepts n w ->
  exists w', Route.insert_from n i products w = (Ok tt, w')
             /\ db_errors w' = drop n (db_errors w).
Proof.
  induction n as [|n IH]; intros i w Hdb.
  - exists w. split; [reflexivity|]. now rewrite drop_0.
  - cbn [Route.insert_from]. unfold bindM at 1.
    destruct (db_insert_any (take Route.batchSize (drop i products)) w)
      as (err & w1 & -> & _ & Herrs & _ & _ & Herr).
    unfold database_accepts in *.
    destruct (db_errors w) as [|e errs] eqn:E.
    + destruct err as [m|]; [destruct Herr as [Hh _]; discriminate|].
      destruct (IH (i + Route.batchSize)%nat w1) as (w' & Hw' & Hd).
      { rewrite Herrs. simpl. rewrite take_nil. constructor. }
      exists w'. split; [exact Hw'|]. rewrite Hd, Herrs. simpl.
      now rewrite drop_nil.
    + simpl in Hdb. apply Forall_cons in Hdb as [-> Hdb].
      destruct err as [m|]; [destruct Herr as [Hh _]; discriminate|].
      destruct (IH (i + Route.batchSize)%nat w1) as (w' & Hw' & Hd).
      { now rewrite Herrs. }
      exists w'. split; [exact Hw'|]. now rewrite Hd, Herrs.
Qed.

Lemma insertProducts_accepted (products : list product) (w : world) :
  database_accepts (length (batches products)) w ->
  exists w',
    Route.insertProducts products w = (Ok tt, w')
    /\ db_errors w' = drop (length (batches products)) (db_errors w).
Proof.
  assert (Hlen : length (batches products)
                 = Route.iterations (length products)).
  { unfold batches. now rewrite length_map, length_seq. }
  rewrite Hlen. unfold Route.insertProducts.
  destruct products as [|p products].
  - intros _. exists w. split; [reflexivity|]. now rewrite drop_0.
  - apply insert_from_returns.
Qed.

(** X8. [insertProducts] returns as soon as the database accepts as many
    calls as there are batches; it then has used exactly that many
    outcomes. *)
Theorem insertProducts_returns (products : list product) (w : world) :
  database_accepts (length (batches products)) w ->
  exists w',
    Route.insertProducts products w = (Ok tt, w')
    /\ db_errors w' = drop (length (batches products)) (db_errors w).
Proof. apply insertProducts_accepted. Qed.

Lemma insertProducts_returns_witness :
  database_accepts (length (batches many_vases)) sample_world
  /\ exists w',
       Route.insertProducts many_vases sample_world = (Ok tt, w')
       /\ db_errors w'
          = drop (length (batches many_vases)) (db_errors sample_world).
Proof.
  assert (H : database_accepts (length (batches many_vases)) sample_world)
    by constructor.
  split; [exact H|]. exact (insertProducts_returns many_vases sample_world H).
Defined.

(** ** Every run of the handler *)

Lemma configured_dec (pf : platform) (env : environment) :
  configured pf env \/ ~ configured pf env.
Proof.
  unfold configured.
  destruct (GOOGLE_SHEET_ID env) as [[|c1 s1]|] eqn:E1;
    try (right; intros (a & b & c & H & N & _); congruence).
  destruct (NEXT_PUBLIC_SUPABASE_URL env) as [[|c2 s2]|] eqn:E2;
    try (right; intros (a & b & c & _ & _ & H & N & _); congruence).
  destruct (SUPABASE_SERVICE_ROLE_KEY env) as [[|c3 s3]|] eqn:E3;
    try (right; intros (a & b & c & _ & _ & _ & _ & H & N & _); congruence).
  destruct (createClient pf (c2 :: s2) (c3 :: s3)) as [[]|e] eqn:E4;
    [|right; intros (a & b & c & _ & _ & H2 & _ & H3 & _ & H & _);
      injection H2 as <-; injection H3 as <-; congruence].
  destruct (Route.initializeSheetsAPI pf env) as [[]|e] eqn:E5;
    [|right; intros (a & b & c & _ & _ & _ & _ & _ & _ & _ & H); congruence].
  left. exists (c1 :: s1), (c2 :: s2), (c3 :: s3).
  split_and!; try reflexivity; try discriminate; assumption.
Qed.

(** An authorized request to a deployment that is not configured. *)
Lemma POST_unconfigured (pf : platform) (env : environment) (req : request)
    (w : world) :
  authorized env req -> ~ configured pf env ->
  exists e, Route.POST pf env req w = (failed e, w).
Proof.
  intros Ha Hn. unfold Route.POST.
  rewrite (POST_try_authorized pf env req w Ha).
  unfold configured in Hn.
  destruct (GOOGLE_SHEET_ID env) as [[|c1 s1]|] eqn:E1;
    try (eexists; reflexivity).
  destruct (NEXT_PUBLIC_SUPABASE_URL env) as [[|c2 s2]|] eqn:E2;
    try (eexists; reflexivity).
  destruct (SUPABASE_SERVICE_ROLE_KEY env) as [[|c3 s3]|] eqn:E3;
    try (eexists; reflexivity).
  unfold Route.required, bindM at 1, ret at 1.
  unfold bindM at 1, ret at 1. unfold bindM at 1, ret at 1.
  unfold bindM at 1, lift at 1.
  destruct (createClient pf (c2 :: s2) (c3 :: s3)) as [[]|e] eqn:E4;
    [|eexists; reflexivity].
  unfold bindM at 1, lift at 1.
  destruct (Route.initializeSheetsAPI pf env) as [[]|e] eqn:E5;
    [|eexists; reflexivity].
  exfalso. apply Hn. exists (c1 :: s1), (c2 :: s2), (c3 :: s3).
  split_and!; try reflexivity; try discriminate; assumption.
Qed.

(** An authorized request to a configured deployment, stage by stage. *)
Lemma POST_configured (pf : platform) (env : environment) (req : request)
    (w : world) :
  authorized env req -> configured pf env ->
  Route.POST pf env req w =
  match sheet_values w with
  | Throw e => (failed e, log SheetsValuesGet w)
  | Ok vs =>
      match sheet_grid w with
      | Throw e => (failed e, after_reads w)
      | Ok sp =>
          match snd (Route.processProducts (sheet_rows w) (sheet_hyperlinks w))
          with
          | Throw e => (failed e, after_reads w)
          | Ok products =>
              match Route.deleteAllProducts (after_reads w) with
              | (Throw e, w1) => (failed e, w1)
              | (Ok _, w1) =>
                  match Route.insertProducts products w1 with
                  | (Throw e, w2) => (failed e, w2)
                  | (Ok _, w2) =>
                      (mkResponse 200 (Success (length products)), w2)
                  end
              end
          end
      end
  end.
Proof.
  intros Ha (sheetId & url & key & H1 & N1 & H2 & N2 & H3 & N3 & H4 & H5).
  unfold Route.POST. rewrite (POST_try_authorized pf env req w Ha).
  rewrite H1, H2, H3.
  destruct sheetId as [|c1 s1]; [congruence|].
  destruct url as [|c2 s2]; [congruence|].
  destruct key as [|c3 s3]; [congruence|].
  unfold Route.required, bindM at 1, ret at 1.
  unfold bindM at 1, ret at 1. unfold bindM at 1, ret at 1.
  unfold bindM at 1, lift at 1. rewrite H4.
  unfold bindM at 1, lift at 1. rewrite H5.
  unfold bindM at 1. rewrite readSheetData_run.
  unfold sheet_rows, sheet_hyperlinks, after_reads.
  destruct (sheet_values w) as [vs|e]; [|reflexivity].
  destruct (sheet_grid w) as [sp|e]; [|reflexivity].
  unfold bindM at 1, lift at 1.
  destruct (snd (Route.processProducts (default [] vs)
                   (Route.grid_hyperlinks sp))) as [products|e];
    [|reflexivity].
  unfold bindM at 1.
  destruct (Route.deleteAllProducts _) as [[[]|e] w1]; [|reflexivity].
  unfold bindM at 1.
  destruct (Route.insertProducts products w1) as [[[]|e] w2]; reflexivity.
Qed.

(** With the secret set, a request is authorized or it is not. *)
Lemma authorization_cases (env : environment) (req : request)
    (secret : jsstring) :
  SYNC_SECRET_KEY env = Some secret -> secret <> [] ->
  authorized env req \/ unauthorized secret req.
Proof.
  intros Hk Hne. destruct (authorization req) as [header|] eqn:Ea;
    [|right; now left].
  destruct (startsWith Route.BEARER header) eqn:Es.
  - destruct (str_eqb (substring 7 header) secret) eqn:Et.
    + left. exists secret. split_and!; try assumption.
      apply str_eqb_eq in Et. apply startsWith_split in Es.
      rewrite Ea. f_equal. rewrite Es at 1. f_equal. exact Et.
    + right. right. exists header. split; [exact Ea|]. right.
      intros H. apply str_eqb_eq in H. congruence.
  - right. right. exists header. split; [exact Ea|]. now left.
Qed.

Lemma POST_unauthorized (pf : platform) (env : environment) (req : request)
    (w : world) (secret : jsstring) :
  SYNC_SECRET_KEY env = Some secret -> secret <> [] ->
  unauthorized secret req ->
  Route.POST pf env req w = (Route.UNAUTHORIZED, w).
Proof.
  intros Hkey Hne Hbad. unfold Route.POST, Route.POST_try. rewrite Hkey.
  destruct secret as [|k key]; [congruence|].
  destruct Hbad as [Hnone|(header & Hh & Hbad)].
  - rewrite Hnone. reflexivity.
  - rewrite Hh. destruct header as [|a auth]; [reflexivity|].
    destruct (startsWith Route.BEARER (a :: auth)) eqn:Es; [|reflexivity].
    destruct Hbad as [Hbad|Hbad]; [discriminate|].
    simpl negb. cbv iota.
    destruct (str_eqb (substring 7 (a :: auth)) (k :: key)) eqn:Et;
      [|reflexivity].
    apply str_eqb_eq in Et. congruence.
Qed.

(** Case analysis on a run: no secret, a rejected request, a deployment
    that is not configured, or the stages of [POST_configured]. *)
Lemma POST_cases (pf : platform) (env : environment) (req : request)
    (w : world) (P : response * world -> Prop) :
  P (mkResponse 500 (Failure (js "Server configuration error")), w) ->
  P (Route.UNAUTHORIZED, w) ->
  (forall e, P (failed e, w)) ->
  (authorized env req -> configured pf env ->
   P (match sheet_values w with
      | Throw e => (failed e, log SheetsValuesGet w)
      | Ok vs =>
          match sheet_grid w with
          | Throw e => (failed e, after_reads w)
          | Ok sp =>
              match snd (Route.processProducts (sheet_rows w)
                           (sheet_hyperlinks w)) with
              | Throw e => (failed e, after_reads w)
              | Ok products =>
                  match Route.deleteAllProducts (after_reads w) with
                  | (Throw e, w1) => (failed e, w1)
                  | (Ok _, w1) =>
                      match Route.insertProducts products w1 with
                      | (Throw e, w2) => (failed e, w2)
                      | (Ok _, w2) =>
                          (mkResponse 200 (Success (length products)), w2)
                      end
                  end
              end
          end
      end)) ->
  P (Route.POST pf env req w).
Proof.
  intros Hsecret Hreject Hconf Hrun.
  destruct (env_truthy (SYNC_SECRET_KEY env)) eqn:Et.
  - destruct (SYNC_SECRET_KEY env) as [[|k key]|] eqn:Ek; try discriminate.
    destruct (authorization_cases env req (k :: key) Ek ltac:(discriminate))
      as [Ha|Hu].
    + destruct (configured_dec pf env) as [Hc|Hn].
      * rewrite (POST_configured pf env req w Ha Hc). now apply Hrun.
      * destruct (POST_unconfigured pf env req w Ha Hn) as [e ->]. apply Hconf.
    + rewrite (POST_unauthorized pf env req w (k :: key) Ek
                 ltac:(discriminate) Hu). exact Hreject.
  - rewrite (POST_without_secret pf env req w Et). exact Hsecret.
Qed.

(** X9. Every answer of the handler is one of three: 200 with a count, 401
    with the error [Unauthorized], or 500 with an error message. *)
Theorem POST_answers (pf : platform) (env : environment) (req : request)
    (w : world) :
  let r := fst (Route.POST pf env req w) in
  (status r = 200%nat /\ exists n, json r = Success n)
  \/ r = mkResponse 401 (Failure (js "Unauthorized"))
  \/ (status r = 500%nat /\ exists m, json r = Failure m).
Proof.
  apply (POST_cases pf env req w
           (fun out => let r := fst out in
              (status r = 200%nat /\ exists n, json r = Success n)
              \/ r = mkResponse 401 (Failure (js "Unauthorized"))
              \/ (status r = 500%nat /\ exists m, json r = Failure m)));
    simpl.
  - right. right. eauto.
  - right. now left.
  - intros e. right. right. eauto.
  - intros _ _.
    destruct (sheet_values w); [|right; right; simpl; eauto].
    destruct (sheet_grid w); [|right; right; simpl; eauto].
    destruct (snd (Route.processProducts _ _));
      [|right; right; simpl; eauto].
    destruct (Route.deleteAllProducts _) as [[[]|e] w1];
      [|right; right; simpl; eauto].
    destruct (Route.insertProducts _ w1) as [[[]|e] w2];
      [left | right; right]; simpl; eauto.
Qed.

(** X10. The table never mixes old and new records. After any run it is
    the table found, untouched, or it holds a front part of the records
    the normalizer returned for the sheet (none of them after a failed
    first insert, all of them after a complete run) and no old record. *)
Theorem table_is_old_or_new (pf : platform) (env : environment)
    (req : request) (w : world) :
  let w' := snd (Route.POST pf env req w) in
  table w' = table w
  \/ exists products k,
       snd (Route.processProducts (sheet_rows w) (sheet_hyperlinks w))
       = Ok products
       /\ table w' = with_ids (next_id w) (take k products).
Proof.
  apply (POST_cases pf env req w
           (fun out =>
              table (snd out) = table w
              \/ exists products k,
                   snd (Route.processProducts (sheet_rows w)
                          (sheet_hyperlinks w)) = Ok products
                   /\ table (snd out)
                      = with_ids (next_id w) (take k products)));
    simpl; auto.
  intros _ _.
  destruct (sheet_values w); [|now left].
  destruct (sheet_grid w); [|now left].
  destruct (snd (Route.processProducts _ _)) as [products|e]; [|now left].
  destruct (Route.deleteAllProducts _) as [[[]|e] w1] eqn:Ed.
  - apply deleteAllProducts_ok in Ed. destruct Ed as (Ht1 & Hn1 & _).
    simpl in Hn1.
    destruct (Route.insertProducts products w1) as [[[]|e] w2] eqn:Ei.
    + apply insertProducts_ok in Ei. destruct Ei as [Ht _].
      right. exists products, (length products). split; [reflexivity|].
      simpl. rewrite Ht, Ht1, Hn1, firstn_all. reflexivity.
    + apply insertProducts_throws in Ei.
      destruct Ei as (k & m & _ & _ & Ht & _).
      right. exists products, (k * Route.batchSize)%nat.
      split; [reflexivity|]. simpl. now rewrite Ht, Ht1, Hn1.
  - apply deleteAllProducts_throws in Ed. destruct Ed as [Ht _].
    left. simpl. now rewrite Ht.
Qed.

Lemma kept_length (h : overlay) (rows : list row) :
  forall (i : nat) (products : list product),
  kept h i rows = Ok products -> (length products <= length rows)%nat.
Proof.
  induction rows as [|r rows IH]; intros i products Hk.
  - injection Hk as <-. reflexivity.
  - destruct (kept_cons _ _ _ _ _ Hk) as (o & rest & _ & Hrest & ->).
    apply IH in Hrest. destruct o; simpl; lia.
Qed.

(** The calls of any run, in their order. *)
Lemma POST_calls (pf : platform) (env : environment) (req : request)
    (w : world) :
  exists calls,
    trace (snd (Route.POST pf env req w)) = trace w ++ calls
    /\ (calls `prefix_of` [SheetsValuesGet; SheetsGet]
        \/ exists products,
             snd (Route.processProducts (sheet_rows w) (sheet_hyperlinks w))
             = Ok products
             /\ calls `prefix_of` run_calls (table w) products).
Proof.
  assert (Hnone : exists calls,
            trace w = trace w ++ calls
            /\ (calls `prefix_of` [SheetsValuesGet; SheetsGet]
                \/ exists products,
                     snd (Route.processProducts (sheet_rows w)
                            (sheet_hyperlinks w)) = Ok products
                     /\ calls `prefix_of` run_calls (table w) products)).
  { exists []. split; [now rewrite app_nil_r|]. left. apply prefix_nil. }
  apply (POST_cases pf env req w
           (fun out =>
              exists calls,
                trace (snd out) = trace w ++ calls
                /\ (calls `prefix_of` [SheetsValuesGet; SheetsGet]
                    \/ exists products,
                         snd (Route.processProducts (sheet_rows w)
                                (sheet_hyperlinks w)) = Ok products
                         /\ calls `prefix_of` run_calls (table w) products)));
    simpl; auto.
  intros _ _.
  assert (Hone : exists calls,
            trace (log SheetsValuesGet w) = trace w ++ calls
            /\ (calls `prefix_of` [SheetsValuesGet; SheetsGet]
                \/ exists products,
                     snd (Route.processProducts (sheet_rows w)
                            (sheet_hyperlinks w)) = Ok products
                     /\ calls `prefix_of` run_calls (table w) products)).
  { exists [SheetsValuesGet]. split; [reflexivity|]. left.
    now exists [SheetsGet]. }
  assert (Htwo : exists calls,
            trace (after_reads w) = trace w ++ calls
            /\ (calls `prefix_of` [SheetsValuesGet; SheetsGet]
                \/ exists products,
                     snd (Route.processProducts (sheet_rows w)
                            (sheet_hyperlinks w)) = Ok products
                     /\ calls `prefix_of` run_calls (table w) products)).
  { exists [SheetsValuesGet; SheetsGet].
    split; [simpl; now rewrite <- app_assoc|]. left. reflexivity. }
  destruct (sheet_values w); [|exact Hone].
  destruct (sheet_grid w); [|exact Htwo].
  destruct (snd (Route.processProducts _ _)) as [products|e]; [|exact Htwo].
  set (del := match table w with
              | [] => []
              | _ => [DbDelete (map fst (table w))]
              end).
  assert (Hreads : trace (after_reads w)
                   = trace w ++ [SheetsValuesGet; SheetsGet])
    by (simpl; now rewrite <- app_assoc).
  destruct (Route.deleteAllProducts _) as [[[]|e] w1] eqn:Ed.
  - apply deleteAllProducts_ok in Ed. destruct Ed as (_ & _ & Htr1).
    simpl table in Htr1. fold del in Htr1. rewrite Hreads in Htr1.
    destruct (Route.insertProducts products w1) as [[[]|e] w2] eqn:Ei.
    + apply insertProducts_ok in Ei. destruct Ei as [_ Htr].
      exists (run_calls (table w) products). split.
      * simpl. rewrite Htr, Htr1. unfold run_calls. fold del.
        rewrite <- !app_assoc. reflexivity.
      * right. exists products. split; reflexivity.
    + apply insertProducts_throws in Ei.
      destruct Ei as (k & m & _ & _ & _ & Htr).
      exists ([SheetsValuesGet; SheetsGet; DbSelect] ++ del
              ++ map DbInsert (take (S k) (batches products))). split.
      * simpl. rewrite Htr, Htr1. rewrite <- !app_assoc. reflexivity.
      * right. exists products. split; [reflexivity|]. unfold run_calls.
        fold del. do 2 apply prefix_app. rewrite <- firstn_map.
        apply prefix_take.
  - apply deleteAllProducts_throws in Ed.
    destruct Ed as [_ [(m & _ & Htr)|(m & _ & Hne & Htr)]];
      simpl table in *; rewrite Hreads in Htr.
    + exists [SheetsValuesGet; SheetsGet; DbSelect]. split.
      * simpl. rewrite Htr, <- !app_assoc. reflexivity.
      * right. exists products. split; [reflexivity|]. unfold run_calls.
        now exists (del ++ map DbInsert (batches products)).
    + exists ([SheetsValuesGet; SheetsGet; DbSelect] ++ del). split.
      * simpl. rewrite Htr, <- !app_assoc. subst del.
        destruct (table w); [congruence | reflexivity].
      * right. exists products. split; [reflexivity|]. unfold run_calls.
        fold del. rewrite app_assoc. now exists (map DbInsert (batches products)).
Qed.

(** X11. The calls of a run are always made in one order: the values read,
    the grid read, the select, the delete (when the table held anything),
    then the inserts batch by batch. A run that stops early has made a
    front part of that sequence; in particular nothing is written before
    both reads and the normalizer have succeeded, and nothing is inserted
    before the delete. *)
Theorem POST_calls_in_order (pf : platform) (env : environment)
    (req : request) (w : world) :
  exists calls,
    trace (snd (Route.POST pf env req w)) = trace w ++ calls
    /\ (calls `prefix_of` [SheetsValuesGet; SheetsGet]
        \/ exists products,
             snd (Route.processProducts (sheet_rows w) (sheet_hyperlinks w))
             = Ok products
             /\ calls `prefix_of` run_calls (table w) products).
Proof. apply POST_calls. Qed.

(** X12. An authorized request to a deployment whose configuration is not
    complete (a required variable missing or empty, or a client that
    cannot be made) is answered 500 before anything is read or written. *)
Theorem incomplete_configuration_stops_early
    (pf : platform) (env : environment) (req : request) (w : world) :
  authorized env req -> ~ configured pf env ->
  exists m,
    Route.POST pf env req w = (mkResponse 500 (Failure m), w).
Proof.
  intros Ha Hn. destruct (POST_unconfigured pf env req w Ha Hn) as [e He].
  exists (exn_message e). exact He.
Qed.

Lemma incomplete_configuration_stops_early_witness :
  authorized no_sheet_env sample_request
  /\ ~ configured sample_platform no_sheet_env
  /\ exists m,
       Route.POST sample_platform no_sheet_env sample_request sample_world
       = (mkResponse 500 (Failure m), sample_world).
Proof.
  assert (Ha : authorized no_sheet_env sample_request).
  { exists (js "s3cret"). split_and!; [reflexivity | discriminate | reflexivity]. }
  assert (Hn : ~ configured sample_platform no_sheet_env).
  { intros (a & b & c & H & _). discriminate H. }
  split_and!; try assumption.
  exact (incomplete_configuration_stops_early sample_platform no_sheet_env
           sample_request sample_world Ha Hn).
Defined.

(** X13. When a read of the sheet fails, or the normalizer throws, the run
    is answered 500 with the message of that error and the database is not
    called: the world is the one found, with the reads made added to the
    trace (the grid read is not made after a failed values read). *)
Theorem failure_before_the_writer
    (pf : platform) (env : environment) (req : request) (w : world)
    (e : exn) :
  authorized env req -> configured pf env ->
  (sheet_values w = Throw e
   -> Route.POST pf env req w
      = (mkResponse 500 (Failure (exn_message e)), log SheetsValuesGet w))
  /\ ((exists vs, sheet_values w = Ok vs) -> sheet_grid w = Throw e
      -> Route.POST pf env req w
         = (mkResponse 500 (Failure (exn_message e)), after_reads w))
  /\ (readable w
      -> snd (Route.processProducts (sheet_rows w) (sheet_hyperlinks w))
         = Throw e
      -> Route.POST pf env req w
         = (mkResponse 500 (Failure (exn_message e)), after_reads w)).
Proof.
  intros Ha Hc. rewrite (POST_configured pf env req w Ha Hc). split_and!.
  - intros ->. reflexivity.
  - intros [vs ->] ->. reflexivity.
  - intros [[vs ->] [sp ->]] ->. reflexivity.
Qed.

Lemma failure_before_the_writer_witness :
  authorized sample_env sample_request
  /\ configured sample_platform sample_env
  /\ readable numeric_name_world
  /\ snd (Route.processProducts (sheet_rows numeric_name_world)
            (sheet_hyperlinks numeric_name_world))
     = Throw (TypeError (js "row[0]?.trim is not a function"))
  /\ Route.POST sample_platform sample_env sample_request numeric_name_world
     = (mkResponse 500 (Failure (js "row[0]?.trim is not a function")),
        after_reads numeric_name_world).
Proof.
  assert (Ha : authorized sample_env sample_request).
  { exists (js "s3cret"). split_and!; [reflexivity | discriminate | reflexivity]. }
  assert (Hc : configured sample_platform sample_env).
  { exists (js "sheet-1"), (js "https://db.example.com"), (js "service-key").
    split_and!; try reflexivity; discriminate. }
  assert (Hr : readable numeric_name_world) by (split; eexists; reflexivity).
  assert (Hp : snd (Route.processProducts (sheet_rows numeric_name_world)
                      (sheet_hyperlinks numeric_name_world))
               = Throw (TypeError (js "row[0]?.trim is not a function")))
    by reflexivity.
  split_and!; try assumption.
  exact (proj2 (proj2 (failure_before_the_writer sample_platform sample_env
                         sample_request numeric_name_world _ Ha Hc)) Hr Hp).
Defined.

Lemma deleteAllProducts_healthy (w : world) :
  database_healthy w ->
  exists w', Route.deleteAllProducts w = (Ok tt, w') /\ database_healthy w'.
Proof.
  destruct w as [sv sg tb nx errs tr]. unfold database_healthy. simpl.
  unfold Route.deleteAllProducts, bindM, db_select, db_delete, next_error,
    log, set_table, throw, ret. simpl.
  intros H.
  destruct errs as [|e1 errs]; simpl.
  - destruct tb; simpl; eexists; split; try reflexivity; constructor.
  - apply Forall_cons in H as [-> H]. simpl.
    destruct tb as [|r tb]; simpl; [eexists; split; [reflexivity|exact H]|].
    destruct errs as [|e2 errs]; simpl;
      [eexists; split; [reflexivity|constructor]|].
    apply Forall_cons in H as [-> H]. simpl.
    eexists; split; [reflexivity|exact H].
Qed.

(** X14. A run cannot fail on its own: for an authorized request, a
    complete configuration, a readable sheet whose name and brand cells are
    absent, [null] or strings, and a database that refuses no call, the
    answer is 200 with the number of records the normalizer returned, and
    the table holds these records. *)
Theorem healthy_run_succeeds
    (pf : platform) (env : environment) (req : request) (w : world) :
  authorized env req -> configured pf env -> readable w ->
  Forall (fun r => trimmable (cell r 0) /\ trimmable (cell r 1))
         (sheet_rows w) ->
  database_healthy w ->
  exists products w',
    snd (Route.processProducts (sheet_rows w) (sheet_hyperlinks w))
    = Ok products
    /\ Route.POST pf env req w
       = (mkResponse 200 (Success (length products)), w')
    /\ map snd (table w') = products.
Proof.
  intros Ha Hc Hr Hrows Hdb.
  destruct (processProducts_returns _ (sheet_hyperlinks w) Hrows)
    as [products Hp].
  destruct (deleteAllProducts_healthy (after_reads w) Hdb) as (w1 & Hd & Hdb1).
  destruct (insertProducts_accepted products w1) as (w2 & Hi & _).
  { unfold database_accepts. now apply Forall_take. }
  exists products, w2. split; [exact Hp|].
  rewrite (POST_configured pf env req w Ha Hc).
  destruct Hr as [[vs Hv] [sp Hg]]. rewrite Hv, Hg, Hp, Hd, Hi.
  split; [reflexivity|].
  apply deleteAllProducts_ok in Hd. destruct Hd as (Ht1 & _ & _).
  apply insertProducts_ok in Hi. destruct Hi as [Ht _].
  rewrite Ht, Ht1. apply with_ids_records.
Qed.

Lemma healthy_run_succeeds_witness :
  authorized sample_env sample_request
  /\ configured sample_platform sample_env
  /\ readable sample_world
  /\ Forall (fun r => trimmable (cell r 0) /\ trimmable (cell r 1))
            (sheet_rows sample_world)
  /\ database_healthy sample_world
  /\ exists products w',
       snd (Route.processProducts (sheet_rows sample_world)
              (sheet_hyperlinks sample_world)) = Ok products
       /\ Route.POST sample_platform sample_env sample_request sample_world
          = (mkResponse 200 (Success (length products)), w')
       /\ map snd (table w') = products.
Proof.
  assert (Ha : authorized sample_env sample_request).
  { exists (js "s3cret"). split_and!; [reflexivity | discriminate | reflexivity]. }
  assert (Hc : configured sample_platform sample_env).
  { exists (js "sheet-1"), (js "https://db.example.com"), (js "service-key").
    split_and!; try reflexivity; discriminate. }
  assert (Hr : readable sample_world) by (split; eexists; reflexivity).
  assert (Hrows : Forall (fun r => trimmable (cell r 0) /\ trimmable (cell r 1))
                         (sheet_rows sample_world)).
  { repeat constructor. }
  assert (Hdb : database_healthy sample_world) by constructor.
  split_and!; try assumption.
  exact (healthy_run_succeeds sample_platform sample_env sample_request
           sample_world Ha Hc Hr Hrows Hdb).
Defined.

Lemma iterations_small (len : nat) :
  (len <= Route.batchSize)%nat -> (Route.iterations len <= 1)%nat.
Proof.
  intros H. destruct (Nat.le_gt_cases (Route.iterations len) 1) as [|Hgt];
    [assumption|].
  apply iterations_exact in Hgt. lia.
Qed.

Lemma filter_inserts (l : list (list product)) :
  List.filter is_insert (map DbInsert l) = map DbInsert l.
Proof. induction l as [|b l IH]; simpl; [reflexivity | now rewrite IH]. Qed.

Lemma inserts_of_run (found : list (N * product)) (products : list product) :
  length (List.filter is_insert (run_calls found products))
  = Route.iterations (length products).
Proof.
  unfold run_calls. rewrite !List.filter_app. simpl.
  assert (Hdel : List.filter is_insert
                   match found with
                   | [] => []
                   | _ :: _ => [DbDelete (map fst found)]
                   end = []) by now destruct found.
  rewrite Hdel, filter_inserts. simpl. unfold batches.
  now rewrite !length_map, length_seq.
Qed.

(** X15. A sheet of at most 100 rows is written with at most one insert
    call, whatever else happens in the run. *)
Theorem small_sheet_one_insert (pf : platform) (env : environment)
    (req : request) (w : world) :
  (length (sheet_rows w) <= 100)%nat ->
  exists calls,
    trace (snd (Route.POST pf env req w)) = trace w ++ calls
    /\ (length (List.filter is_insert calls) <= 1)%nat.
Proof.
  intros Hlen. destruct (POST_calls pf env req w) as (calls & Htr & Hcalls).
  exists calls. split; [exact Htr|].
  destruct Hcalls as [[k Hk]|(products & Hp & [k Hk])].
  - apply (f_equal (fun l => length (List.filter is_insert l))) in Hk.
    rewrite List.filter_app, length_app in Hk. simpl in Hk. lia.
  - apply (f_equal (fun l => length (List.filter is_insert l))) in Hk.
    rewrite List.filter_app, length_app, inserts_of_run in Hk.
    rewrite processProducts_kept in Hp. apply kept_length in Hp.
    pose proof (iterations_small (length products)) as Hs.
    unfold Route.batchSize in Hs. lia.
Qed.

Lemma small_sheet_one_insert_witness :
  (length (sheet_rows sample_world) <= 100)%nat
  /\ exists calls,
       trace (snd (Route.POST sample_platform sample_env sample_request
                     sample_world))
       = trace sample_world ++ calls
       /\ (length (List.filter is_insert calls) <= 1)%nat.
Proof.
  assert (H : (length (sheet_rows sample_world) <= 100)%nat)
    by (vm_compute; lia).
  split; [exact H|].
  exact (small_sheet_one_insert sample_platform sample_env sample_request
           sample_world H).
Defined.

(** ** More on the records *)

Lemma trim_or_null_some (what : string) (v : value) (b : jsstring) :
  trim_or_null what v = Ok (Some b) ->
  b <> [] /\ exists s, v = Str s /\ b = trim s.
Proof.
  destruct v as [| |x|x|s]; simpl; try discriminate.
  destruct (trim s) as [|c t] eqn:E; [discriminate|].
  intros [= <-]. split; [discriminate|]. exists s. auto.
Qed.

Lemma map_callback_brand (h : overlay) (r : row) (i : nat) (p : product) :
  Route.map_callback h r i = Ok (Some p) ->
  trim_or_null "row[1]?.trim" (cell r 1) = Ok (brand p).
Proof.
  unfold Route.map_callback.
  destruct (trim_or_null _ (cell r 0)) as [nm|e]; simpl; [|discriminate].
  destruct (trim_or_null _ (cell r 1)) as [br|e]; simpl; [|discriminate].
  destruct nm; [|discriminate].
  destruct (le_zero _); [discriminate|]. now intros [= <-].
Qed.

(** X16. The brand of a returned record is absent or a non-empty text
    without white space at its ends: an empty or blank brand cell never
    becomes an empty brand. *)
Theorem brand_is_absent_or_trimmed
    (rows : list row) (h : overlay) (products : list product) :
  snd (Route.processProducts rows h) = Ok products ->
  Forall (fun p => match brand p with
                   | None => True
                   | Some b => b <> [] /\ trim b = b
                   end) products.
Proof.
  rewrite processProducts_kept. intros Hk.
  apply Forall_forall. intros p Hp.
  destruct (kept_origin _ _ _ _ _ Hk Hp) as (k & r & _ & Hcb).
  apply map_callback_brand in Hcb.
  destruct (brand p) as [b|]; [|exact I].
  apply trim_or_null_some in Hcb. destruct Hcb as (Hne & s & _ & ->).
  split; [exact Hne | apply trim_idempotent].
Qed.

Lemma brand_is_absent_or_trimmed_witness :
  snd (Route.processProducts branded_rows ∅)
  = Ok [mkProduct (js "Vase A") (Some (js "Lalique")) (Finite false 12 0)
          None None None]
  /\ Forall (fun p => match brand p with
                      | None => True
                      | Some b => b <> [] /\ trim b = b
                      end)
            [mkProduct (js "Vase A") (Some (js "Lalique")) (Finite false 12 0)
               None None None].
Proof.
  split; [vm_compute; reflexivity|].
  apply (brand_is_absent_or_trimmed branded_rows ∅). vm_compute; reflexivity.
Defined.

Lemma strip10_exponent (fuel : nat) :
  forall (m : N) (e : Z) (m' : N) (e' : Z),
  strip10 fuel m e = (m', e') -> (e <= e')%Z /\ (m <> 0 -> m' <> 0).
Proof.
  induction fuel as [|fuel IH]; intros m e m' e'; simpl.
  - intros [= <- <-]. split; [lia | auto].
  - destruct (m mod 10 =? 0) eqn:E.
    + intros H. apply IH in H. destruct H as [He Hm]. split; [lia|].
      intros Hne. apply Hm. apply N.eqb_eq in E.
      pose proof (N.div_mod m 10 ltac:(discriminate)) as Hd.
      rewrite E in Hd. intros H0. rewrite H0 in Hd. lia.
    + intros [= <- <-]. split; [lia | auto].
Qed.

Lemma to_number_whole (neg : bool) (m : N) (n : bool) (m' : N) (e' : Z) :
  to_number neg m 0 = Finite n m' e' -> (0 <= e')%Z.
Proof.
  unfold to_number.
  destruct (m =? 0); [intros [= _ _ <-]; lia|].
  destruct (overflows m 0); [discriminate|].
  destruct (underflows m 0); [intros [= _ _ <-]; lia|].
  destruct (normal m 0) as [m1 e1] eqn:En. intros [= _ _ <-].
  unfold normal in En. apply strip10_exponent in En. tauto.
Qed.

Lemma parseInt_whole (s : jsstring) (n : bool) (m : N) (e : Z) :
  parseInt s = Finite n m e -> (0 <= e)%Z.
Proof.
  unfold parseInt.
  destruct (split_sign (trimStart s)) as [neg t].
  destruct (radix_prefix t) as [radix u].
  destruct (takeWhile _ u); [discriminate|].
  apply to_number_whole.
Qed.

(** X17. The stock of a returned record is a whole number greater than
    zero (or the positive infinity of an overlong digit string): a
    fractional stock text is cut at the decimal point, never rounded or
    kept. *)
Theorem stock_is_positive_whole
    (rows : list row) (h : overlay) (products : list product) :
  snd (Route.processProducts rows h) = Ok products ->
  Forall (fun p => positive_whole (stock p)) products.
Proof.
  rewrite processProducts_kept. intros Hk.
  apply Forall_forall. intros p Hp.
  destruct (kept_origin _ _ _ _ _ Hk Hp) as (k & r & _ & Hcb).
  destruct (map_callback_some _ _ _ _ Hcb) as (_ & _ & _ & _ & Hs & Hgt & _).
  rewrite Hs in *. unfold Route.parseStock in *.
  destruct (parseInt (ToString (cell r 4))) as [|neg|neg m e] eqn:E;
    simpl in *; try discriminate.
  - destruct neg; [discriminate|]. now left.
  - destruct (m =? 0) eqn:Em; simpl in *; [discriminate|].
    rewrite Em in Hgt. destruct neg; [discriminate|]. right.
    exists m, e. split_and!; [reflexivity | apply N.eqb_neq in Em; lia |].
    eapply parseInt_whole; eauto.
Qed.

Lemma stock_is_positive_whole_witness :
  snd (Route.processProducts branded_rows ∅)
  = Ok [mkProduct (js "Vase A") (Some (js "Lalique")) (Finite false 12 0)
          None None None]
  /\ Forall (fun p => positive_whole (stock p))
            [mkProduct (js "Vase A") (Some (js "Lalique")) (Finite false 12 0)
               None None None].
Proof.
  split; [vm_compute; reflexivity|].
  apply (stock_is_positive_whole branded_rows ∅). vm_compute; reflexivity.
Defined.

Lemma map_callback_core (h h' : overlay) (r : row) (i : nat) :
  result_map (option_map core) (Route.map_callback h r i)
  = result_map (option_map core) (Route.map_callback h' r i).
Proof.
  unfold Route.map_callback.
  destruct (trim_or_null _ (cell r 0)) as [nm|e]; simpl; [|reflexivity].
  destruct (trim_or_null _ (cell r 1)) as [br|e]; simpl; [|reflexivity].
  destruct nm; [|reflexivity].
  destruct (le_zero _); reflexivity.
Qed.

Lemma map_indexed_core (h h' : overlay) (rows : list row) :
  forall i,
  result_map (map (option_map core))
    (map_indexed (Route.map_callback h) i rows)
  = result_map (map (option_map core))
      (map_indexed (Route.map_callback h') i rows).
Proof.
  induction rows as [|r rows IH]; intros i; simpl; [reflexivity|].
  pose proof (map_callback_core h h' r i) as Hr. specialize (IH (S i)).
  destruct (Route.map_callback h r i) as [o|e],
           (Route.map_callback h' r i) as [o'|e']; simpl in *;
    try discriminate; [|congruence].
  injection Hr as Hr.
  destruct (map_indexed (Route.map_callback h) (S i) rows) as [m|e],
           (map_indexed (Route.map_callback h') (S i) rows) as [m'|e'];
    simpl in *; try discriminate; congruence.
Qed.

Lemma core_filter (l : list (option product)) :
  map core (filter_non_null l) = filter_non_null (map (option_map core) l).
Proof.
  unfold filter_non_null. induction l as [|[p|] l IH]; [reflexivity | |].
  - change (core p :: map core (omap id l)
            = core p :: omap id (map (option_map core) l)).
    now rewrite IH.
  - exact IH.
Qed.

(** X18. The hyperlink overlay decides nothing but the image links: under
    any two overlays the normalizer keeps the same rows, with the same
    names, brands, stocks and prices, or throws the same exception. *)
Theorem overlay_changes_image_links_only
    (rows : list row) (h h' : overlay) :
  result_map (map core) (snd (Route.processProducts rows h))
  = result_map (map core) (snd (Route.processProducts rows h')).
Proof.
  rewrite !processProducts_kept. unfold kept.
  pose proof (map_indexed_core h h' rows 0) as H.
  destruct (map_indexed (Route.map_callback h) 0 rows) as [m|e],
           (map_indexed (Route.map_callback h') 0 rows) as [m'|e'];
    simpl in *; try discriminate; [|congruence].
  injection H as H. now rewrite !core_filter, H.
Qed.

Lemma extractUrl_nonempty (h : overlay) (i c : nat) (v : value) :
  Route.extractUrl h i c v <> Some [].
Proof.
  intros H. destruct (extractUrl_origin h i c v [] H) as [Hs|Ho].
  - discriminate.
  - unfold Route.extractUrl in H. unfold jsstring in *. rewrite Ho in H.
    destruct (negb (truthy v)); [discriminate|].
    destruct (trim (ToString v)) as [|d t] eqn:Et; [discriminate|].
    destruct (startsWith HTTP (d :: t) || startsWith HTTPS (d :: t));
      [discriminate|].
    apply url_match_first in H. destruct H as (_ & _ & _ & Hu & _).
    now apply url_text_nonempty in Hu.
Qed.

(** X19. An image link of a returned record is absent or a non-empty
    text, never the empty string. *)
Theorem image_links_are_never_empty
    (rows : list row) (h : overlay) (products : list product) :
  snd (Route.processProducts rows h) = Ok products ->
  Forall (fun p => image_url_1 p <> Some [] /\ image_url_2 p <> Some [])
         products.
Proof.
  rewrite processProducts_kept. intros Hk.
  apply Forall_forall. intros p Hp.
  destruct (kept_origin _ _ _ _ _ Hk Hp) as (k & r & _ & Hcb).
  destruct (map_callback_some _ _ _ _ Hcb)
    as (_ & _ & _ & _ & _ & _ & _ & H1 & H2).
  rewrite H1, H2. split; apply extractUrl_nonempty.
Qed.

Lemma image_links_are_never_empty_witness :
  snd (Route.processProducts image_rows empty_link_overlay)
  = Ok [mkProduct (js "Vase A") None (Finite false 5 0) None
          (Some (js "https://example.com/a.jpg")) None]
  /\ Forall (fun p => image_url_1 p <> Some [] /\ image_url_2 p <> Some [])
            [mkProduct (js "Vase A") None (Finite false 5 0) None
               (Some (js "https://example.com/a.jpg")) None].
Proof.
  split; [vm_compute; reflexivity|].
  apply (image_links_are_never_empty image_rows empty_link_overlay).
  vm_compute; reflexivity.
Defined.

(** X20. Rows are normalized one by one: the output for two row sequences
    put end to end is the output for the first followed by the output for
    the second, whose rows keep their positions in the whole for the
    overlay; an exception in either part is the exception of the whole. *)
Theorem normalizer_distributes_over_append
    (rows1 rows2 : list row) (h : overlay) :
  snd (Route.processProducts (rows1 ++ rows2) h)
  = (first <- kept h 0 rows1 ;;
     second <- kept h (length rows1) rows2 ;;
     Ok (first ++ second)).
Proof.
  rewrite processProducts_kept. unfold kept.
  rewrite map_indexed_app. simpl.
  destruct (map_indexed _ 0%nat rows1) as [m1|e]; simpl; [|reflexivity].
  destruct (map_indexed _ (length rows1) rows2) as [m2|e]; simpl;
    [|reflexivity].
  now rewrite filter_non_null_app.
Qed.

(** ** The credentials *)

(** X21. [initializeSheetsAPI] returns exactly when the client could be
    requested with credentials of the one source in use: the inline
    variable when it is set and not empty, and only otherwise the file
    named by the path variable, which must exist. *)
Theorem credentials_come_from_one_source (pf : platform) (env : environment) :
  Route.initializeSheetsAPI pf env = Ok tt <->
  exists cred,
    getClient pf cred = Ok tt
    /\ ((exists inline,
           GOOGLE_CREDENTIALS_JSON env = Some inline /\ inline <> []
           /\ base64_json_parse pf inline = Ok cred)
        \/ (env_truthy (GOOGLE_CREDENTIALS_JSON env) = false
            /\ exists path,
                 GOOGLE_CREDENTIALS_PATH env = Some path /\ path <> []
                 /\ existsSync pf (path_resolve pf path) = true
                 /\ read_json_file pf (path_resolve pf path) = Ok cred)).
Proof.
  unfold Route.initializeSheetsAPI. split.
  - destruct (GOOGLE_CREDENTIALS_JSON env) as [[|c s]|] eqn:Ej.
    + destruct (GOOGLE_CREDENTIALS_PATH env) as [[|d p]|]; try discriminate.
      destruct (existsSync pf (path_resolve pf (d :: p))) eqn:Ex;
        [|discriminate]. simpl.
      destruct (read_json_file pf _) as [cred|e] eqn:Er; [|discriminate].
      simpl. intros Hg. exists cred. split; [now destruct (getClient pf cred) as [[]|]|].
      right. split; [reflexivity|]. exists (d :: p).
      split_and!; try reflexivity; try discriminate; assumption.
    + destruct (base64_json_parse pf (c :: s)) as [cred|e] eqn:Eb;
        [|discriminate].
      simpl. intros Hg. exists cred. split; [exact Hg|].
      left. exists (c :: s). split_and!; [reflexivity | discriminate | exact Eb].
    + destruct (GOOGLE_CREDENTIALS_PATH env) as [[|d p]|]; try discriminate.
      destruct (existsSync pf (path_resolve pf (d :: p))) eqn:Ex;
        [|discriminate]. simpl.
      destruct (read_json_file pf _) as [cred|e] eqn:Er; [|discriminate].
      simpl. intros Hg. exists cred. split; [exact Hg|].
      right. split; [reflexivity|]. exists (d :: p).
      split_and!; try reflexivity; try discriminate; assumption.
  - intros (cred & Hg & [(inline & -> & Hne & Hb)|(Hj & path & -> & Hne & Hx & Hr)]).
    + destruct inline as [|c s]; [congruence|]. rewrite Hb. exact Hg.
    + destruct path as [|d p]; [congruence|].
      destruct (GOOGLE_CREDENTIALS_JSON env) as [[|c s]|]; try discriminate;
        rewrite Hx; simpl; rewrite Hr; exact Hg.
Qed.

(** X22. There is no falling back: when the inline variable is set and
    cannot be decoded and parsed, [initializeSheetsAPI] throws with the
    message of that failure behind a fixed prefix, even when the path
    variable names a file that exists and holds valid credentials. *)
Theorem bad_inline_credentials_are_fatal
    (pf : platform) (env : environment) (inline : jsstring) (e : exn) :
  GOOGLE_CREDENTIALS_JSON env = Some inline -> inline <> [] ->
  base64_json_parse pf inline = Throw e ->
  Route.initializeSheetsAPI pf env
  = Throw (Error (js "Failed to parse GOOGLE_CREDENTIALS_JSON: "
                    ++ exn_message e)).
Proof.
  intros Hj Hne Hb. unfold Route.initializeSheetsAPI. rewrite Hj.
  destruct inline as [|c s]; [congruence|]. now rewrite Hb.
Qed.

Lemma bad_inline_credentials_are_fatal_witness :
  (GOOGLE_CREDENTIALS_JSON both_env = Some (js "not base64")
   /\ js "not base64" <> []
   /\ base64_json_parse file_platform (js "not base64")
      = Throw (Error (js "Unexpected token")))
  /\ Route.initializeSheetsAPI file_platform file_env = Ok tt
  /\ Route.initializeSheetsAPI file_platform both_env
     = Throw (Error (js "Failed to parse GOOGLE_CREDENTIALS_JSON: "
                       ++ exn_message (Error (js "Unexpected token")))).
Proof.
  split; [split_and!; [reflexivity | discriminate | reflexivity]|].
  split; [reflexivity|].
  apply (bad_inline_credentials_are_fatal file_platform both_env
           (js "not base64") (Error (js "Unexpected token")));
    [reflexivity | discriminate | reflexivity].
Defined.

(** ** The script and the endpoint *)

Lemma script_initializeSheetsAPI (pf : platform) (env : environment) :
  Script.initializeSheetsAPI pf env = Route.initializeSheetsAPI pf env.
Proof. reflexivity. Qed.

Lemma script_grid_hyperlinks (sp : Spreadsheet) :
  Script.grid_hyperlinks sp = Route.grid_hyperlinks sp.
Proof. reflexivity. Qed.

Lemma script_readSheetData (w : world) :
  Script.readSheetData w = Route.readSheetData w.
Proof. reflexivity. Qed.

Lemma script_deleteAllProducts (w : world) :
  Script.deleteAllProducts w = Route.deleteAllProducts w.
Proof. reflexivity. Qed.

Lemma script_insertProducts (products : list product) (w : world) :
  Script.insertProducts products w = Route.insertProducts products w.
Proof. reflexivity. Qed.

Lemma script_products (rows : list row) (h : overlay) :
  snd (Script.processProducts rows h) = snd (Route.processProducts rows h).
Proof.
  unfold Script.processProducts, Route.processProducts.
  rewrite (map_indexed_ext _ _ rows (script_map_callback h)).
  destruct (map_indexed _ 0%nat rows); reflexivity.
Qed.

(** The script on a configured deployment, stage by stage. *)
Lemma script_configured (pf : platform) (env : environment) (w : world) :
  configured pf env ->
  Script.main pf env w =
  match sheet_values w with
  | Throw e => (1%nat, log SheetsValuesGet w)
  | Ok vs =>
      match sheet_grid w with
      | Throw e => (1%nat, after_reads w)
      | Ok sp =>
          match snd (Route.processProducts (sheet_rows w) (sheet_hyperlinks w))
          with
          | Throw e => (1%nat, after_reads w)
          | Ok products =>
              match Route.deleteAllProducts (after_reads w) with
              | (Throw e, w1) => (1%nat, w1)
              | (Ok _, w1) =>
                  match Route.insertProducts products w1 with
                  | (Throw e, w2) => (1%nat, w2)
                  | (Ok _, w2) => (0%nat, w2)
                  end
              end
          end
      end
  end.
Proof.
  intros (sheetId & url & key & H1 & N1 & H2 & N2 & H3 & N3 & H4 & H5).
  assert (Hinit : Script.module_init pf env = Ok tt).
  { unfold Script.module_init. rewrite H1, H2, H3.
    destruct sheetId as [|c1 s1]; [congruence|].
    destruct url as [|c2 s2]; [congruence|].
    destruct key as [|c3 s3]; [congruence|].
    simpl env_truthy. simpl negb. cbv iota.
    unfold Route.initializeSheetsAPI in H5.
    destruct (GOOGLE_CREDENTIALS_JSON env) as [[|c s]|];
      destruct (GOOGLE_CREDENTIALS_PATH env) as [[|d p]|];
      simpl; try exact H4; discriminate. }
  unfold Script.main. rewrite Hinit.
  unfold Script.sync, Script.sync_try, bindM at 1, lift at 1.
  rewrite script_initializeSheetsAPI, H5.
  unfold bindM at 1. rewrite script_readSheetData, readSheetData_run.
  unfold sheet_rows, sheet_hyperlinks, after_reads.
  destruct (sheet_values w) as [vs|e]; [|reflexivity].
  destruct (sheet_grid w) as [sp|e]; [|reflexivity].
  unfold bindM at 1, lift at 1.
  rewrite script_products.
  destruct (snd (Route.processProducts (default [] vs)
                   (Route.grid_hyperlinks sp))) as [products|e];
    [|reflexivity].
  unfold bindM at 1. rewrite script_deleteAllProducts.
  destruct (Route.deleteAllProducts _) as [[[]|e] w1]; [|reflexivity].
  rewrite script_insertProducts.
  destruct (Route.insertProducts products w1) as [[[]|e] w2]; reflexivity.
Qed.

Lemma script_unconfigured (pf : platform) (env : environment) (w : world) :
  ~ configured pf env -> Script.main pf env w = (1%nat, w).
Proof.
  intros Hn. unfold Script.main, Script.module_init.
  destruct (GOOGLE_SHEET_ID env) as [[|c1 s1]|] eqn:E1; try reflexivity.
  simpl env_truthy at 1. simpl negb at 1. cbv iota.
  destruct (negb (env_truthy (GOOGLE_CREDENTIALS_JSON env))
            && negb (env_truthy (GOOGLE_CREDENTIALS_PATH env))); [reflexivity|].
  destruct (NEXT_PUBLIC_SUPABASE_URL env) as [[|c2 s2]|] eqn:E2;
    try reflexivity.
  destruct (SUPABASE_SERVICE_ROLE_KEY env) as [[|c3 s3]|] eqn:E3;
    try reflexivity.
  destruct (createClient pf (c2 :: s2) (c3 :: s3)) as [[]|e] eqn:E4;
    [|reflexivity].
  unfold Script.sync, Script.sync_try, bindM at 1, lift at 1.
  rewrite script_initializeSheetsAPI.
  destruct (Route.initializeSheetsAPI pf env) as [[]|e] eqn:E5; [|reflexivity].
  exfalso. apply Hn. exists (c1 :: s1), (c2 :: s2), (c3 :: s3).
  split_and!; try reflexivity; try discriminate; assumption.
Qed.

(** X23. The script and the endpoint are the same synchronisation: run on
    the same world, the script and an authorized request leave the same
    world behind (the same table, the same calls in the same order), and
    the script ends with exit code 0 exactly when the request is answered
    200. *)
Theorem script_matches_endpoint
    (pf : platform) (env : environment) (req : request) (w : world) :
  authorized env req ->
  snd (Script.main pf env w) = snd (Route.POST pf env req w)
  /\ (fst (Script.main pf env w) = 0%nat
      <-> status (fst (Route.POST pf env req w)) = 200%nat).
Proof.
  intros Ha. destruct (configured_dec pf env) as [Hc|Hn].
  - rewrite (script_configured pf env w Hc), (POST_configured pf env req w Ha Hc).
    destruct (sheet_values w); [|split; [reflexivity | split; discriminate]].
    destruct (sheet_grid w); [|split; [reflexivity | split; discriminate]].
    destruct (snd (Route.processProducts _ _));
      [|split; [reflexivity | split; discriminate]].
    destruct (Route.deleteAllProducts _) as [[[]|e] w1];
      [|split; [reflexivity | split; discriminate]].
    destruct (Route.insertProducts _ w1) as [[[]|e] w2];
      split; try reflexivity; split; try discriminate; reflexivity.
  - rewrite (script_unconfigured pf env w Hn).
    destruct (POST_unconfigured pf env req w Ha Hn) as [e ->].
    split; [reflexivity | split; discriminate].
Qed.

Lemma script_matches_endpoint_witness :
  authorized sample_env sample_request
  /\ snd (Script.main sample_platform sample_env sample_world)
     = snd (Route.POST sample_platform sample_env sample_request sample_world)
  /\ (fst (Script.main sample_platform sample_env sample_world) = 0%nat
      <-> status (fst (Route.POST sample_platform sample_env sample_request
                         sample_world)) = 200%nat).
Proof.
  assert (Ha : authorized sample_env sample_request).
  { exists (js "s3cret"). split_and!; [reflexivity | discriminate | reflexivity]. }
  split; [exact Ha|].
  exact (script_matches_endpoint sample_platform sample_env sample_request
           sample_world Ha).
Defined.

(** X24. A run of the script that ends with exit code 0 has replaced the
    table: it holds exactly the records the normalizer returned for the
    sheet, and the calls made are the two reads, the select, the delete of
    every identifier found (none on an empty table) and the inserts. *)
Theorem script_run_replaces_table
    (pf : platform) (env : environment) (w w' : world) :
  Script.main pf env w = (0%nat, w') ->
  exists products,
    snd (Route.processProducts (sheet_rows w) (sheet_hyperlinks w))
    = Ok products
    /\ map snd (table w') = products
    /\ trace w' = trace w ++ run_calls (table w) products.
Proof.
  destruct (configured_dec pf env) as [Hc|Hn];
    [|rewrite (script_unconfigured pf env w Hn); discriminate].
  rewrite (script_configured pf env w Hc).
  destruct (sheet_values w); [|discriminate].
  destruct (sheet_grid w); [|discriminate].
  destruct (snd (Route.processProducts _ _)) as [products|e]; [|discriminate].
  destruct (Route.deleteAllProducts _) as [[[]|e] w1] eqn:Ed; [|discriminate].
  destruct (Route.insertProducts _ w1) as [[[]|e] w2] eqn:Ei; [|discriminate].
  intros [= <-]. exists products.
  apply deleteAllProducts_ok in Ed. destruct Ed as (Ht1 & _ & Htr1).
  apply insertProducts_ok in Ei. destruct Ei as (Ht & Htr).
  split_and!; [reflexivity | |].
  - rewrite Ht, Ht1. apply with_ids_records.
  - rewrite Htr, Htr1. simpl. unfold run_calls.
    rewrite <- ?app_assoc. simpl. rewrite <- ?app_assoc. reflexivity.
Qed.

Lemma script_run_replaces_table_witness :
  Script.main sample_platform sample_env sample_world
  = (0%nat, snd (Script.main sample_platform sample_env sample_world))
  /\ exists products,
       snd (Route.processProducts (sheet_rows sample_world)
              (sheet_hyperlinks sample_world)) = Ok products
       /\ map snd (table (snd (Script.main sample_platform sample_env
                                 sample_world))) = products
       /\ trace (snd (Script.main sample_platform sample_env sample_world))
          = trace sample_world ++ run_calls (table sample_world) products.
Proof.
  split; [vm_compute; reflexivity|].
  apply (script_run_replaces_table sample_platform sample_env sample_world).
  vm_compute; reflexivity.
Defined.

(** X25. The script checks its configuration before anything else: when a
    required variable is missing or empty, when neither source of
    credentials is given, or when a client cannot be made, it ends with
    exit code 1 and has read and written nothing. *)
Theorem script_stops_on_incomplete_configuration
    (pf : platform) (env : environment) (w : world) :
  ~ configured pf env -> Script.main pf env w = (1%nat, w).
Proof. apply script_unconfigured. Qed.

Lemma script_stops_on_incomplete_configuration_witness :
  ~ configured sample_platform no_sheet_env
  /\ Script.main sample_platform no_sheet_env sample_world
     = (1%nat, sample_world).
Proof.
  assert (Hn : ~ configured sample_platform no_sheet_env).
  { intros (a & b & c & H & _). discriminate H. }
  split; [exact Hn|].
  exact (script_stops_on_incomplete_configuration sample_platform no_sheet_env
           sample_world Hn).
Defined.
